(** * Minesweeper engine (sweeper.cpp): model and verification

    The game engine of [sweeper.cpp] is embedded as executable Rocq
    functions: the board is a record holding a flattened list of cells,
    every [board.cells[i]] is a checked access that faults when [i] is
    not a valid position of the vector, and the recursion of [reveal]
    and the sampling loop of [init_board] carry a fuel argument.

    C++ [int] values are modelled in [Z]: signed overflow is undefined
    in C++, and on a board whose [width * height] fits an [int] the
    indices and counters the engine computes for grid coordinates stay
    within that product.  The two places where the language defines a
    wrap-around are written out: the 4-bit signed bit-field
    [neighbor_mines] and the 64-bit unsigned turn counter [time].

    The text interface is embedded as well: [print_board] returns the
    characters it writes, [read_command] works on the lines that
    [std::getline] delivers, with the word extraction of [operator>>]
    and [std::atoi] written out, and [interact] is the loop of main on
    lines of text.  The field [board.system] is a parameter of
    [read_command].  The option parsing at the start of main is not
    part of the model: the loop starts from the board it leaves. *)

From Stdlib Require Import ZArith Lia Bool List.
From Stdlib Require Import Ascii.
From Stdlib Require DecimalString HexadecimalString DecimalZ.
From stdpp Require Import base list strings.
Import ListNotations.
Local Open Scope Z_scope.

(** ** Faults and the result type *)

Inductive fault : Type :=
| OutOfRange      (* board.cells[i] with i outside the vector *)
| DivByZero       (* pos % width or pos / width with width = 0 *)
| BadAlloc        (* cells.resize with a negative size *)
| OutOfFuel.      (* the model's recursion budget ran out *)

Inductive res (A : Type) : Type :=
| Ok (a : A)
| Err (e : fault).
Arguments Ok {A} a.
Arguments Err {A} e.

Definition bind {A B : Type} (m : res A) (k : A -> res B) : res B :=
  match m with
  | Ok a => k a
  | Err e => Err e
  end.

Notation "'do' x <- m ; k" := (bind m (fun x => k))
  (at level 10, x pattern, m at level 100, k at level 200).

(** ** Cells and boards *)

(** [struct Cell]: three one-bit flags and [int neighbor_mines : 4], a
    signed bit-field holding values in [-8, 7]. *)
Record Cell : Type := mkCell {
  is_mine : bool;
  is_revealed : bool;
  is_flagged : bool;
  neighbor_mines : Z
}.

(** A value-initialised cell, as produced by [cells.resize]. *)
Definition blank : Cell := mkCell false false false 0.

(** Storing an [int] into the 4-bit signed bit-field keeps the value
    congruent modulo 16 that lies in [-8, 7]. *)
Definition wrap4 (z : Z) : Z := (z + 8) mod 16 - 8.

Definition set_mine (c : Cell) (v : bool) : Cell :=
  mkCell v (is_revealed c) (is_flagged c) (neighbor_mines c).
Definition set_revealed (c : Cell) (v : bool) : Cell :=
  mkCell (is_mine c) v (is_flagged c) (neighbor_mines c).
Definition set_flagged (c : Cell) (v : bool) : Cell :=
  mkCell (is_mine c) (is_revealed c) v (neighbor_mines c).
Definition set_neighbor_mines (c : Cell) (v : Z) : Cell :=
  mkCell (is_mine c) (is_revealed c) (is_flagged c) (wrap4 v).

(** [struct Board], without the parser's coordinate convention. *)
Record Board : Type := mkBoard {
  width : Z;
  height : Z;
  num_mines : Z;
  cells : list Cell;
  seed : Z;
  game_over : bool;
  time : Z
}.

Definition set_cells (b : Board) (cs : list Cell) : Board :=
  mkBoard (width b) (height b) (num_mines b) cs (seed b) (game_over b) (time b).
Definition set_size (b : Board) (w h : Z) : Board :=
  mkBoard w h (num_mines b) (cells b) (seed b) (game_over b) (time b).
Definition set_seed (b : Board) (s : Z) : Board :=
  mkBoard (width b) (height b) (num_mines b) (cells b) s (game_over b) (time b).
Definition set_game_over (b : Board) (g : bool) : Board :=
  mkBoard (width b) (height b) (num_mines b) (cells b) (seed b) g (time b).
Definition set_time (b : Board) (t : Z) : Board :=
  mkBoard (width b) (height b) (num_mines b) (cells b) (seed b) (game_over b) t.

(** [board.cells[i]] read through an [int] index. *)
Definition lookup_cell (b : Board) (i : Z) : option Cell :=
  if i <? 0 then None else cells b !! Z.to_nat i.

Definition get_cell (b : Board) (i : Z) : res Cell :=
  match lookup_cell b i with
  | Some c => Ok c
  | None => Err OutOfRange
  end.

(** Write through a reference [auto& cell = board.cells[i]] obtained by a
    successful [get_cell]. *)
Definition put_cell (b : Board) (i : Z) (c : Cell) : Board :=
  set_cells b (<[Z.to_nat i := c]> (cells b)).

(** ** for_each_neighbour *)

(** A callback [f(board, x, y)]; [S] is the state the callable captures
    by reference ([unit] for a plain function). *)
Definition visitor (S : Type) : Type := Board -> Z -> Z -> S -> res (Board * S).

Definition call {S : Type} (f : visitor S) (x y : Z) (st : Board * S)
  : res (Board * S) :=
  f (fst st) x y (snd st).

Definition guard {S : Type} (c : Board -> bool)
  (k : Board * S -> res (Board * S)) (st : Board * S) : res (Board * S) :=
  if c (fst st) then k st else Ok st.

Definition and_then {S : Type} (k1 k2 : Board * S -> res (Board * S))
  (st : Board * S) : res (Board * S) :=
  bind (k1 st) k2.

Notation "k1 >>> k2" := (and_then k1 k2) (at level 61, left associativity).

Definition for_each_neighbour {S : Type} (x y : Z) (f : visitor S)
  : Board * S -> res (Board * S) :=
  guard (fun _ => x >? 0)
    (call f (x - 1) y >>>
     guard (fun _ => y >? 0) (call f (x - 1) (y - 1)) >>>
     guard (fun b => y <? height b - 1) (call f (x - 1) (y + 1))) >>>
  guard (fun b => x <? width b - 1)
    (call f (x + 1) y >>>
     guard (fun _ => y >? 0) (call f (x + 1) (y - 1)) >>>
     guard (fun b => y <? height b - 1) (call f (x + 1) (y + 1))) >>>
  guard (fun _ => y >? 0) (call f x (y - 1)) >>>
  guard (fun b => y <? height b - 1) (call f x (y + 1)).

(** A plain function used as a callback captures nothing. *)
Definition plain (g : Board -> Z -> Z -> res Board) : visitor unit :=
  fun b x y s => do b' <- g b x y; Ok (b', s).

(** ** reveal *)

Fixpoint reveal (fuel : nat) (b : Board) (x y : Z) : res Board :=
  match fuel with
  | O => Err OutOfFuel
  | S fuel' =>
      do cell <- get_cell b (y * width b + x);
      if is_revealed cell then Ok b
      else
        let cell := set_revealed (set_flagged cell false) true in
        let b := put_cell b (y * width b + x) cell in
        if is_mine cell then Ok b
        else if neighbor_mines cell >? 0 then Ok b
        else
          do st <- for_each_neighbour x y (plain (reveal fuel')) (b, tt);
          Ok (fst st)
  end.

(** [reveal] with the positions at which [is_revealed = true] is executed
    recorded in order; erasing the record gives [reveal]. *)
Fixpoint reveal_traced (fuel : nat) (b : Board) (x y : Z) (tr : list (Z * Z))
  : res (Board * list (Z * Z)) :=
  match fuel with
  | O => Err OutOfFuel
  | S fuel' =>
      do cell <- get_cell b (y * width b + x);
      if is_revealed cell then Ok (b, tr)
      else
        let cell := set_revealed (set_flagged cell false) true in
        let b := put_cell b (y * width b + x) cell in
        let tr := tr ++ [(x, y)] in
        if is_mine cell then Ok (b, tr)
        else if neighbor_mines cell >? 0 then Ok (b, tr)
        else for_each_neighbour x y (reveal_traced fuel') (b, tr)
  end.

(** ** check_board *)

Inductive Msg : Type :=
| YouWin             (* "You win!" *)
| GameOver           (* "Game over!" *)
| IncorrectFlags.    (* "Incorrect number of flags" *)

(** The counting loop: (correctly_flagged_mines, unrevealed_cells). *)
Definition tally (acc : Z * Z) (cell : Cell) : Z * Z :=
  if is_flagged cell then
    if is_mine cell then (fst acc + 1, snd acc) else acc
  else if negb (is_revealed cell) then (fst acc, snd acc + 1)
  else acc.

Definition flag_if_mine (cell : Cell) : Cell :=
  if is_mine cell then set_flagged cell true else cell.

Definition check_board (b : Board) : Board * list Msg :=
  let counts := fold_left tally (cells b) (0, 0) in
  if fst counts + snd counts =? num_mines b then
    (set_game_over (set_cells b (map flag_if_mine (cells b))) true, [YouWin])
  else (b, []).

(** ** init_board *)

Section Engine.

(** [dist seed hi k] is the [k]-th value that
    [std::uniform_int_distribution<int>(0, hi)] draws from a
    [std::default_random_engine] seeded with [seed].  The generator
    belongs to the C++ library, so the engine is modelled for an
    arbitrary one. *)
Variable dist : Z -> Z -> nat -> Z.

(** The lambda of [init_board]: one more mine next to a non-mine cell. *)
Definition bump_neighbour : visitor unit :=
  fun b x y s =>
    do cell <- get_cell b (y * width b + x);
    if negb (is_mine cell) then
      Ok (put_cell b (y * width b + x)
            (set_neighbor_mines cell (neighbor_mines cell + 1)), s)
    else Ok (b, s).

(** The [while] loop of [init_board]; [k] counts the draws made so
    far and [placed] is the local [num_mines]. *)
Fixpoint init_board_loop (fuel : nat) (hi blocked : Z) (k : nat)
  (placed : Z) (b : Board) : res Board :=
  match fuel with
  | O => Err OutOfFuel
  | S fuel' =>
      if placed <? num_mines b then
        let pos := dist (seed b) hi k in
        if pos =? blocked then init_board_loop fuel' hi blocked (S k) placed b
        else
          do cell <- get_cell b pos;
          if is_mine cell then init_board_loop fuel' hi blocked (S k) placed b
          else
            let b := put_cell b pos (set_neighbor_mines (set_mine cell true) 0) in
            if width b =? 0 then Err DivByZero
            else
              let cx := Z.rem pos (width b) in
              let cy := Z.quot pos (width b) in
              do st <- for_each_neighbour cx cy bump_neighbour (b, tt);
              init_board_loop fuel' hi blocked (S k) (placed + 1) (fst st)
      else Ok b
  end.

Definition init_board (fuel : nat) (b : Board) (x y : Z) : res Board :=
  init_board_loop fuel (width b * height b - 1) (y * width b + x) 0 0 b.

(** ** The command loop of main *)

Inductive CommandVerb : Type := Reveal | Flag | New | Quit.

Record Command : Type := mkCommand {
  verb : CommandVerb;
  cmd_x : Z;
  cmd_y : Z
}.

(** [cells.resize(n)] on an empty vector. *)
Definition resize (n : Z) : res (list Cell) :=
  if n <? 0 then Err BadAlloc else Ok (replicate (Z.to_nat n) blank).

(** The board main starts from, after the command line is read. *)
Definition start (w h mines sd : Z) : res Board :=
  do cs <- resize (w * h);
  Ok (mkBoard w h mines cs sd false 0).

(** The first lambda of the chord: count the flagged neighbours. *)
Definition count_flag : visitor Z :=
  fun b x y flags =>
    do cell <- get_cell b (y * width b + x);
    Ok (b, if is_flagged cell then flags + 1 else flags).

(** The second lambda of the chord: reveal the neighbours that hold no
    mine. *)
Definition reveal_safe (fuel : nat) : visitor unit :=
  fun b x y s =>
    do cell <- get_cell b (y * width b + x);
    if negb (is_mine cell) then
      do b' <- reveal fuel b x y; Ok (b', s)
    else Ok (b, s).

(** [case Reveal] of the switch. *)
Definition do_reveal (fuel : nat) (b : Board) (x y : Z)
  : res (Board * list Msg) :=
  do b <- (if time b =? 1 then init_board fuel b x y else Ok b);
  do cell <- get_cell b (y * width b + x);
  if is_revealed cell && (neighbor_mines cell >? 0) then
    do st <- for_each_neighbour x y count_flag (b, 0);
    if negb (snd st =? neighbor_mines cell) then
      Ok (fst st, [IncorrectFlags])
    else
      do st' <- for_each_neighbour x y (reveal_safe fuel) (fst st, tt);
      Ok (fst st', [])
  else if negb (is_revealed cell) then
    do b' <- reveal fuel b x y;
    do cell' <- get_cell b' (y * width b' + x);
    Ok (if is_mine cell' then set_game_over b' true else b', [])
  else Ok (b, []).

(** [case Flag] of the switch. *)
Definition do_flag (b : Board) (x y : Z) : res (Board * list Msg) :=
  do cell <- get_cell b (y * width b + x);
  if is_revealed cell then Ok (b, [])
  else
    Ok (put_cell b (y * width b + x)
          (set_flagged cell (negb (is_flagged cell))), []).

(** [case New] of the switch; [fresh] is the value that
    [std::random_device] returns. *)
Definition do_new (b : Board) (x y fresh : Z) : res (Board * list Msg) :=
  let b := set_cells b [] in
  let b := if (x >? 0) && (y >? 0) then set_size b x y else b in
  do cs <- resize (width b * height b);
  Ok (set_time (set_game_over (set_seed (set_cells b cs) fresh) false) 0, []).

(** The switch on the command's verb ([Quit] leaves the loop and is
    handled there). *)
Definition do_command (fuel : nat) (b : Board) (cmd : Command) (fresh : Z)
  : res (Board * list Msg) :=
  match verb cmd with
  | New => do_new b (cmd_x cmd) (cmd_y cmd) fresh
  | Reveal => do_reveal fuel b (cmd_x cmd) (cmd_y cmd)
  | Flag => do_flag b (cmd_x cmd) (cmd_y cmd)
  | Quit => Ok (b, [])
  end.

(** The head of one loop iteration: [board.time++] on a [uint64_t],
    then [check_board]. *)
Definition tick (b : Board) : Board :=
  set_time b ((time b + 1) mod 2 ^ 64).

Definition loop_head (b : Board) : Board * list Msg :=
  check_board (tick b).

(** [while (true)] of main, run on the commands that [read_command]
    returns (each with the random-device value a [New] would use); at
    the end of the input [read_command] returns [Quit]. *)
Fixpoint main_loop (fuel : nat) (inputs : list (Command * Z)) (b : Board)
  : res (Board * list Msg) :=
  let hd := loop_head b in
  if game_over (fst hd) then Ok (fst hd, snd hd ++ [GameOver])
  else
    match inputs with
    | [] => Ok (fst hd, snd hd)
    | (cmd, fresh) :: rest =>
        match verb cmd with
        | Quit => Ok (fst hd, snd hd)
        | _ =>
            do r <- do_command fuel (fst hd) cmd fresh;
            do r' <- main_loop fuel rest (fst r);
            Ok (fst r', snd hd ++ snd r ++ snd r')
        end
    end.

Definition main (fuel : nat) (w h mines sd : Z) (inputs : list (Command * Z))
  : res (Board * list Msg) :=
  do b <- start w h mines sd;
  main_loop fuel inputs b.

End Engine.

(** ** Specification vocabulary *)

(** The flattened index of (x, y). *)
Definition idx (b : Board) (x y : Z) : Z := y * width b + x.

Definition inb (b : Board) (x y : Z) : Prop :=
  0 <= x < width b /\ 0 <= y < height b.

(** The cell vector has one entry per grid position. *)
Definition wf (b : Board) : Prop :=
  Z.of_nat (length (cells b)) = width b * height b.

Definition cell_at (b : Board) (x y : Z) : option Cell :=
  lookup_cell b (idx b x y).

(** Number of cells satisfying a test. *)
Definition count_cells (p : Cell -> bool) (b : Board) : Z :=
  Z.of_nat (length (List.filter p (cells b))).

Definition count_mines (b : Board) : Z := count_cells is_mine b.

(** The two counts of the win rule, in the spec's words. *)
Definition correctly_flagged (b : Board) : Z :=
  count_cells (fun c => is_flagged c && is_mine c) b.

Definition unflagged_unrevealed (b : Board) : Z :=
  count_cells (fun c => negb (is_flagged c) && negb (is_revealed c)) b.

Definition win_equality (b : Board) : Prop :=
  correctly_flagged b + unflagged_unrevealed b = num_mines b.

(** A board as [cells.resize] leaves it: nothing revealed, nothing
    flagged, no mine. *)
Definition untouched (c : Cell) : Prop :=
  is_mine c = false /\ is_revealed c = false /\ is_flagged c = false.

Definition fresh (b : Board) : Prop := Forall untouched (cells b).

(** A generator that cycles through the range, starting at the seed. *)
Definition round_robin (s hi : Z) (k : nat) : Z := (s + Z.of_nat k) mod (hi + 1).

(** The up-to-8 grid positions around (x, y), in the spec's words: the
    positions one step away in a row, a column or a diagonal that lie on
    the grid. *)
Definition on_grid (b : Board) (p : Z * Z) : bool :=
  (0 <=? fst p) && (fst p <? width b) && (0 <=? snd p) && (snd p <? height b).

Definition around (x y : Z) : list (Z * Z) :=
  [(x - 1, y - 1); (x, y - 1); (x + 1, y - 1);
   (x - 1, y);                 (x + 1, y);
   (x - 1, y + 1); (x, y + 1); (x + 1, y + 1)].

Definition grid_adjacent (b : Board) (x y : Z) : list (Z * Z) :=
  List.filter (on_grid b) (around x y).

Definition mine_at (b : Board) (p : Z * Z) : bool :=
  match cell_at b (fst p) (snd p) with
  | Some c => is_mine c
  | None => false
  end.

(** Number of mines among the grid-adjacent positions of (x, y). *)
Definition adjacent_mines (b : Board) (x y : Z) : Z :=
  Z.of_nat (length (List.filter (mine_at b) (grid_adjacent b x y))).

(** The positions [for_each_neighbour] calls its callback on, in call
    order, on a board of the given width and height. *)
Definition neighbours (w h x y : Z) : list (Z * Z) :=
  (if x >? 0 then
     [(x - 1, y)] ++
     (if y >? 0 then [(x - 1, y - 1)] else []) ++
     (if y <? h - 1 then [(x - 1, y + 1)] else [])
   else []) ++
  (if x <? w - 1 then
     [(x + 1, y)] ++
     (if y >? 0 then [(x + 1, y - 1)] else []) ++
     (if y <? h - 1 then [(x + 1, y + 1)] else [])
   else []) ++
  (if y >? 0 then [(x, y - 1)] else []) ++
  (if y <? h - 1 then [(x, y + 1)] else []).

(** Calling a callback on a list of positions, one after the other. *)
Fixpoint visit_all {S : Type} (f : visitor S) (l : list (Z * Z))
  (st : Board * S) : res (Board * S) :=
  match l with
  | [] => Ok st
  | p :: l' => do st' <- f (fst st) (fst p) (snd p) (snd st); visit_all f l' st'
  end.

(** [k] does on boards of size w x h what visiting [l] with [f] does. *)
Definition agrees {S : Type} (f : visitor S) (w h : Z)
  (k : Board * S -> res (Board * S)) (l : list (Z * Z)) : Prop :=
  forall st, width (fst st) = w -> height (fst st) = h ->
             k st = visit_all f l st.

(** (x', y') is one of the eight positions around (x, y). *)
Definition near (x y x' y' : Z) : Prop :=
  (x', y') <> (x, y) /\ x - 1 <= x' <= x + 1 /\ y - 1 <= y' <= y + 1.

Definition same_size (b b' : Board) : Prop :=
  width b' = width b /\ height b' = height b.

Definition keeps_size {S : Type} (f : visitor S) : Prop :=
  forall b x y s b' s', f b x y s = Ok (b', s') -> same_size b b'.

(** ** Vocabulary for the flood fill *)

Definition inbp (b : Board) (p : Z * Z) : Prop := inb b (fst p) (snd p).

Definition cell_of (b : Board) (p : Z * Z) : option Cell :=
  cell_at b (fst p) (snd p).

(** What [reveal] writes to an unrevealed cell. *)
Definition reveal_cell (c : Cell) : Cell :=
  set_revealed (set_flagged c false) true.

Definition revealed_at (b : Board) (p : Z * Z) : Prop :=
  exists c, cell_of b p = Some c /\ is_revealed c = true.

(** The test under which [reveal] goes on to the neighbours of a cell:
    no mine and [neighbor_mines > 0] false. *)
Definition spreads (b : Board) (p : Z * Z) : Prop :=
  exists c, cell_of b p = Some c /\ is_mine c = false /\ neighbor_mines c <= 0.

(** Positions the recursion of [reveal] can reach from [p]. *)
Inductive flood (b : Board) (p : Z * Z) : Z * Z -> Prop :=
| flood_start : flood b p p
| flood_step (q r : Z * Z) :
    flood b p q -> spreads b q ->
    In r (neighbours (width b) (height b) (fst q) (snd q)) ->
    flood b p r.

Definition unrevealed_count (b : Board) : nat :=
  length (List.filter (fun c => negb (is_revealed c)) (cells b)).

Definition same_fields (b b' : Board) : Prop :=
  width b' = width b /\ height b' = height b /\ num_mines b' = num_mines b /\
  seed b' = seed b /\ game_over b' = game_over b /\ time b' = time b.

(** [b'] is [b] after the cells at [new], all unrevealed in [b], were
    revealed one after the other. *)
Definition traced (b : Board) (new : list (Z * Z)) (b' : Board) : Prop :=
  same_fields b b' /\
  length (cells b') = length (cells b) /\
  (unrevealed_count b' + length new = unrevealed_count b)%nat /\
  List.NoDup new /\
  (forall p, In p new ->
     inbp b p /\
     exists c, cell_of b p = Some c /\ is_revealed c = false /\
               cell_of b' p = Some (reveal_cell c)) /\
  (forall p, inbp b p -> ~ In p new -> cell_of b' p = cell_of b p).

(** Every spreading cell among [new] has all its neighbours revealed. *)
Definition closed_new (b : Board) (new : list (Z * Z)) : Prop :=
  forall q, In q new -> spreads b q ->
  forall r, In r (neighbours (width b) (height b) (fst q) (snd q)) ->
            revealed_at b r.

(** What a call [reveal(board, x, y)] guarantees, and what a run of such
    calls over the positions [l] guarantees. *)
Definition reveal_post (b : Board) (p : Z * Z) (b' : Board)
  (new : list (Z * Z)) : Prop :=
  traced b new b' /\ revealed_at b' p /\
  (forall q, In q new -> flood b p q) /\ closed_new b' new.

Definition visit_post (b : Board) (l : list (Z * Z)) (b' : Board)
  (new : list (Z * Z)) : Prop :=
  traced b new b' /\ (forall r, In r l -> revealed_at b' r) /\
  (forall q, In q new -> exists r, In r l /\ flood b r q) /\
  closed_new b' new.

(** Two runs end on the same board, or with the same fault, whatever
    the callbacks captured. *)
Definition same_board {S T : Type} (r : res (Board * S)) (r' : res (Board * T))
  : Prop :=
  match r, r' with
  | Ok a, Ok a' => fst a = fst a'
  | Err e, Err e' => e = e'
  | _, _ => False
  end.

Definition sim_visitor {S T : Type} (f : visitor S) (g : visitor T) : Prop :=
  forall b x y s t, same_board (f b x y s) (g b x y t).

Definition sim_step {S T : Type} (k : Board * S -> res (Board * S))
  (k' : Board * T -> res (Board * T)) : Prop :=
  forall st st', fst st = fst st' -> same_board (k st) (k' st').

(** ** The region of the flood fill, in the spec's words *)

(** A zero-neighbour-count cell, and a cell with a positive count. *)
Definition zero_cell (b : Board) (p : Z * Z) : Prop :=
  exists c, cell_of b p = Some c /\ neighbor_mines c = 0.

Definition numbered_cell (b : Board) (p : Z * Z) : Prop :=
  exists c, cell_of b p = Some c /\ neighbor_mines c > 0.

(** The connected region of zero-neighbour-count cells containing [p]. *)
Inductive zero_region (b : Board) (p : Z * Z) : Z * Z -> Prop :=
| zero_start : zero_region b p p
| zero_next (q r : Z * Z) :
    zero_region b p q ->
    In r (grid_adjacent b (fst q) (snd q)) -> zero_cell b r ->
    zero_region b p r.

(** That region plus the cells with a positive count that border it. *)
Definition region (b : Board) (p q : Z * Z) : Prop :=
  zero_region b p q \/
  exists z, zero_region b p z /\ In q (grid_adjacent b (fst z) (snd z)) /\
            numbered_cell b q.

(** A grid cell without a mine whose stored count is 0. *)
Definition safe_zero (b : Board) (q : Z * Z) : Prop :=
  inbp b q /\ exists c, cell_of b q = Some c /\ is_mine c = false /\
                        neighbor_mines c = 0.

(** ** Invariants of a game in progress *)

(** The stored count of every cell without a mine is the number of mined
    neighbours, as the 4-bit field holds it; a mine stores 0. *)
Definition counts_ok (b : Board) : Prop :=
  forall x y c, inb b x y -> cell_at b x y = Some c ->
    neighbor_mines c = if is_mine c then 0 else wrap4 (adjacent_mines b x y).

(** Every revealed cell from which [reveal] spreads has all its
    neighbours revealed: no flood fill was left half-way. *)
Definition closed (b : Board) : Prop :=
  forall q, inbp b q -> revealed_at b q -> spreads b q ->
  forall r, In r (neighbours (width b) (height b) (fst q) (snd q)) ->
            revealed_at b r.

(** All grid positions, row by row. *)
Definition positions (b : Board) : list (Z * Z) :=
  flat_map (fun y => map (fun x => (Z.of_nat x, Z.of_nat y))
                         (seq 0 (Z.to_nat (width b))))
           (seq 0 (Z.to_nat (height b))).

Definition counts_okb (b : Board) : bool :=
  forallb (fun p =>
    match cell_of b p with
    | Some c =>
        neighbor_mines c =?
        (if is_mine c then 0 else wrap4 (adjacent_mines b (fst p) (snd p)))
    | None => true
    end) (positions b).

Definition revealedb (b : Board) (p : Z * Z) : bool :=
  match cell_of b p with
  | Some c => is_revealed c
  | None => false
  end.

Definition closedb (b : Board) : bool :=
  forallb (fun q =>
    match cell_of b q with
    | Some c =>
        implb (is_revealed c && negb (is_mine c) && (neighbor_mines c <=? 0))
              (forallb (revealedb b)
                       (neighbours (width b) (height b) (fst q) (snd q)))
    | None => true
    end) (positions b).

(** A 3x3 board with one mine in the corner (2,2), nothing revealed. *)
Definition corner_mine_board : Board :=
  mkBoard 3 3 1
    [mkCell false false false 0; mkCell false false false 0; mkCell false false false 0;
     mkCell false false false 0; mkCell false false false 1; mkCell false false false 1;
     mkCell false false false 0; mkCell false false false 1; mkCell true false false 0]
    0 false 2.

(** ** Vocabulary for mine placement *)

(** A callback that rewrites the cell at (x, y) with [g] and leaves its
    captured state alone. *)
Definition pointwise {S : Type} (g : Cell -> Cell) (f : visitor S) : Prop :=
  forall b x y s,
    f b x y s = do c <- get_cell b (idx b x y);
                Ok (put_cell b (idx b x y) (g c), s).

(** What [bump_neighbour] does to a cell. *)
Definition bump_cell (c : Cell) : Cell :=
  if negb (is_mine c) then set_neighbor_mines c (neighbor_mines c + 1) else c.

(** What [init_board] writes to the cell it turns into a mine. *)
Definition arm_cell (c : Cell) : Cell :=
  set_neighbor_mines (set_mine c true) 0.

(** Every value of the range [0, hi] keeps coming up in the draws, and
    no draw falls outside the range. *)
Definition in_range (dist : Z -> Z -> nat -> Z) (sd hi : Z) : Prop :=
  forall k, 0 <= dist sd hi k <= hi.

Definition fair (dist : Z -> Z -> nat -> Z) (sd hi : Z) : Prop :=
  forall k p, 0 <= p <= hi -> exists k', (k <= k')%nat /\ dist sd hi k' = p.

(** The reveal and flag bits of every cell are the same on both boards. *)
Definition same_marks (b b' : Board) : Prop :=
  forall p c, inbp b p -> cell_of b p = Some c ->
    exists c', cell_of b' p = Some c' /\
               is_revealed c' = is_revealed c /\ is_flagged c' = is_flagged c.

(** The cell at index [i] holds no mine. *)
Definition safe_spot (b : Board) (i : Z) : Prop :=
  forall c, lookup_cell b i = Some c -> is_mine c = false.

(** Every mine of [b] is a mine of [b']. *)
Definition mines_kept (b b' : Board) : Prop :=
  forall i c, lookup_cell b i = Some c -> is_mine c = true ->
    exists c', lookup_cell b' i = Some c' /\ is_mine c' = true.

(** What the loop of [init_board] guarantees when it is entered with
    [placed] mines already counted. *)
Definition placed_post (b : Board) (blocked placed : Z) (b' : Board) : Prop :=
  same_fields b b' /\ wf b' /\ (counts_ok b -> counts_ok b') /\
  same_marks b b' /\ safe_spot b' blocked /\ mines_kept b b' /\
  count_mines b' = count_mines b + Z.max 0 (num_mines b - placed).

(** The board of a 3x1 game with one mine, on its first turn. *)
Definition first_turn_board : Board :=
  mkBoard 3 1 1 (replicate 3 blank) 1 false 1.

(** ** Results that more fuel cannot change *)

(** A run that ended otherwise than by exhausting its fuel. *)
Definition settled {A : Type} (r : res A) : Prop := r <> Err OutOfFuel.

Definition extends {S : Type} (f f' : visitor S) : Prop :=
  forall b x y s, settled (f b x y s) -> f' b x y s = f b x y s.

Definition extends_step {S : Type} (k k' : Board * S -> res (Board * S)) : Prop :=
  forall st, settled (k st) -> k' st = k st.

(** ** Vocabulary for the chord *)

Definition flag_at (b : Board) (p : Z * Z) : bool :=
  match cell_of b p with
  | Some c => is_flagged c
  | None => false
  end.

(** Number of flagged cells among the grid-adjacent positions of (x, y). *)
Definition flagged_neighbours (b : Board) (x y : Z) : Z :=
  Z.of_nat (length (List.filter (flag_at b) (grid_adjacent b x y))).

(** What the second pass of a chord over the positions [l] guarantees. *)
Definition chord_post (b : Board) (l : list (Z * Z)) (b' : Board)
  (new : list (Z * Z)) : Prop :=
  traced b new b' /\
  (forall r, In r l -> mine_at b r = false -> revealed_at b' r) /\
  (forall q, In q new -> exists r, In r l /\ mine_at b r = false /\ flood b r q) /\
  closed_new b' new.

(** [case Reveal] after the placement of its first statement: the chord
    or the plain reveal.  [do_reveal] is the placement followed by this
    (lemma [do_reveal_dispatch]). *)
Definition dispatch (fuel : nat) (b : Board) (x y : Z) : res (Board * list Msg) :=
  do cell <- get_cell b (y * width b + x);
  if is_revealed cell && (neighbor_mines cell >? 0) then
    do st <- for_each_neighbour x y count_flag (b, 0);
    if negb (snd st =? neighbor_mines cell) then
      Ok (fst st, [IncorrectFlags])
    else
      do st' <- for_each_neighbour x y (reveal_safe fuel) (fst st, tt);
      Ok (fst st', [])
  else if negb (is_revealed cell) then
    do b' <- reveal fuel b x y;
    do cell' <- get_cell b' (y * width b' + x);
    Ok (if is_mine cell' then set_game_over b' true else b', [])
  else Ok (b, []).

(** Access safety of a run: it returned, or only its fuel ran out. *)
Definition in_bounds_run {A : Type} (r : res A) : Prop :=
  (exists a, r = Ok a) \/ r = Err OutOfFuel.

(** ** The states of a game *)

Definition all_blank (b : Board) : Prop := Forall (fun c => c = blank) (cells b).

(** No revealed cell carries a flag. *)
Definition tidy (b : Board) : Prop :=
  forall p c, inbp b p -> cell_of b p = Some c ->
              is_revealed c = true -> is_flagged c = false.

(** What holds of the board whenever a command is applied. *)
Definition sound (b : Board) : Prop :=
  wf b /\ 0 < width b /\ 0 < height b /\ counts_ok b /\ closed b /\ tidy b.

(** The mines and the stored counts are the same on both boards. *)
Definition same_static (b b' : Board) : Prop :=
  same_fields b b' /\
  forall p c, inbp b p -> cell_of b p = Some c ->
    exists c', cell_of b' p = Some c' /\ is_mine c' = is_mine c /\
               neighbor_mines c' = neighbor_mines c.

(** [b'] differs from [b] in flags only. *)
Definition same_but_flags (b b' : Board) : Prop :=
  same_fields b b' /\
  forall p c, inbp b p -> cell_of b p = Some c ->
    exists c', cell_of b' p = Some c' /\ is_mine c' = is_mine c /\
               neighbor_mines c' = neighbor_mines c /\
               is_revealed c' = is_revealed c.

(** The boards on which main dispatches a command: the loop head did not
    end the game, the coordinates of a [Reveal] or [Flag] are on the
    grid (the engine's precondition), and fewer than 2^64 turns passed
    since the game began, so that [time] did not wrap. *)
Inductive playing (dist : Z -> Z -> nat -> Z) : Board -> Prop :=
| playing_start (w h mines sd : Z) (b : Board) :
    0 < w -> 0 < h -> start w h mines sd = Ok b ->
    game_over (fst (loop_head b)) = false ->
    playing dist (fst (loop_head b))
| playing_next (b : Board) (cmd : Command) (fresh : Z) (fuel : nat)
    (r : Board * list Msg) :
    playing dist b ->
    verb cmd <> Quit ->
    (verb cmd = Reveal \/ verb cmd = Flag -> inb b (cmd_x cmd) (cmd_y cmd)) ->
    do_command dist fuel b cmd fresh = Ok r ->
    time (fst r) < 2 ^ 64 - 1 ->
    game_over (fst (loop_head (fst r))) = false ->
    playing dist (fst (loop_head (fst r))).

Definition game_inv (b : Board) : Prop :=
  sound b /\ 1 <= time b < 2 ^ 64 /\ (time b = 1 -> all_blank b) /\
  game_over b = false.

(** A 3x1 game with one mine in the middle, after the left cell was
    revealed on the first turn. *)
Definition mid_game_board : Board :=
  mkBoard 3 1 1
    [mkCell false true false 1; mkCell true false false 0;
     mkCell false false false 1]
    1 false 2.

(** A 4x1 game with its mine on the left: the second cell is revealed
    and shows 1, and the player flagged the third cell, which holds no
    mine. *)
Definition wrong_flag_board : Board :=
  mkBoard 4 1 1
    [mkCell true false false 0; mkCell false true false 1;
     mkCell false false true 0; mkCell false false false 0]
    0 false 3.

(** The chord as the spec words it: an accepted chord leaves every
    flagged neighbour and every mined neighbour as it was. *)
Definition chord_spares_flagged_and_mined (dist : Z -> Z -> nat -> Z) : Prop :=
  forall fuel b x y c b' out,
    playing dist b -> inb b x y -> cell_at b x y = Some c ->
    is_revealed c = true -> neighbor_mines c > 0 ->
    flagged_neighbours b x y = neighbor_mines c ->
    do_reveal dist fuel b x y = Ok (b', out) ->
    forall q cq, In q (grid_adjacent b x y) -> cell_of b q = Some cq ->
      is_flagged cq = true \/ is_mine cq = true ->
      cell_of b' q = Some cq.

(** ** Text output: print_board *)

(** [operator<<] on an [int] or on the [uint64_t] turn counter prints
    the decimal digits, with a minus sign for a negative value; under
    [std::hex] the unsigned seed is printed in lower-case hexadecimal
    digits. *)
Definition dec (z : Z) : string :=
  DecimalString.NilZero.string_of_int (Z.to_int z).

Definition hex (z : Z) : string :=
  HexadecimalString.NilZero.string_of_uint (N.to_hex_uint (Z.to_N z)).

Definition nl : string := String "010"%char "".

Fixpoint spaces (n : nat) : string :=
  match n with
  | O => ""
  | S n' => String " "%char (spaces n')
  end.

(** [std::setw(n)] before one output: the text is right-aligned in a
    field of [n] characters and is never cut. *)
Definition setw (n : nat) (s : string) : string :=
  spaces (n - String.length s) +:+ s.

(** [for (int i = 0; i < n; ++i)] with a body that may fault; [i] is the
    loop variable and [s] what the body updates. *)
Fixpoint for_loop {S : Type} (n : nat) (i : Z) (body : Z -> S -> res S) (s : S)
  : res S :=
  match n with
  | O => Ok s
  | S n' => do s' <- body i s; for_loop n' (i + 1) body s'
  end.

(** The [if] chain of the inner loop: the text of one cell and the
    local counter [flagged].  [show_all] is the parameter [reveal] of
    [print_board]. *)
Definition print_cell (b : Board) (show_all : bool) (cell : Cell) (flagged : Z)
  : string * Z :=
  if game_over b && is_mine cell then (" [X]", flagged)
  else if is_flagged cell then
    (if show_all then (if is_mine cell then " [x]" else " [!]") else " [!]",
     flagged + 1)
  else if show_all || is_revealed cell then
    (if is_mine cell then " [X]"
     else if neighbor_mines cell >? 0 then
       " " +:+ setw 3 (dec (neighbor_mines cell))
     else "    ",
     flagged)
  else (" [ ]", flagged).

(** One pass of the loop over [y]: the text printed so far and
    [flagged]. *)
Definition print_row (b : Board) (show_all : bool) (y : Z) (st : string * Z)
  : res (string * Z) :=
  do st' <- for_loop (Z.to_nat (width b)) 0
              (fun x st =>
                 do cell <- get_cell b (y * width b + x);
                 let r := print_cell b show_all cell (snd st) in
                 Ok (fst st +:+ fst r, snd r))
              (fst st +:+ setw 3 (dec y) +:+ "| ", snd st);
  Ok (fst st' +:+ nl, snd st').

Definition print_footer (b : Board) (flagged : Z) : string :=
  "   |  [" +:+ setw 5 (dec (num_mines b - flagged)) +:+ "]" +:+
  " [" +:+ setw 5 (dec (time b)) +:+ "]" +:+ nl.

(** The two header lines. *)
Definition print_header (b : Board) : res string :=
  do l1 <- for_loop (Z.to_nat (width b)) 0
             (fun x out => Ok (out +:+ " " +:+ setw 3 (dec x)))
             ("Seed: " +:+ hex (seed b) +:+ nl +:+ "     ");
  for_loop (Z.to_nat (width b)) 0
    (fun x out => Ok (out +:+ "----"))
    (l1 +:+ nl +:+ "   | ").

(** [print_board]: the text it writes to [std::cout]. *)
Definition print_board (b : Board) (show_all : bool) : res string :=
  do hd <- print_header b;
  do st <- for_loop (Z.to_nat (height b)) 0 (print_row b show_all) (hd +:+ nl, 0);
  Ok (fst st +:+ print_footer b (snd st)).

(** ** Text input: read_command *)

Inductive CoordinateSystem : Type := Cartesian | Boris.

(** [isspace] and [isdigit] in the C locale. *)
Definition isspace (c : Ascii.ascii) : bool :=
  let n := Ascii.nat_of_ascii c in
  (n =? 32)%nat || ((9 <=? n)%nat && (n <=? 13)%nat).

Definition isdigit (c : Ascii.ascii) : bool :=
  let n := Ascii.nat_of_ascii c in (48 <=? n)%nat && (n <=? 57)%nat.

Fixpoint skip_space (s : string) : string :=
  match s with
  | String c r => if isspace c then skip_space r else s
  | EmptyString => s
  end.

(** The characters up to the next white space, and the rest. *)
Fixpoint word (s : string) : string * string :=
  match s with
  | EmptyString => ("", "")
  | String c r =>
      if isspace c then ("", s)
      else (String c (fst (word r)), snd (word r))
  end.

(** [iss >> str] on the rest [s] of the line: the next word, empty when
    the line has no more (the stream then fails, and the later strings
    stay empty as well). *)
Definition extract (s : string) : string * string := word (skip_space s).

(** [std::atoi]: white space, an optional sign, then the digits there
    are; 0 when there is none.  The value is computed in [Z] (a value
    that does not fit an [int] is undefined in C). *)
Fixpoint atoi_digits (s : string) (acc : Z) : Z :=
  match s with
  | String c r =>
      if isdigit c then
        atoi_digits r (acc * 10 + (Z.of_nat (Ascii.nat_of_ascii c) - 48))
      else acc
  | EmptyString => acc
  end.

Definition atoi (s : string) : Z :=
  match skip_space s with
  | String "-"%char r => - atoi_digits r 0
  | String "+"%char r => atoi_digits r 0
  | s' => atoi_digits s' 0
  end.

Definition unknown_command : string :=
  "Unknown command. Commands: r x y (reveal), f x y (flag), q (quit), n [x y] (new)"
  +:+ nl.

(** [read_command] on the lines that [std::getline] will deliver:
    the command, the text written to [std::cout] meanwhile, and the
    lines left unread.  [system] is the field [board.system]. *)
Fixpoint read_command (system : CoordinateSystem) (b : Board)
  (lines : list string) : res (Command * string * list string) :=
  match lines with
  | [] => Ok (mkCommand Quit 0 0, " > ", [])
  | line :: rest =>
      let t1 := extract line in
      let t2 := extract (snd t1) in
      let t3 := extract (snd t2) in
      let cmd := fst t1 in
      let x := match system with Cartesian => fst t2 | Boris => fst t3 end in
      let y := match system with Cartesian => fst t3 | Boris => fst t2 end in
      let again (printed : string) :=
        do r <- read_command system b rest;
        Ok (fst (fst r), " > " +:+ printed +:+ snd (fst r), snd r) in
      if String.eqb cmd "r" then
        Ok (mkCommand Reveal (atoi x) (atoi y), " > ", rest)
      else if String.eqb cmd "f" || String.eqb cmd "m" then
        Ok (mkCommand Flag (atoi x) (atoi y), " > ", rest)
      else if String.eqb cmd "q" then
        Ok (mkCommand Quit 0 0, " > ", rest)
      else if String.eqb cmd "p" then
        do text <- print_board b false; again text
      else if String.eqb cmd "P" then
        do text <- print_board b true; again text
      else if String.eqb cmd "n" then
        Ok (mkCommand New 0 0, " > ", rest)
      else
        let ix := atoi cmd in
        if (ix >=? 0) && (ix <? width b) then
          match system with
          | Cartesian => Ok (mkCommand Reveal ix (atoi x), " > ", rest)
          | Boris => Ok (mkCommand Reveal (atoi y) ix, " > ", rest)
          end
        else again unknown_command
  end.


(** What the player has been shown of a cell: a flag, the content of a
    revealed cell, or nothing. *)
Definition view (c : Cell) : Cell :=
  if is_flagged c then mkCell false false true 0
  else if is_revealed c then c
  else blank.


(** The cells [print_board] prints as a flag. *)
Definition shown_flagged (b : Board) (c : Cell) : bool :=
  is_flagged c && negb (game_over b && is_mine c).




(** ** The loop of main with its text *)

(** The lines main and the engine write besides the board. *)
Definition say (m : Msg) : string :=
  match m with
  | YouWin => "You win!" +:+ nl
  | GameOver => "Game over!" +:+ nl
  | IncorrectFlags => "Incorrect number of flags" +:+ nl
  end.

Definition say_all (ms : list Msg) : string :=
  fold_right (fun m s => say m +:+ s) "" ms.

(** [while (true)] of main on the lines of standard input: the final
    board and all the text written.  [turns] bounds the number of loop
    iterations, [fuel] the recursion inside one command; [fresh k] is
    what [std::random_device] returns when the [k]-th command is
    [New]. *)
Fixpoint interact (dist : Z -> Z -> nat -> Z) (turns fuel : nat)
  (system : CoordinateSystem) (fresh : nat -> Z) (k : nat)
  (lines : list string) (b : Board) : res (Board * string) :=
  match turns with
  | O => Err OutOfFuel
  | S turns' =>
      let hd := loop_head b in
      do shown <- print_board (fst hd) false;
      let out := say_all (snd hd) +:+ shown in
      if game_over (fst hd) then Ok (fst hd, out +:+ say GameOver)
      else
        do rc <- read_command system (fst hd) lines;
        let cmd := fst (fst rc) in
        match verb cmd with
        | Quit => Ok (fst hd, out +:+ snd (fst rc))
        | _ =>
            do r <- do_command dist fuel (fst hd) cmd (fresh k);
            do r' <- interact dist turns' fuel system fresh (S k) (snd rc) (fst r);
            Ok (fst r', out +:+ snd (fst rc) +:+ say_all (snd r) +:+ snd r')
        end
  end.


(** * Theorems *)

(** ** check_board *)

Lemma tally_fold (l : list Cell) (acc : Z * Z) :
  fold_left tally l acc =
  (fst acc + Z.of_nat (length (List.filter (fun c => is_flagged c && is_mine c) l)),
   snd acc + Z.of_nat (length (List.filter (fun c => negb (is_flagged c) && negb (is_revealed c)) l))).
Proof.
  revert acc. induction l as [|c l IH]; intros [a u]; simpl.
  - f_equal; lia.
  - rewrite IH. unfold tally.
    destruct (is_flagged c), (is_mine c), (is_revealed c); simpl; f_equal; lia.
Qed.

Lemma check_board_counts (b : Board) :
  fst (fold_left tally (cells b) (0, 0)) + snd (fold_left tally (cells b) (0, 0))
  = correctly_flagged b + unflagged_unrevealed b.
Proof.
  rewrite tally_fold. unfold correctly_flagged, unflagged_unrevealed, count_cells.
  simpl. lia.
Qed.

(** C5: [check_board] prints "You win!" exactly when the number of
    flagged mines plus the number of cells neither flagged nor revealed
    equals [num_mines], whichever mines carry the flags.  On victory
    every mine cell ends flagged, [game_over] is true and nothing else
    of any cell changes; otherwise the board is left as it was. *)
Theorem check_board_win_equality (b : Board) :
  (snd (check_board b) = [YouWin] <-> win_equality b) /\
  (win_equality b ->
     game_over (fst (check_board b)) = true /\
     length (cells (fst (check_board b))) = length (cells b) /\
     forall i c, cells b !! i = Some c ->
       exists c', cells (fst (check_board b)) !! i = Some c' /\
         (is_mine c = true -> is_flagged c' = true) /\
         (is_mine c = false -> c' = c) /\
         is_mine c' = is_mine c /\ is_revealed c' = is_revealed c /\
         neighbor_mines c' = neighbor_mines c) /\
  (~ win_equality b -> check_board b = (b, [])).
Proof.
  unfold check_board, win_equality. rewrite check_board_counts.
  destruct (Z.eqb_spec (correctly_flagged b + unflagged_unrevealed b) (num_mines b))
    as [E|E]; simpl.
  - split; [tauto|]. split; [|tauto]. intros _.
    split; [reflexivity|]. split; [apply length_map|].
    intros i c Hc. exists (flag_if_mine c). split.
    + rewrite list_lookup_fmap_Some. exists c. auto.
    + unfold flag_if_mine. destruct (is_mine c) eqn:M; simpl; rewrite ?M.
      all: repeat split; auto; discriminate.
  - split; [split; [discriminate|tauto]|]. split; [tauto|]. reflexivity.
Qed.

Lemma flag_if_mine_untouched (l : list Cell) :
  Forall untouched l -> map flag_if_mine l = l.
Proof.
  induction 1 as [|c l [M _] _ IH]; simpl; [reflexivity|].
  unfold flag_if_mine at 1. rewrite M, IH. reflexivity.
Qed.

Lemma tally_untouched (l : list Cell) :
  Forall untouched l ->
  List.filter (fun c => is_flagged c && is_mine c) l = [] /\
  List.filter (fun c => negb (is_flagged c) && negb (is_revealed c)) l = l.
Proof.
  induction 1 as [|c l (M & R & Fl) _ [IH1 IH2]]; simpl; [auto|].
  rewrite M, R, Fl; simpl. rewrite IH1, IH2. auto.
Qed.

Lemma fresh_counts (b : Board) :
  fresh b -> correctly_flagged b = 0 /\
             unflagged_unrevealed b = Z.of_nat (length (cells b)).
Proof.
  intros H. destruct (tally_untouched _ H) as [E1 E2].
  unfold correctly_flagged, unflagged_unrevealed, count_cells.
  rewrite E1, E2. auto.
Qed.

(** C10: when [num_mines] equals [width * height], the first
    [check_board] of a fresh board prints "You win!" and sets
    [game_over]; the loop then stops before it reads a command, for every
    input and even with no fuel at all, so [init_board] is not run and
    the cells stay as they were. *)
Theorem full_board_wins_before_any_reveal
  (dist : Z -> Z -> nat -> Z) (fuel : nat) (inputs : list (Command * Z))
  (b : Board) :
  fresh b -> wf b -> num_mines b = width b * height b ->
  check_board (tick b) = (set_game_over (tick b) true, [YouWin]) /\
  main_loop dist fuel inputs b = Ok (set_game_over (tick b) true, [YouWin; GameOver]) /\
  cells (set_game_over (tick b) true) = cells b.
Proof.
  intros Hf Hw Hm.
  assert (E : check_board (tick b) = (set_game_over (tick b) true, [YouWin])).
  { unfold check_board. rewrite check_board_counts.
    destruct (fresh_counts (tick b) Hf) as [E1 E2]. rewrite E1, E2.
    replace (num_mines (tick b)) with (num_mines b) by reflexivity.
    replace (cells (tick b)) with (cells b) by reflexivity.
    rewrite Hm, <- Hw. rewrite Z.add_0_l, Z.eqb_refl.
    rewrite (flag_if_mine_untouched _ Hf). reflexivity. }
  split; [exact E|]. split; [|reflexivity].
  destruct inputs as [|[cmd fr] rest]; simpl; unfold loop_head; rewrite E;
    reflexivity.
Qed.

Lemma full_board_wins_before_any_reveal_witness :
  let b := mkBoard 2 2 4 (replicate 4 blank) 0 false 0 in
  main_loop round_robin 0 [(mkCommand Reveal 0 0, 0)] b
  = Ok (set_game_over (tick b) true, [YouWin; GameOver]).
Proof.
  intros b.
  apply (full_board_wins_before_any_reveal round_robin 0 [(mkCommand Reveal 0 0, 0)] b).
  - repeat constructor.
  - reflexivity.
  - reflexivity.
Defined.

(** ** Two games on which the engine departs from its description *)

(** C3: a [Flag] command before the first [Reveal] uses up turn 1, so the
    reveal on turn 2 does not run [init_board], whatever the generator:
    the game goes on with no mine although [num_mines] is 1, and the
    reveal floods the whole board. *)
Theorem flag_first_places_no_mine (dist : Z -> Z -> nat -> Z) :
  exists b out,
    main dist 10 3 1 1 0
      [(mkCommand Flag 2 0, 0); (mkCommand Reveal 0 0, 0)] = Ok (b, out) /\
    num_mines b = 1 /\ count_mines b = 0 /\ game_over b = false /\
    (exists c, cell_at b 0 0 = Some c /\ is_revealed c = true).
Proof.
  eexists. eexists. split; [vm_compute; reflexivity|].
  repeat split. eexists. split; reflexivity.
Qed.

(** C8: on a 3x1 board with one mine, when the generator's first draw
    puts the mine in the middle: after the middle cell is revealed (a
    loss), the next [check_board] still finds the win equality, prints
    "You win!" and flags the revealed mine, so that cell is revealed and
    flagged. *)
Theorem lost_game_flags_revealed_mine (dist : Z -> Z -> nat -> Z) (sd : Z) :
  dist sd 2 0%nat = 1 ->
  exists b,
    main dist 2 3 1 1 sd
      [(mkCommand Reveal 0 0, 0); (mkCommand Reveal 1 0, 0)]
    = Ok (b, [YouWin; GameOver]) /\
    cell_at b 1 0 = Some (mkCell true true true 0).
Proof.
  intros H. eexists.
  unfold main, start, resize. simpl. unfold loop_head, tick, check_board. simpl.
  unfold do_command. simpl. unfold do_reveal. simpl. unfold init_board. simpl.
  change (3 * 1 - 1) with 2. rewrite H. simpl. split; reflexivity.
Qed.

Lemma lost_game_flags_revealed_mine_witness :
  exists b,
    main round_robin 2 3 1 1 1
      [(mkCommand Reveal 0 0, 0); (mkCommand Reveal 1 0, 0)]
    = Ok (b, [YouWin; GameOver]) /\
    cell_at b 1 0 = Some (mkCell true true true 0).
Proof.
  apply (lost_game_flags_revealed_mine round_robin 1). reflexivity.
Defined.

(** ** Checked accesses *)

Lemma bind_ok {A B : Type} (m : res A) (k : A -> res B) (r : B) :
  bind m k = Ok r -> exists a, m = Ok a /\ k a = Ok r.
Proof. destruct m; simpl; [eauto|discriminate]. Qed.

Lemma get_cell_ok (b : Board) (i : Z) (c : Cell) :
  get_cell b i = Ok c <-> lookup_cell b i = Some c.
Proof.
  unfold get_cell. destruct (lookup_cell b i); split; congruence.
Qed.

Lemma lookup_cell_some (b : Board) (i : Z) (c : Cell) :
  lookup_cell b i = Some c ->
  0 <= i < Z.of_nat (length (cells b)) /\ cells b !! Z.to_nat i = Some c.
Proof.
  unfold lookup_cell. destruct (Z.ltb_spec i 0); [discriminate|].
  intros H'. split; [|exact H']. apply lookup_lt_Some in H'. lia.
Qed.

Lemma lookup_cell_in_range (b : Board) (i : Z) :
  0 <= i < Z.of_nat (length (cells b)) -> exists c, lookup_cell b i = Some c.
Proof.
  intros H. unfold lookup_cell. destruct (Z.ltb_spec i 0); [lia|].
  destruct (lookup_lt_is_Some_2 (cells b) (Z.to_nat i)) as [c Hc]; [lia|eauto].
Qed.

Lemma lookup_put_eq (b : Board) (i : Z) (c c' : Cell) :
  lookup_cell b i = Some c -> lookup_cell (put_cell b i c') i = Some c'.
Proof.
  intros H. apply lookup_cell_some in H. destruct H as [Hr _].
  unfold lookup_cell, put_cell. simpl.
  destruct (Z.ltb_spec i 0); [lia|].
  apply list_lookup_insert_eq. lia.
Qed.

Lemma lookup_put_ne (b : Board) (i j : Z) (c' : Cell) :
  0 <= i -> i <> j -> lookup_cell (put_cell b i c') j = lookup_cell b j.
Proof.
  intros Hi Hne. unfold lookup_cell, put_cell. simpl.
  destruct (Z.ltb_spec j 0); [reflexivity|].
  apply list_lookup_insert_ne. lia.
Qed.

Lemma put_cell_length (b : Board) (i : Z) (c : Cell) :
  length (cells (put_cell b i c)) = length (cells b).
Proof. unfold put_cell. simpl. apply length_insert. Qed.

Lemma put_cell_wf (b : Board) (i : Z) (c : Cell) : wf b -> wf (put_cell b i c).
Proof. unfold wf. rewrite put_cell_length. auto. Qed.

(** ** The grid *)

Lemma idx_range (b : Board) (x y : Z) :
  wf b -> inb b x y -> 0 <= idx b x y < Z.of_nat (length (cells b)).
Proof. unfold wf, inb, idx. intros -> [Hx Hy]. nia. Qed.

Lemma idx_inj (b : Board) (x y x' y' : Z) :
  inb b x y -> inb b x' y' -> idx b x y = idx b x' y' -> x = x' /\ y = y'.
Proof.
  unfold inb, idx. intros [Hx Hy] [Hx' Hy'] E.
  assert (y = y') as ->.
  { destruct (Z.lt_trichotomy y y') as [L|[L|L]]; [|exact L|].
    - assert (y * width b + width b <= y' * width b) by nia. lia.
    - assert (y' * width b + width b <= y * width b) by nia. lia. }
  split; [lia|reflexivity].
Qed.

Lemma cell_at_inb (b : Board) (x y : Z) :
  wf b -> inb b x y -> exists c, cell_at b x y = Some c.
Proof.
  intros Hw Hi. apply lookup_cell_in_range. apply idx_range; assumption.
Qed.

(** ** for_each_neighbour visits [neighbours] in order *)

Lemma visit_all_app {S : Type} (f : visitor S) (l1 l2 : list (Z * Z))
  (st : Board * S) :
  visit_all f (l1 ++ l2) st = bind (visit_all f l1 st) (visit_all f l2).
Proof.
  revert st. induction l1 as [|p l1 IH]; intros st; simpl; [reflexivity|].
  destruct (f (fst st) (fst p) (snd p) (snd st)); simpl; auto.
Qed.

Lemma visit_all_size {S : Type} (f : visitor S) (l : list (Z * Z)) :
  keeps_size f ->
  forall st st', visit_all f l st = Ok st' -> same_size (fst st) (fst st').
Proof.
  intros Hf. induction l as [|p l IH]; intros st st'; simpl.
  - intros [= <-]. split; reflexivity.
  - intros H. apply bind_ok in H. destruct H as ([b1 s1] & H1 & H2).
    apply Hf in H1. apply IH in H2. simpl in H2.
    destruct H1, H2. split; congruence.
Qed.

Section Agreement.
Context {S : Type} (f : visitor S) (w h : Z).
Hypothesis Hf : keeps_size f.

Lemma agrees_call (x y : Z) : agrees f w h (call f x y) [(x, y)].
Proof.
  intros st _ _. unfold call. simpl.
  destruct (f (fst st) x y (snd st)); reflexivity.
Qed.

Lemma agrees_guard (c : Board -> bool) (v : bool)
  (k : Board * S -> res (Board * S)) (l : list (Z * Z)) :
  (forall b, width b = w -> height b = h -> c b = v) ->
  agrees f w h k l -> agrees f w h (guard c k) (if v then l else []).
Proof.
  intros Hc Hk st Hw Hh. unfold guard. rewrite (Hc _ Hw Hh).
  destruct v; [apply Hk; assumption|reflexivity].
Qed.

Lemma agrees_seq (k1 k2 : Board * S -> res (Board * S))
  (l1 l2 : list (Z * Z)) :
  agrees f w h k1 l1 -> agrees f w h k2 l2 ->
  agrees f w h (k1 >>> k2) (l1 ++ l2).
Proof.
  intros H1 H2 st Hw Hh. unfold and_then. rewrite visit_all_app, (H1 st Hw Hh).
  destruct (visit_all f l1 st) as [st1|e] eqn:E; simpl; [|reflexivity].
  apply (visit_all_size f l1 Hf) in E. destruct E as [Ew Eh].
  apply H2; congruence.
Qed.
End Agreement.

Lemma for_each_neighbour_visit {S : Type} (f : visitor S) (x y : Z)
  (b : Board) (s : S) :
  keeps_size f ->
  for_each_neighbour x y f (b, s)
  = visit_all f (neighbours (width b) (height b) x y) (b, s).
Proof.
  intros Hf.
  assert (A : agrees f (width b) (height b) (for_each_neighbour x y f)
                (neighbours (width b) (height b) x y)).
  { unfold for_each_neighbour, neighbours.
    rewrite !app_assoc.
    repeat (first
      [ apply agrees_seq; [exact Hf| |]
      | apply (agrees_guard f _ _ (fun _ => _ >? _)); [intros; reflexivity|]
      | apply (agrees_guard f _ _ (fun b0 => _ <? height b0 - 1));
          [intros ? ? ->; reflexivity|]
      | apply (agrees_guard f _ _ (fun b0 => _ <? width b0 - 1));
          [intros ? -> ?; reflexivity|]
      | apply agrees_call ]). }
  apply A; reflexivity.
Qed.

(** ** Neighbour positions *)

Ltac pair_cases :=
  repeat match goal with
         | H : _ \/ _ |- _ => destruct H
         | H : (_, _) = (_, _) |- _ => inversion H; clear H; subst
         | H : False |- _ => destruct H
         | H : In _ [] |- _ => destruct H
         end.

Lemma neighbours_spec (b : Board) (x y x' y' : Z) :
  inb b x y ->
  In (x', y') (neighbours (width b) (height b) x y)
  <-> inb b x' y' /\ near x y x' y'.
Proof.
  unfold inb, near, neighbours. intros [Hx Hy].
  rewrite !Z.gtb_ltb.
  destruct (Z.ltb_spec 0 x), (Z.ltb_spec x (width b - 1)),
    (Z.ltb_spec 0 y), (Z.ltb_spec y (height b - 1)); simpl; split.
  all: try (intros H'; pair_cases; repeat split; try lia;
            intros [=]; lia).
  all: intros ([? ?] & Hne & ? & ?);
    assert (Cx : x' = x - 1 \/ x' = x \/ x' = x + 1) by lia;
    assert (Cy : y' = y - 1 \/ y' = y \/ y' = y + 1) by lia;
    destruct Cx as [-> | [-> | ->] ], Cy as [-> | [-> | ->] ];
    try (exfalso; apply Hne; reflexivity); try lia; auto 10.
Qed.

Lemma grid_adjacent_spec (b : Board) (x y x' y' : Z) :
  In (x', y') (grid_adjacent b x y) <-> inb b x' y' /\ near x y x' y'.
Proof.
  unfold grid_adjacent, on_grid, inb, near, around.
  rewrite filter_In. simpl.
  rewrite !andb_true_iff, !Z.leb_le, !Z.ltb_lt. split.
  - intros [H' ?]. pair_cases; repeat split; try lia; intros [=]; lia.
  - intros ([? ?] & Hne & ? & ?). split; [|lia].
    assert (Cx : x' = x - 1 \/ x' = x \/ x' = x + 1) by lia.
    assert (Cy : y' = y - 1 \/ y' = y \/ y' = y + 1) by lia.
    destruct Cx as [-> | [-> | ->] ], Cy as [-> | [-> | ->] ];
      try (exfalso; apply Hne; reflexivity); auto 10.
Qed.

Lemma neighbours_grid_adjacent (b : Board) (x y : Z) (p : Z * Z) :
  inb b x y ->
  In p (neighbours (width b) (height b) x y) <-> In p (grid_adjacent b x y).
Proof.
  intros H. destruct p as [x' y'].
  rewrite neighbours_spec, grid_adjacent_spec by assumption. reflexivity.
Qed.

Lemma neighbours_inb (b : Board) (x y : Z) :
  inb b x y ->
  Forall (fun p => inb b (fst p) (snd p)) (neighbours (width b) (height b) x y).
Proof.
  intros H. apply List.Forall_forall. intros [x' y'] Hp.
  apply neighbours_spec in Hp; [|assumption]. apply Hp.
Qed.

Lemma near_sym (x y x' y' : Z) : near x y x' y' -> near x' y' x y.
Proof.
  unfold near. intros (Hne & ? & ?). repeat split; try lia.
  intros [= ? ?]. apply Hne. subst. reflexivity.
Qed.

Lemma neighbours_sym (b : Board) (x y x' y' : Z) :
  inb b x y ->
  In (x', y') (neighbours (width b) (height b) x y) ->
  In (x, y) (neighbours (width b) (height b) x' y').
Proof.
  intros H Hp. apply neighbours_spec in Hp; [|assumption].
  destruct Hp as [H' Hn]. apply neighbours_spec; [assumption|].
  split; [assumption|apply near_sym; assumption].
Qed.

Lemma neighbours_nodup (w h x y : Z) : List.NoDup (neighbours w h x y).
Proof.
  unfold neighbours.
  destruct (x >? 0), (x <? w - 1), (y >? 0), (y <? h - 1); simpl.
  all: repeat (constructor; [simpl; intros H'; pair_cases; lia|]).
  all: constructor.
Qed.

(** ** Boards related by a run of reveals *)

Lemma pos_eq_dec (p q : Z * Z) : {p = q} + {p <> q}.
Proof. decide equality; apply Z.eq_dec. Qed.

Lemma unrevealed_insert (l : list Cell) (i : nat) (c c' : Cell) :
  l !! i = Some c -> is_revealed c = false -> is_revealed c' = true ->
  (length (List.filter (fun c => negb (is_revealed c)) (<[i:=c']> l)) + 1
   = length (List.filter (fun c => negb (is_revealed c)) l))%nat.
Proof.
  revert i. induction l as [|a l IH]; intros [|i] H Hc Hc'; simpl in *;
    try discriminate.
  - injection H as ->. rewrite Hc, Hc'. simpl. lia.
  - specialize (IH i H Hc Hc'). destruct (is_revealed a); simpl; lia.
Qed.

Lemma same_fields_refl (b : Board) : same_fields b b.
Proof. repeat split. Qed.

Lemma same_fields_trans (b1 b2 b3 : Board) :
  same_fields b1 b2 -> same_fields b2 b3 -> same_fields b1 b3.
Proof.
  unfold same_fields. intros (?&?&?&?&?&?) (?&?&?&?&?&?).
  repeat split; congruence.
Qed.

Lemma same_fields_cell_of (b b' : Board) (p : Z * Z) :
  same_fields b b' -> cell_of b' p = lookup_cell b' (idx b (fst p) (snd p)).
Proof. intros (Hw & _). unfold cell_of, cell_at, idx. rewrite Hw. reflexivity. Qed.

Lemma same_fields_inbp (b b' : Board) (p : Z * Z) :
  same_fields b b' -> inbp b' p <-> inbp b p.
Proof. intros (Hw & Hh & _). unfold inbp, inb. rewrite Hw, Hh. reflexivity. Qed.

Lemma traced_refl (b : Board) : traced b [] b.
Proof.
  split; [apply same_fields_refl|]. split; [reflexivity|].
  split; [simpl; lia|]. split; [constructor|].
  split; [intros p []|reflexivity].
Qed.

Lemma traced_put (b : Board) (x y : Z) (c : Cell) :
  inb b x y -> cell_at b x y = Some c -> is_revealed c = false ->
  traced b [(x, y)] (put_cell b (y * width b + x) (reveal_cell c)).
Proof.
  intros Hi Hc Hr. fold (idx b x y).
  destruct (lookup_cell_some _ _ _ Hc) as [Hrange Hl].
  split; [repeat split|]. split; [apply put_cell_length|].
  split.
  { unfold unrevealed_count, put_cell. simpl.
    apply (unrevealed_insert _ _ c); auto. }
  split; [repeat constructor; intros []|]. split.
  - intros p [<-|[]]. split; [exact Hi|]. exists c. repeat split; auto.
    unfold cell_of, cell_at. simpl. apply (lookup_put_eq _ _ c). exact Hc.
  - intros [x' y'] Hp Hn. unfold cell_of, cell_at. simpl.
    change (idx (put_cell b (idx b x y) (reveal_cell c)) x' y') with (idx b x' y').
    apply lookup_put_ne; [lia|].
    intros E. apply idx_inj in E; auto. apply Hn. left.
    destruct E; subst; reflexivity.
Qed.

Lemma traced_wf (b b' : Board) (new : list (Z * Z)) :
  traced b new b' -> wf b -> wf b'.
Proof.
  intros ((Hw & Hh & _) & Hl & _). unfold wf. rewrite Hl, Hw, Hh. auto.
Qed.

Lemma traced_trans (b b1 b2 : Board) (n1 n2 : list (Z * Z)) :
  traced b n1 b1 -> traced b1 n2 b2 -> traced b (n1 ++ n2) b2.
Proof.
  intros (F1 & L1 & C1 & D1 & I1 & O1) (F2 & L2 & C2 & D2 & I2 & O2).
  assert (Hdisj : forall p, In p n1 -> In p n2 -> False).
  { intros p H1 H2. destruct (I1 p H1) as (_ & c & _ & _ & E1).
    destruct (I2 p H2) as (_ & c2 & E2 & R2 & _).
    rewrite E1 in E2. injection E2 as <-. discriminate R2. }
  split; [eapply same_fields_trans; eauto|].
  split; [congruence|].
  split; [rewrite length_app; lia|].
  split; [apply List.NoDup_app; auto|].
  split.
  - intros p Hp. apply in_app_iff in Hp. destruct Hp as [Hp|Hp].
    + destruct (I1 p Hp) as (Hi & c & E & R & E1). split; [exact Hi|].
      exists c. repeat split; auto. rewrite <- E1. apply O2.
      * apply (same_fields_inbp b b1); assumption.
      * intros H2. exact (Hdisj p Hp H2).
    + destruct (I2 p Hp) as (Hi & c & E & R & E2).
      apply (same_fields_inbp b b1) in Hi; [|assumption].
      split; [exact Hi|]. exists c. repeat split; auto.
      rewrite <- E. symmetry. apply O1; [exact Hi|].
      intros H1. exact (Hdisj p H1 Hp).
  - intros p Hi Hn. rewrite in_app_iff in Hn.
    rewrite O2, O1; auto. apply (same_fields_inbp b b1); assumption.
Qed.

Lemma traced_cases (b b' : Board) (new : list (Z * Z)) (p : Z * Z) :
  traced b new b' -> inbp b p ->
  cell_of b' p = cell_of b p \/
  In p new /\ exists c, cell_of b p = Some c /\ is_revealed c = false /\
                         cell_of b' p = Some (reveal_cell c).
Proof.
  intros (_ & _ & _ & _ & I & O) Hi.
  destruct (in_dec pos_eq_dec p new) as [Hp|Hp].
  - right. split; [exact Hp|]. apply I. exact Hp.
  - left. apply O; assumption.
Qed.

Lemma traced_revealed (b b' : Board) (new : list (Z * Z)) (p : Z * Z) :
  traced b new b' -> inbp b p -> revealed_at b p -> revealed_at b' p.
Proof.
  intros T Hi (c & E & R).
  destruct (traced_cases _ _ _ p T Hi) as [E'|(_ & c' & E1 & _ & E2)].
  - exists c. rewrite E'. auto.
  - exists (reveal_cell c'). auto.
Qed.

Lemma traced_spreads (b b' : Board) (new : list (Z * Z)) (p : Z * Z) :
  traced b new b' -> inbp b p -> spreads b' p <-> spreads b p.
Proof.
  intros T Hi. unfold spreads.
  destruct (traced_cases _ _ _ p T Hi) as [E'|(_ & c' & E1 & _ & E2)].
  - rewrite E'. reflexivity.
  - rewrite E1, E2. split; intros (c & [= <-] & M & N).
    + exists c'. auto.
    + exists (reveal_cell c'). auto.
Qed.

Lemma flood_inbp (b : Board) (p q : Z * Z) :
  inbp b p -> flood b p q -> inbp b q.
Proof.
  intros Hi. induction 1 as [|q r _ IH _ Hr]; [exact Hi|].
  pose proof (neighbours_inb b (fst q) (snd q) IH) as Hall.
  rewrite List.Forall_forall in Hall. apply (Hall r Hr).
Qed.

Lemma flood_trans (b : Board) (p q r : Z * Z) :
  flood b p q -> flood b q r -> flood b p r.
Proof.
  intros Hpq. induction 1 as [|s t _ IH Hs Ht]; [exact Hpq|].
  eapply flood_step; eauto.
Qed.

Lemma traced_flood (b b' : Board) (new : list (Z * Z)) (p q : Z * Z) :
  traced b new b' -> inbp b p -> flood b' p q <-> flood b p q.
Proof.
  intros T Hi. pose proof T as ((Hw & Hh & _) & _).
  split; induction 1 as [|s t Hps IH Hs Ht]; try apply flood_start.
  - apply (flood_step b p s t IH).
    + apply (traced_spreads _ _ _ s T); [|exact Hs].
      apply (flood_inbp b p s Hi IH).
    + rewrite <- Hw, <- Hh. exact Ht.
  - apply (flood_step b' p s t IH).
    + apply (traced_spreads _ _ _ s T); [|exact Hs].
      apply (flood_inbp b p s Hi Hps).
    + rewrite Hw, Hh. exact Ht.
Qed.

(** ** The recursion of reveal *)

Lemma for_each_neighbour_size {S : Type} (f : visitor S) (x y : Z)
  (st st' : Board * S) :
  keeps_size f ->
  for_each_neighbour x y f st = Ok st' -> same_size (fst st) (fst st').
Proof.
  intros Hf. destruct st as [b s]. rewrite for_each_neighbour_visit by exact Hf.
  apply visit_all_size. exact Hf.
Qed.

Lemma same_size_refl (b : Board) : same_size b b.
Proof. split; reflexivity. Qed.

Lemma reveal_traced_size (fuel : nat) : keeps_size (reveal_traced fuel).
Proof.
  induction fuel as [|fuel IH]; intros b x y tr b' tr'; simpl; [discriminate|].
  intros H. apply bind_ok in H. destruct H as (c & _ & H).
  destruct (is_revealed c).
  { injection H as <- <-. apply same_size_refl. }
  simpl in H. destruct (is_mine c).
  { injection H as <- <-. split; reflexivity. }
  destruct (neighbor_mines c >? 0).
  { injection H as <- <-. split; reflexivity. }
  apply (for_each_neighbour_size _ _ _ _ _ IH) in H. exact H.
Qed.

Lemma closed_new_mono (b1 b2 : Board) (n1 n2 : list (Z * Z)) :
  traced b1 n2 b2 -> (forall q, In q n1 -> inbp b1 q) ->
  closed_new b1 n1 -> closed_new b2 n1.
Proof.
  intros T Hin Hc q Hq Hs r Hr.
  pose proof T as ((Hw & Hh & _) & _). rewrite Hw, Hh in Hr.
  pose proof (Hin q Hq) as Hqi.
  apply (traced_revealed b1 b2 n2 r T).
  - pose proof (neighbours_inb b1 (fst q) (snd q) Hqi) as Hall.
    rewrite List.Forall_forall in Hall. apply (Hall r Hr).
  - apply (Hc q Hq); [|exact Hr].
    apply (traced_spreads b1 b2 n2 q T Hqi). exact Hs.
Qed.

Lemma visit_reveal_spec (fuel : nat) :
  (forall b x y tr, wf b -> inb b x y -> (unrevealed_count b < fuel)%nat ->
     exists b' new, reveal_traced fuel b x y tr = Ok (b', tr ++ new) /\
                    reveal_post b (x, y) b' new) ->
  forall l b tr, wf b -> Forall (inbp b) l -> (unrevealed_count b < fuel)%nat ->
    exists b' new, visit_all (reveal_traced fuel) l (b, tr) = Ok (b', tr ++ new) /\
                   visit_post b l b' new.
Proof.
  intros IHf. induction l as [|[x y] l IHl]; intros b tr Hwf Hl Hlt.
  - exists b, []. simpl. rewrite app_nil_r. split; [reflexivity|].
    split; [apply traced_refl|]. split; [intros r []|].
    split; [intros q []|intros q []].
  - apply List.Forall_cons_iff in Hl. destruct Hl as [Hxy Hl].
    destruct (IHf b x y tr Hwf Hxy Hlt) as (b1 & n1 & E1 & T1 & R1 & F1 & C1).
    pose proof T1 as (SF1 & _ & Cnt1 & _ & I1 & _).
    assert (Hl1 : Forall (inbp b1) l).
    { eapply List.Forall_impl; [|exact Hl]. intros p Hp.
      apply (same_fields_inbp b b1); assumption. }
    destruct (IHl b1 (tr ++ n1) (traced_wf _ _ _ T1 Hwf) Hl1 ltac:(lia))
      as (b2 & n2 & E2 & T2 & R2 & F2 & C2).
    exists b2, (n1 ++ n2). simpl. rewrite E1. simpl.
    rewrite E2, app_assoc. split; [reflexivity|].
    split; [eapply traced_trans; eauto|]. split; [|split].
    + intros r [<-|Hr]; [|apply R2; exact Hr].
      apply (traced_revealed b1 b2 n2 _ T2); [|exact R1].
      apply (same_fields_inbp b b1); assumption.
    + intros q Hq. apply in_app_iff in Hq. destruct Hq as [Hq|Hq].
      * exists (x, y). split; [left; reflexivity|apply F1; exact Hq].
      * destruct (F2 q Hq) as (r & Hr & Hf). exists r.
        split; [right; exact Hr|].
        apply (traced_flood b b1 n1 r q T1); [|exact Hf].
        rewrite List.Forall_forall in Hl. apply Hl. exact Hr.
    + intros q Hq. apply in_app_iff in Hq. destruct Hq as [Hq|Hq].
      * apply (closed_new_mono b1 b2 n1 n2 T2); [|exact C1|exact Hq].
        intros q' Hq'. apply (same_fields_inbp b b1); [assumption|].
        apply (I1 q' Hq').
      * apply C2. exact Hq.
Qed.

Lemma reveal_traced_spec (fuel : nat) :
  forall b x y tr, wf b -> inb b x y -> (unrevealed_count b < fuel)%nat ->
    exists b' new, reveal_traced fuel b x y tr = Ok (b', tr ++ new) /\
                   reveal_post b (x, y) b' new.
Proof.
  induction fuel as [|fuel IH]; intros b x y tr Hwf Hxy Hlt; [lia|].
  destruct (cell_at_inb b x y Hwf Hxy) as [c Hc].
  simpl. unfold get_cell. fold (idx b x y). unfold cell_at in Hc. rewrite Hc.
  simpl. destruct (is_revealed c) eqn:Rc.
  { exists b, []. rewrite app_nil_r. split; [reflexivity|].
    split; [apply traced_refl|]. split; [exists c; auto|].
    split; intros q []. }
  pose proof (traced_put b x y c Hxy Hc Rc) as T0. fold (idx b x y) in T0.
  set (b0 := put_cell b (idx b x y) (reveal_cell c)) in *.
  assert (R0 : revealed_at b0 (x, y)).
  { destruct T0 as (_ & _ & _ & _ & I0 & _).
    destruct (I0 (x, y) (or_introl eq_refl)) as (_ & c' & _ & _ & E).
    exists (reveal_cell c'). auto. }
  assert (stop : is_mine c = true \/ neighbor_mines c > 0 ->
                 reveal_post b (x, y) b0 [(x, y)]).
  { intros Hstop. split; [exact T0|]. split; [exact R0|]. split.
    - intros q [<-|[]]. apply flood_start.
    - intros q [<-|[]] (c' & E' & M' & N').
      destruct T0 as (_ & _ & _ & _ & I0 & _).
      destruct (I0 (x, y) (or_introl eq_refl)) as (_ & c0 & E0 & _ & E1).
      unfold cell_of, fst, snd, cell_at in E0. rewrite Hc in E0.
      injection E0 as <-. rewrite E1 in E'. injection E' as <-.
      simpl in M', N'. destruct Hstop; [congruence|lia]. }
  destruct (is_mine c) eqn:Mc.
  { exists b0, [(x, y)]. split; [reflexivity|]. apply stop. auto. }
  destruct (Z.gtb_spec (neighbor_mines c) 0) as [Nc|Nc].
  { exists b0, [(x, y)]. split; [reflexivity|]. apply stop. right. lia. }
  rewrite (for_each_neighbour_visit _ _ _ _ _ (reveal_traced_size fuel)).
  pose proof T0 as (SF0 & _ & Cnt0 & _).
  assert (Hn : Forall (inbp b0) (neighbours (width b0) (height b0) x y)).
  { apply (neighbours_inb b0 x y). apply (same_fields_inbp b b0 (x, y)); assumption. }
  destruct (visit_reveal_spec fuel IH _ b0 (tr ++ [(x, y)])
              (traced_wf _ _ _ T0 Hwf) Hn ltac:(simpl in Cnt0; lia))
    as (b' & n & E & T & R & Fl & C).
  exists b', ((x, y) :: n).
  change (put_cell b (idx b x y) (set_revealed (set_flagged c false) true))
    with b0.
  rewrite E, <- app_assoc. split; [reflexivity|].
  assert (Sp : spreads b (x, y)).
  { exists c. unfold cell_of, cell_at. simpl. repeat split; auto. }
  split; [apply (traced_trans b b0 b' [(x, y)] n); assumption|].
  split; [apply (traced_revealed b0 b' n _ T);
          [apply (same_fields_inbp b b0 (x, y)); assumption|exact R0]|].
  split.
  - intros q [<-|Hq]; [apply flood_start|].
    destruct (Fl q Hq) as (r & Hr & Hf).
    apply (flood_trans b (x, y) r q).
    + apply (flood_step b (x, y) (x, y) r (flood_start b (x, y)) Sp).
      destruct SF0 as (Hw & Hh & _). rewrite <- Hw, <- Hh. exact Hr.
    + apply (traced_flood b b0 [(x, y)] r q T0); [|exact Hf].
      apply (same_fields_inbp b b0 r); [assumption|].
      rewrite List.Forall_forall in Hn. apply Hn. exact Hr.
  - intros q [<-|Hq].
    + intros _ r Hr. apply R.
      pose proof T as ((Hw & Hh & _) & _). rewrite <- Hw, <- Hh. exact Hr.
    + apply C. exact Hq.
Qed.

(** ** Erasing the record of reveal_traced *)

Section Simulation.
Context {S T : Type} (f : visitor S) (g : visitor T).
Hypothesis Hfg : sim_visitor f g.

Lemma sim_call (x y : Z) : sim_step (call f x y) (call g x y).
Proof. intros st st' E. unfold call. rewrite E. apply Hfg. Qed.

Lemma sim_guard (c : Board -> bool)
  (k : Board * S -> res (Board * S)) (k' : Board * T -> res (Board * T)) :
  sim_step k k' -> sim_step (guard c k) (guard c k').
Proof.
  intros Hk st st' E. unfold guard. rewrite E.
  destruct (c (fst st')); [apply Hk; exact E|exact E].
Qed.

Lemma sim_seq (k1 k2 : Board * S -> res (Board * S))
  (k1' k2' : Board * T -> res (Board * T)) :
  sim_step k1 k1' -> sim_step k2 k2' -> sim_step (k1 >>> k2) (k1' >>> k2').
Proof.
  intros H1 H2 st st' E. unfold and_then. specialize (H1 st st' E).
  destruct (k1 st), (k1' st'); simpl in *; try contradiction.
  - apply H2. exact H1.
  - exact H1.
Qed.

Lemma sim_for_each_neighbour (x y : Z) :
  sim_step (for_each_neighbour x y f) (for_each_neighbour x y g).
Proof.
  unfold for_each_neighbour.
  repeat first [apply sim_seq | apply sim_guard | apply sim_call].
Qed.
End Simulation.

Lemma reveal_erase (fuel : nat) :
  sim_visitor (plain (reveal fuel)) (reveal_traced fuel).
Proof.
  induction fuel as [|fuel IH]; intros b x y s tr; unfold plain; simpl;
    [reflexivity|].
  destruct (get_cell b (y * width b + x)) as [c|e]; simpl; [|reflexivity].
  destruct (is_revealed c); simpl; [reflexivity|].
  destruct (is_mine c); simpl; [reflexivity|].
  destruct (neighbor_mines c >? 0); simpl; [reflexivity|].
  pose proof (sim_for_each_neighbour _ _ IH x y
    (put_cell b (y * width b + x) (set_revealed (set_flagged c false) true), tt)
    (put_cell b (y * width b + x) (set_revealed (set_flagged c false) true),
     tr ++ [(x, y)]) eq_refl) as H.
  destruct (for_each_neighbour x y (plain (reveal fuel)) _),
    (for_each_neighbour x y (reveal_traced fuel) _); simpl in *;
    try contradiction; exact H.
Qed.

Lemma reveal_of_traced (fuel : nat) (b b' : Board) (x y : Z)
  (tr tr' : list (Z * Z)) :
  reveal_traced fuel b x y tr = Ok (b', tr') -> reveal fuel b x y = Ok b'.
Proof.
  intros H. pose proof (reveal_erase fuel b x y tt tr) as E.
  unfold plain in E. rewrite H in E.
  destruct (reveal fuel b x y); simpl in E; [|contradiction].
  simpl in E. congruence.
Qed.

(** [reveal] returns whenever its fuel exceeds the number of unrevealed
    cells, and meets [reveal_post]. *)
Lemma reveal_spec (fuel : nat) (b : Board) (x y : Z) :
  wf b -> inb b x y -> (unrevealed_count b < fuel)%nat ->
  exists b' new, reveal fuel b x y = Ok b' /\
                 reveal_traced fuel b x y [] = Ok (b', new) /\
                 reveal_post b (x, y) b' new.
Proof.
  intros Hwf Hxy Hlt.
  destruct (reveal_traced_spec fuel b x y [] Hwf Hxy Hlt) as (b' & new & E & P).
  exists b', new. simpl in E. split; [|split; assumption].
  apply (reveal_of_traced _ _ _ _ _ _ _ E).
Qed.

(** ** Checking the invariants by computation *)

Lemma positions_complete (b : Board) (x y : Z) :
  inb b x y -> In (x, y) (positions b).
Proof.
  intros [Hx Hy]. unfold positions. apply in_flat_map.
  exists (Z.to_nat y). split; [apply in_seq; lia|].
  apply in_map_iff. exists (Z.to_nat x). split; [|apply in_seq; lia].
  f_equal; lia.
Qed.

Lemma counts_okb_sound (b : Board) : counts_okb b = true -> counts_ok b.
Proof.
  unfold counts_okb. rewrite forallb_forall. intros H x y c Hi Hc.
  specialize (H (x, y) (positions_complete b x y Hi)).
  unfold cell_of in H. simpl in H. rewrite Hc in H.
  apply Z.eqb_eq. exact H.
Qed.

Lemma revealedb_sound (b : Board) (p : Z * Z) :
  revealedb b p = true <-> revealed_at b p.
Proof.
  unfold revealedb, revealed_at. destruct (cell_of b p) as [c|].
  - split; [eauto|]. intros (c' & [= <-] & H). exact H.
  - split; [discriminate|]. intros (c' & [=] & _).
Qed.

Lemma closedb_sound (b : Board) : closedb b = true -> closed b.
Proof.
  unfold closedb. rewrite forallb_forall.
  intros H [x y] Hi (c & Hc & Hr) (c' & Hc' & Hm & Hn) r Hin.
  rewrite Hc in Hc'. injection Hc' as <-.
  specialize (H (x, y) (positions_complete b x y Hi)).
  rewrite Hc, Hr, Hm in H. simpl in H.
  destruct (Z.leb_spec (neighbor_mines c) 0); [|lia]. simpl in H.
  rewrite forallb_forall in H. apply revealedb_sound. apply H. exact Hin.
Qed.

(** ** The recursion reaches exactly the spec's region *)

Lemma filter_length_lt {A : Type} (f : A -> bool) (l : list A) (a : A) :
  In a l -> f a = false ->
  (length (List.filter f l) < length l)%nat.
Proof.
  induction l as [|x l IH]; simpl; [intros []|].
  intros [->|Hin] Hf.
  - rewrite Hf. pose proof (List.filter_length_le f l). lia.
  - specialize (IH Hin Hf). destruct (f x); simpl; lia.
Qed.

Lemma filter_nil_none {A : Type} (f : A -> bool) (l : list A) (a : A) :
  length (List.filter f l) = 0%nat -> In a l -> f a = false.
Proof.
  intros H Hin. destruct (f a) eqn:E; [|reflexivity].
  assert (Hf : In a (List.filter f l)) by (apply filter_In; auto).
  destruct (List.filter f l); [destruct Hf|discriminate].
Qed.

Lemma grid_adjacent_length (b : Board) (x y : Z) :
  (length (grid_adjacent b x y) <= 8)%nat.
Proof.
  unfold grid_adjacent.
  pose proof (List.filter_length_le (on_grid b) (around x y)) as H.
  exact H.
Qed.

Lemma adjacent_mines_range (b : Board) (x y : Z) :
  0 <= adjacent_mines b x y <= 8.
Proof.
  unfold adjacent_mines.
  pose proof (List.filter_length_le (mine_at b) (grid_adjacent b x y)).
  pose proof (grid_adjacent_length b x y). lia.
Qed.

Lemma wrap4_small (n : Z) : 0 <= n <= 7 -> wrap4 n = n.
Proof.
  intros H. unfold wrap4. rewrite Z.mod_small by lia. lia.
Qed.

Lemma wrap4_zero (n : Z) : 0 <= n <= 8 -> wrap4 n = 0 -> n = 0.
Proof.
  intros H. destruct (Z.eq_dec n 8) as [->|Hn]; [discriminate|].
  rewrite wrap4_small by lia. auto.
Qed.

Lemma mine_at_cell (b : Board) (p : Z * Z) (c : Cell) :
  cell_of b p = Some c -> mine_at b p = is_mine c.
Proof. unfold mine_at, cell_of. intros ->. reflexivity. Qed.

Section Region.
Variable b : Board.
Hypothesis Hwf : wf b.
Hypothesis Hcounts : counts_ok b.

(** A cell without a mine whose stored count is 0 has no mined
    neighbour. *)
Lemma zero_no_mine_around (q r : Z * Z) (c : Cell) :
  inbp b q -> cell_of b q = Some c -> is_mine c = false ->
  neighbor_mines c = 0 ->
  In r (grid_adjacent b (fst q) (snd q)) -> mine_at b r = false.
Proof.
  intros Hq Hc Hm Hn Hr.
  pose proof (Hcounts (fst q) (snd q) c Hq Hc) as E. rewrite Hn, Hm in E.
  symmetry in E. apply wrap4_zero in E; [|apply adjacent_mines_range].
  unfold adjacent_mines in E.
  apply (filter_nil_none (mine_at b) (grid_adjacent b (fst q) (snd q)) r);
    [lia|exact Hr].
Qed.

(** A cell without a mine next to another one has a count in [0, 7]. *)
Lemma count_next_to_safe (q r : Z * Z) (c : Cell) :
  inbp b r -> cell_of b r = Some c -> is_mine c = false ->
  In q (grid_adjacent b (fst r) (snd r)) -> mine_at b q = false ->
  0 <= neighbor_mines c.
Proof.
  intros Hr Hc Hm Hq Hmq.
  pose proof (Hcounts (fst r) (snd r) c Hr Hc) as E. rewrite Hm in E.
  pose proof (filter_length_lt (mine_at b) _ q Hq Hmq) as Hlt.
  pose proof (grid_adjacent_length b (fst r) (snd r)) as Hle.
  rewrite wrap4_small in E; unfold adjacent_mines in *; lia.
Qed.

Lemma grid_adjacent_inbp (q r : Z * Z) :
  In r (grid_adjacent b (fst q) (snd q)) -> inbp b r.
Proof. destruct r as [x' y']. intros H. apply grid_adjacent_spec in H. apply H. Qed.

Lemma grid_adjacent_sym (q r : Z * Z) :
  inbp b q -> In r (grid_adjacent b (fst q) (snd q)) ->
  In q (grid_adjacent b (fst r) (snd r)).
Proof.
  destruct q as [x y], r as [x' y']. simpl. intros Hq H.
  apply grid_adjacent_spec in H. apply grid_adjacent_spec.
  split; [exact Hq|apply near_sym; apply H].
Qed.

Lemma zero_region_flood (p q : Z * Z) :
  safe_zero b p -> zero_region b p q -> flood b p q /\ safe_zero b q.
Proof.
  intros Hp. induction 1 as [|q r _ [IHf (Hq & c & Hc & Hm & Hn)] Hr (cr & Hcr & Hnr)].
  - split; [apply flood_start|exact Hp].
  - split.
    + apply (flood_step b p q r IHf).
      * exists c. repeat split; auto. lia.
      * apply neighbours_grid_adjacent; assumption.
    + split; [apply (grid_adjacent_inbp q r Hr)|].
      exists cr. repeat split; auto.
      rewrite <- (mine_at_cell b r cr Hcr).
      apply (zero_no_mine_around q r c); assumption.
Qed.

Lemma region_flood (p q : Z * Z) :
  safe_zero b p -> region b p q -> flood b p q.
Proof.
  intros Hp [Hz|(z & Hz & Hq & _)].
  - apply (zero_region_flood p q Hp Hz).
  - destruct (zero_region_flood p z Hp Hz) as [Hf (Hzi & c & Hc & Hm & Hn)].
    apply (flood_step b p z q Hf).
    + exists c. repeat split; auto. lia.
    + apply neighbours_grid_adjacent; assumption.
Qed.

Lemma flood_region (p q : Z * Z) :
  safe_zero b p -> flood b p q ->
  region b p q /\ inbp b q /\
  exists c, cell_of b q = Some c /\ is_mine c = false /\
            0 <= neighbor_mines c /\
            (neighbor_mines c = 0 -> zero_region b p q).
Proof.
  intros Hp. induction 1 as [|q r _ (IHr & Hq & c & Hc & Hm & Hge & Hz) Hs Hr].
  - destruct Hp as (Hpi & c & Hc & Hm & Hn).
    split; [left; apply zero_start|]. split; [exact Hpi|].
    exists c. repeat split; auto; [lia|intros _; apply zero_start].
  - destruct Hs as (c' & Hc' & _ & Hle). rewrite Hc in Hc'. injection Hc' as <-.
    assert (Hn : neighbor_mines c = 0) by lia. specialize (Hz Hn).
    apply neighbours_grid_adjacent in Hr; [|exact Hq].
    pose proof (grid_adjacent_inbp q r Hr) as Hri.
    destruct (cell_at_inb b (fst r) (snd r) Hwf Hri) as [cr Hcr].
    fold (cell_of b r) in Hcr.
    assert (Hmr : is_mine cr = false).
    { rewrite <- (mine_at_cell b r cr Hcr).
      apply (zero_no_mine_around q r c); assumption. }
    assert (Hger : 0 <= neighbor_mines cr).
    { apply (count_next_to_safe q r cr); auto.
      - apply grid_adjacent_sym; assumption.
      - rewrite (mine_at_cell b q c Hc). exact Hm. }
    assert (Hzr : neighbor_mines cr = 0 -> zero_region b p r).
    { intros E. apply (zero_next b p q r Hz Hr). exists cr. auto. }
    split; [|split; [exact Hri|exists cr; repeat split; auto]].
    destruct (Z.eq_dec (neighbor_mines cr) 0) as [E|E].
    + left. apply Hzr. exact E.
    + right. exists q. repeat split; auto. exists cr. split; [exact Hcr|lia].
Qed.
End Region.

(** ** Flood fill: the theorem *)

Lemma nodup_idx (b : Board) (l : list (Z * Z)) :
  (forall p, In p l -> inbp b p) -> List.NoDup l ->
  List.NoDup (map (fun p => idx b (fst p) (snd p)) l).
Proof.
  intros Hin. induction 1 as [|p l Hp _ IH]; simpl; constructor.
  - intros H'. apply in_map_iff in H'. destruct H' as (q & E & Hq).
    apply idx_inj in E.
    + destruct E as [E1 E2]. apply Hp.
      replace p with q; [exact Hq|]. destruct p, q; simpl in *; congruence.
    + apply Hin. right. exact Hq.
    + apply Hin. left. reflexivity.
  - apply IH. intros q Hq. apply Hin. right. exact Hq.
Qed.

Lemma closed_after_reveal (b b' : Board) (new : list (Z * Z)) :
  closed b -> traced b new b' -> closed_new b' new -> closed b'.
Proof.
  intros Hc T Hn q Hq Hr Hs r Hin.
  pose proof T as (SF & _). pose proof SF as (Hw & Hh & _).
  apply (same_fields_inbp b b' q SF) in Hq.
  destruct (in_dec pos_eq_dec q new) as [Hq'|Hq'].
  - apply (Hn q Hq' Hs r Hin).
  - pose proof T as (_ & _ & _ & _ & _ & O).
    pose proof (O q Hq Hq') as E.
    apply (traced_revealed b b' new r).
    + exact T.
    + rewrite Hw, Hh in Hin.
      pose proof (neighbours_inb b (fst q) (snd q) Hq) as Hall.
      rewrite List.Forall_forall in Hall. apply (Hall r Hin).
    + rewrite Hw, Hh in Hin. apply (Hc q Hq); [| |exact Hin].
      * destruct Hr as (c & Ec & Rc). exists c. rewrite <- E. auto.
      * destruct Hs as (c & Ec & Rc). exists c. rewrite <- E. auto.
Qed.

Lemma flood_revealed (b : Board) (p q : Z * Z) :
  closed b -> inbp b p -> revealed_at b p -> flood b p q -> revealed_at b q.
Proof.
  intros Hc Hp Hr. induction 1 as [|q r Hf IH Hs Hin]; [exact Hr|].
  apply (Hc q (flood_inbp b p q Hp Hf) IH Hs r Hin).
Qed.

(** C1: on a board whose stored counts match its mines and on which no
    earlier flood fill was left half-way, [reveal] called on an
    unrevealed cell without a mine whose count is 0 returns for every
    fuel above the number of unrevealed cells.  The cells it writes are
    exactly the unrevealed cells of the connected zero-count region of
    (x, y) and of its positive-count border, each written once; after
    the call a cell is revealed iff it was revealed before or lies in
    that region, and every other cell and field is as before. *)
Theorem reveal_floods_zero_region (b : Board) (x y : Z) (c : Cell) (fuel : nat) :
  wf b -> counts_ok b -> closed b -> inb b x y ->
  cell_at b x y = Some c ->
  is_revealed c = false -> is_mine c = false -> neighbor_mines c = 0 ->
  (unrevealed_count b < fuel)%nat ->
  exists b' new,
    reveal fuel b x y = Ok b' /\
    reveal_traced fuel b x y [] = Ok (b', new) /\
    List.NoDup (map (fun p => idx b (fst p) (snd p)) new) /\
    (forall q, In q new <-> region b (x, y) q /\ ~ revealed_at b q) /\
    (forall q, inbp b q ->
       (revealed_at b' q <-> revealed_at b q \/ region b (x, y) q)) /\
    (forall q, In q new ->
       exists cq, cell_of b q = Some cq /\
                  cell_of b' q = Some (reveal_cell cq)) /\
    (forall q, inbp b q -> ~ In q new -> cell_of b' q = cell_of b q) /\
    same_fields b b' /\ wf b'.
Proof.
  intros Hwf Hcounts Hclosed Hxy Hc Hr Hm Hn Hfuel.
  destruct (reveal_spec fuel b x y Hwf Hxy Hfuel)
    as (b' & new & E1 & E2 & T & R & Fl & Cn).
  exists b', new. split; [exact E1|]. split; [exact E2|].
  pose proof T as (SF & _ & _ & Nd & I & O).
  assert (Hp : safe_zero b (x, y)).
  { split; [exact Hxy|]. exists c. auto. }
  assert (Hcl' : closed b') by (apply (closed_after_reveal b b' new); assumption).
  assert (Hall : forall q, flood b (x, y) q -> revealed_at b' q).
  { intros q Hq. apply (flood_revealed b' (x, y) q Hcl').
    - apply (same_fields_inbp b b' (x, y) SF). exact Hxy.
    - exact R.
    - apply (traced_flood b b' new (x, y) q T); assumption. }
  split; [apply nodup_idx; [intros p Hp'; apply (I p Hp')|exact Nd]|].
  split; [|split; [|split; [|split; [exact O|split; [exact SF|]]]]].
  - intros q. split.
    + intros Hq. split.
      * apply (flood_region b Hwf Hcounts (x, y) q Hp). apply Fl. exact Hq.
      * destruct (I q Hq) as (_ & cq & Eq & Rq & _).
        intros (cq' & Eq' & Rq'). congruence.
    + intros [Hreg Hnr]. destruct (in_dec pos_eq_dec q new) as [Hq|Hq]; [exact Hq|].
      exfalso. apply Hnr.
      pose proof (region_flood b Hcounts (x, y) q Hp Hreg) as Hf.
      pose proof (flood_inbp b (x, y) q Hxy Hf) as Hqi.
      destruct (Hall q Hf) as (cq & Eq & Rq). exists cq.
      rewrite <- (O q Hqi Hq). auto.
  - intros q Hqi. split.
    + intros (cq & Eq & Rq).
      destruct (traced_cases b b' new q T Hqi) as [E|(Hq & _)].
      * left. exists cq. rewrite <- E. auto.
      * right. apply (flood_region b Hwf Hcounts (x, y) q Hp). apply Fl. exact Hq.
    + intros [Hq|Hq].
      * apply (traced_revealed b b' new q T Hqi Hq).
      * apply Hall. apply (region_flood b Hcounts (x, y) q Hp Hq).
  - intros q Hq. destruct (I q Hq) as (_ & cq & Eq & _ & Eq'). eauto.
  - apply (traced_wf b b' new T Hwf).
Qed.

Lemma reveal_floods_zero_region_witness :
  exists b' new,
    reveal 10 corner_mine_board 0 0 = Ok b' /\
    reveal_traced 10 corner_mine_board 0 0 [] = Ok (b', new) /\
    List.NoDup (map (fun p => idx corner_mine_board (fst p) (snd p)) new) /\
    (forall q, In q new <->
       region corner_mine_board (0, 0) q /\ ~ revealed_at corner_mine_board q).
Proof.
  destruct (reveal_floods_zero_region corner_mine_board 0 0 blank 10)
    as (b' & new & H1 & H2 & H3 & H4 & _).
  - reflexivity.
  - apply counts_okb_sound. reflexivity.
  - apply closedb_sound. reflexivity.
  - unfold inb. simpl. lia.
  - reflexivity.
  - reflexivity.
  - reflexivity.
  - reflexivity.
  - unfold unrevealed_count. simpl. lia.
  - exists b', new. auto.
Defined.

(** ** Callbacks that rewrite one cell *)

Lemma count_insert (pr : Cell -> bool) (l : list Cell) (i : nat) (c c' : Cell) :
  l !! i = Some c ->
  (length (List.filter pr (<[i:=c']> l)) + (if pr c then 1 else 0)
   = length (List.filter pr l) + (if pr c' then 1 else 0))%nat.
Proof.
  revert i. induction l as [|a l IH]; intros [|i] H; simpl in *;
    try discriminate.
  - injection H as ->. destruct (pr c), (pr c'); simpl; lia.
  - specialize (IH i H). destruct (pr a); simpl; lia.
Qed.

Lemma count_cells_put (pr : Cell -> bool) (b : Board) (i : Z) (c c' : Cell) :
  lookup_cell b i = Some c ->
  count_cells pr (put_cell b i c') + (if pr c then 1 else 0)
  = count_cells pr b + (if pr c' then 1 else 0).
Proof.
  intros H. apply lookup_cell_some in H. destruct H as [_ H].
  unfold count_cells, put_cell. simpl.
  pose proof (count_insert pr (cells b) (Z.to_nat i) c c' H).
  destruct (pr c), (pr c'); lia.
Qed.

Lemma put_cell_same (b : Board) (i : Z) (c : Cell) :
  lookup_cell b i = Some c -> put_cell b i c = b.
Proof.
  intros H. apply lookup_cell_some in H. destruct H as [_ H].
  unfold put_cell, set_cells. rewrite (list_insert_id _ _ _ H).
  destruct b; reflexivity.
Qed.

Lemma visit_pointwise {S : Type} (g : Cell -> Cell) (f : visitor S) :
  pointwise g f ->
  forall l b s, wf b -> Forall (inbp b) l -> List.NoDup l ->
  exists b',
    visit_all f l (b, s) = Ok (b', s) /\
    same_fields b b' /\ length (cells b') = length (cells b) /\
    (forall p, In p l -> cell_of b' p = option_map g (cell_of b p)) /\
    (forall p, inbp b p -> ~ In p l -> cell_of b' p = cell_of b p) /\
    (forall pr, (forall c, pr (g c) = pr c) ->
                count_cells pr b' = count_cells pr b).
Proof.
  intros Hf. induction l as [|[x y] l IH]; intros b s Hwf Hl Hnd.
  - exists b. simpl. split; [reflexivity|]. split; [apply same_fields_refl|].
    split; [reflexivity|]. split; [intros p []|]. split; reflexivity.
  - apply List.Forall_cons_iff in Hl. destruct Hl as [Hxy Hl].
    apply List.NoDup_cons_iff in Hnd. destruct Hnd as [Hnin Hnd].
    destruct (cell_at_inb b x y Hwf Hxy) as [c Hc]. unfold cell_at in Hc.
    set (b1 := put_cell b (idx b x y) (g c)).
    destruct (IH b1 s (put_cell_wf b _ _ Hwf) Hl Hnd)
      as (b' & E & SF & Len & I & O & Cnt).
    exists b'. simpl. rewrite Hf. unfold get_cell. simpl. rewrite Hc. simpl.
    fold b1. rewrite E. split; [reflexivity|].
    split; [exact SF|]. split; [rewrite Len; apply put_cell_length|].
    assert (Hne : forall p, inbp b p -> p <> (x, y) ->
                            cell_of b1 p = cell_of b p).
    { intros [x' y'] Hp Hn. unfold cell_of, cell_at. simpl.
      change (idx b1 x' y') with (idx b x' y').
      apply lookup_put_ne; [apply (idx_range b x y Hwf Hxy)|].
      intros E'. apply idx_inj in E'; auto. apply Hn.
      destruct E'; subst; reflexivity. }
    split; [|split].
    + intros p [<-|Hp].
      * rewrite (O (x, y) Hxy Hnin). unfold cell_of, cell_at. simpl.
        change (idx b1 x y) with (idx b x y). rewrite Hc. simpl.
        apply (lookup_put_eq b _ c). exact Hc.
      * rewrite (I p Hp). f_equal. apply Hne.
        -- rewrite List.Forall_forall in Hl. apply (Hl p Hp).
        -- intros ->. contradiction.
    + intros p Hp Hn. rewrite (O p Hp); [|intros H'; apply Hn; right; exact H'].
      apply Hne; [exact Hp|]. intros ->. apply Hn. left. reflexivity.
    + intros pr Hpr. rewrite (Cnt pr Hpr).
      pose proof (count_cells_put pr b (idx b x y) c (g c) Hc) as H.
      rewrite Hpr in H. fold b1 in H. destruct (pr c); lia.
Qed.

Lemma pointwise_keeps_size {S : Type} (g : Cell -> Cell) (f : visitor S) :
  pointwise g f -> keeps_size f.
Proof.
  intros Hf b x y s b' s'. rewrite Hf.
  destruct (get_cell b (idx b x y)); simpl; [|discriminate].
  intros [= <- _]. split; reflexivity.
Qed.

Lemma bump_neighbour_pointwise : pointwise bump_cell bump_neighbour.
Proof.
  intros b x y s. unfold bump_neighbour, bump_cell. fold (idx b x y).
  destruct (get_cell b (idx b x y)) as [c|e] eqn:E; simpl; [|reflexivity].
  destruct (is_mine c); simpl; [|reflexivity].
  apply get_cell_ok in E. rewrite (put_cell_same b _ c E). reflexivity.
Qed.

(** ** Placing one mine *)

Lemma rem_quot_inb (b : Board) (pos : Z) :
  0 < width b -> 0 <= pos < width b * height b ->
  inb b (Z.rem pos (width b)) (Z.quot pos (width b)) /\
  idx b (Z.rem pos (width b)) (Z.quot pos (width b)) = pos.
Proof.
  intros Hw H.
  rewrite Z.rem_mod_nonneg, Z.quot_div_nonneg by lia.
  pose proof (Z.mod_pos_bound pos (width b) Hw).
  pose proof (Z.div_mod pos (width b) ltac:(lia)).
  assert (0 <= pos / width b) by (apply Z.div_pos; lia).
  assert (pos / width b < height b) by (apply Z.div_lt_upper_bound; lia).
  unfold inb, idx. split; [lia|]. lia.
Qed.

Lemma around_nodup (x y : Z) : List.NoDup (around x y).
Proof.
  unfold around.
  repeat (constructor; [simpl; intros H'; pair_cases; lia|]). constructor.
Qed.

Lemma grid_adjacent_nodup (b : Board) (x y : Z) :
  List.NoDup (grid_adjacent b x y).
Proof. apply List.NoDup_filter. apply around_nodup. Qed.

Lemma grid_adjacent_same (b b' : Board) (x y : Z) :
  same_fields b b' -> grid_adjacent b' x y = grid_adjacent b x y.
Proof.
  intros (Hw & Hh & _). unfold grid_adjacent. apply List.filter_ext.
  intros p. unfold on_grid. rewrite Hw, Hh. reflexivity.
Qed.

Lemma filter_one_more {A : Type} (f f' : A -> bool) (l : list A) (a : A) :
  List.NoDup l -> f a = false -> f' a = true ->
  (forall r, In r l -> r <> a -> f' r = f r) ->
  (In a l -> length (List.filter f' l) = S (length (List.filter f l))) /\
  (~ In a l -> length (List.filter f' l) = length (List.filter f l)).
Proof.
  intros Hnd Hfa Hfa' Hr. induction Hnd as [|x l Hx Hnd IH]; simpl.
  - split; [intros []|reflexivity].
  - destruct IH as [IH1 IH2].
    { intros r Hin Hne. apply Hr; [right; exact Hin|exact Hne]. }
    split.
    + intros [->|Hin].
      * rewrite Hfa, Hfa'. simpl. rewrite (IH2 Hx). reflexivity.
      * assert (x <> a) by (intros ->; contradiction).
        rewrite (Hr x (or_introl eq_refl) H).
        specialize (IH1 Hin). destruct (f x); simpl; lia.
    + intros Hn. assert (x <> a) by (intros ->; apply Hn; left; reflexivity).
      rewrite (Hr x (or_introl eq_refl) H).
      assert (~ In a l) by (intros H'; apply Hn; right; exact H').
      specialize (IH2 H0). destruct (f x); simpl; lia.
Qed.

Lemma wrap4_succ (n : Z) : wrap4 (wrap4 n + 1) = wrap4 (n + 1).
Proof.
  unfold wrap4.
  replace ((n + 8) mod 16 - 8 + 1 + 8) with ((n + 8) mod 16 + 1) by lia.
  replace (n + 1 + 8) with (n + 8 + 1) by lia.
  rewrite (Z.add_mod (n + 8) 1 16) by lia.
  rewrite (Z.add_mod ((n + 8) mod 16) 1 16) by lia.
  rewrite Z.mod_mod by lia. reflexivity.
Qed.

(** The effect of one accepted draw: the cell at [pos] becomes a mine
    and each of its neighbours without a mine counts one more. *)
Lemma place_one (b : Board) (pos : Z) (c : Cell) :
  wf b -> 0 < width b ->
  0 <= pos < width b * height b ->
  lookup_cell b pos = Some c -> is_mine c = false ->
  exists b',
    for_each_neighbour (Z.rem pos (width b)) (Z.quot pos (width b))
      bump_neighbour (put_cell b pos (arm_cell c), tt) = Ok (b', tt) /\
    same_fields b b' /\ wf b' /\ (counts_ok b -> counts_ok b') /\
    count_mines b' = count_mines b + 1 /\
    (forall i ci, lookup_cell b i = Some ci -> is_mine ci = true ->
       exists ci', lookup_cell b' i = Some ci' /\ is_mine ci' = true) /\
    (forall i ci, i <> pos -> lookup_cell b i = Some ci ->
       exists ci', lookup_cell b' i = Some ci' /\ is_mine ci' = is_mine ci) /\
    same_marks b b'.
Proof.
  intros Hwf Hw0 Hpos Hc Hm.
  destruct (rem_quot_inb b pos Hw0 Hpos) as [Hin Hidx].
  set (cx := Z.rem pos (width b)) in *. set (cy := Z.quot pos (width b)) in *.
  set (b1 := put_cell b pos (arm_cell c)).
  assert (Hwf1 : wf b1) by (apply put_cell_wf; exact Hwf).
  rewrite (for_each_neighbour_visit bump_neighbour cx cy b1 tt
             (pointwise_keeps_size _ _ bump_neighbour_pointwise)).
  change (width b1) with (width b). change (height b1) with (height b).
  destruct (visit_pointwise bump_cell bump_neighbour bump_neighbour_pointwise
              (neighbours (width b) (height b) cx cy) b1 tt Hwf1
              (neighbours_inb b cx cy Hin) (neighbours_nodup _ _ _ _))
    as (b' & E & SF & Len & I & O & Cnt).
  exists b'. split; [exact E|].
  assert (SF1 : same_fields b b1) by (repeat split).
  assert (SFb : same_fields b b') by (apply (same_fields_trans b b1 b'); assumption).
  split; [exact SFb|].
  assert (Hwf' : wf b').
  { unfold wf. destruct SFb as (Hw & Hh & _). rewrite Len, Hw, Hh. exact Hwf1. }
  split; [exact Hwf'|].
  (* the cells of b' *)
  assert (Hself : ~ In (cx, cy) (neighbours (width b) (height b) cx cy)).
  { intros H'. apply (neighbours_spec b cx cy cx cy Hin) in H'.
    destruct H' as (_ & Hne & _). apply Hne. reflexivity. }
  assert (Hb1 : forall p, inbp b p -> p <> (cx, cy) -> cell_of b1 p = cell_of b p).
  { intros [x' y'] Hp Hne. unfold cell_of, cell_at. simpl.
    change (idx b1 x' y') with (idx b x' y').
    apply lookup_put_ne; [lia|]. rewrite <- Hidx. intros E'.
    apply idx_inj in E'; auto. apply Hne. destruct E' as [E1 E2].
    rewrite E1, E2. reflexivity. }
  assert (Hat : cell_of b' (cx, cy) = Some (arm_cell c)).
  { rewrite (O (cx, cy) Hin Hself). unfold cell_of, cell_at. simpl.
    change (idx b1 cx cy) with (idx b cx cy). rewrite Hidx.
    apply (lookup_put_eq b pos c). exact Hc. }
  assert (Hnb : forall p, In p (neighbours (width b) (height b) cx cy) ->
                          cell_of b' p = option_map bump_cell (cell_of b p)).
  { intros p Hp. rewrite (I p Hp). f_equal. apply Hb1.
    - pose proof (neighbours_inb b cx cy Hin) as Hall.
      rewrite List.Forall_forall in Hall. apply (Hall p Hp).
    - intros ->. contradiction. }
  assert (Hoth : forall p, inbp b p -> p <> (cx, cy) ->
                   ~ In p (neighbours (width b) (height b) cx cy) ->
                   cell_of b' p = cell_of b p).
  { intros p Hp Hne Hn. rewrite (O p Hp Hn). apply Hb1; assumption. }
  assert (Hcases : forall p cp, inbp b p -> cell_of b p = Some cp ->
            exists cp', cell_of b' p = Some cp' /\
              is_revealed cp' = is_revealed cp /\ is_flagged cp' = is_flagged cp /\
              is_mine cp' = (if pos_eq_dec p (cx, cy) then true else is_mine cp)).
  { intros p cp Hp Hcp. destruct (pos_eq_dec p (cx, cy)) as [->|Hne].
    - exists (arm_cell c). split; [exact Hat|].
      unfold cell_of, cell_at in Hcp. simpl in Hcp. rewrite Hidx, Hc in Hcp.
      injection Hcp as <-. repeat split.
    - destruct (in_dec pos_eq_dec p (neighbours (width b) (height b) cx cy)) as [Hn|Hn].
      + exists (bump_cell cp). rewrite (Hnb p Hn), Hcp. split; [reflexivity|].
        unfold bump_cell. destruct (is_mine cp) eqn:M; simpl; rewrite ?M; auto.
      + exists cp. rewrite (Hoth p Hp Hne Hn). auto. }
  assert (Hmine : forall p, inbp b p ->
            mine_at b' p = if pos_eq_dec p (cx, cy) then true else mine_at b p).
  { intros p Hp. destruct (cell_at_inb b (fst p) (snd p) Hwf Hp) as [cp Hcp].
    fold (cell_of b p) in Hcp.
    destruct (Hcases p cp Hp Hcp) as (cp' & E' & _ & _ & M').
    rewrite (mine_at_cell b' p cp' E'), (mine_at_cell b p cp Hcp). exact M'. }
  assert (Hadj : forall x y, inb b x y ->
            adjacent_mines b' x y =
            adjacent_mines b x y +
            (if in_dec pos_eq_dec (x, y) (neighbours (width b) (height b) cx cy)
             then 1 else 0)).
  { intros x y Hxy. unfold adjacent_mines.
    rewrite (grid_adjacent_same b b' x y SFb).
    destruct (filter_one_more (mine_at b) (mine_at b') (grid_adjacent b x y) (cx, cy))
      as [H1 H2].
    - apply grid_adjacent_nodup.
    - rewrite (mine_at_cell b (cx, cy) c); [exact Hm|].
      unfold cell_of, cell_at. simpl. rewrite Hidx. exact Hc.
    - rewrite (Hmine (cx, cy) Hin). destruct (pos_eq_dec (cx, cy) (cx, cy)); congruence.
    - intros r Hr Hne. rewrite (Hmine r (grid_adjacent_inbp b (x, y) r Hr)).
      destruct (pos_eq_dec r (cx, cy)); congruence.
    - destruct (in_dec pos_eq_dec (x, y) (neighbours (width b) (height b) cx cy)) as [Hn|Hn].
      + rewrite H1; [lia|]. apply (neighbours_grid_adjacent b x y (cx, cy) Hxy).
        apply (neighbours_sym b cx cy x y Hin Hn).
      + rewrite H2; [lia|]. intros H'. apply Hn.
        apply (neighbours_grid_adjacent b x y (cx, cy) Hxy) in H'.
        apply (neighbours_sym b x y cx cy Hxy H'). }
  split.
  { intros Hcnt x y c' Hxy Hc'.
    assert (Hxy0 : inb b x y) by (apply (same_fields_inbp b b' (x, y) SFb); exact Hxy).
    destruct (cell_at_inb b x y Hwf Hxy0) as [c0 Hc0].
    pose proof (Hcnt x y c0 Hxy0 Hc0) as Hold.
    rewrite (Hadj x y Hxy0).
    destruct (pos_eq_dec (x, y) (cx, cy)) as [E'|Hne].
    - injection E' as Ex Ey. rewrite Ex, Ey in Hc'. change (cell_at b' cx cy) with (cell_of b' (cx, cy)) in Hc'.
      rewrite Hat in Hc'. injection Hc' as <-. reflexivity.
    - destruct (in_dec pos_eq_dec (x, y) (neighbours (width b) (height b) cx cy)) as [Hn|Hn].
      + change (cell_at b' x y) with (cell_of b' (x, y)) in Hc'. rewrite (Hnb (x, y) Hn) in Hc'.
        change (cell_at b x y) with (cell_of b (x, y)) in Hc0. rewrite Hc0 in Hc'. simpl in Hc'.
        injection Hc' as <-. unfold bump_cell.
        destruct (is_mine c0) eqn:M0; simpl; rewrite M0; [exact Hold|].
        rewrite Hold. apply wrap4_succ.
      + change (cell_at b' x y) with (cell_of b' (x, y)) in Hc'. rewrite (Hoth (x, y) Hxy0 Hne Hn) in Hc'.
        change (cell_at b x y) with (cell_of b (x, y)) in Hc0. rewrite Hc0 in Hc'. injection Hc' as <-.
        rewrite Z.add_0_r. exact Hold. }
  split.
  { unfold count_mines. rewrite (Cnt is_mine).
    - pose proof (count_cells_put is_mine b pos c (arm_cell c) Hc) as H.
      rewrite Hm in H. simpl in H. fold b1 in H. lia.
    - intros c0. unfold bump_cell. destruct (is_mine c0) eqn:M; simpl; auto. }
  assert (Hlk : forall i ci, lookup_cell b i = Some ci ->
            exists ci', lookup_cell b' i = Some ci' /\
              is_mine ci' = (if Z.eq_dec i pos then true else is_mine ci)).
  { intros i ci Hi. destruct (lookup_cell_some b i ci Hi) as [Hr _].
    rewrite Hwf in Hr. destruct (rem_quot_inb b i Hw0 Hr) as [Hii Hix].
    set (p := (Z.rem i (width b), Z.quot i (width b))).
    assert (Hcp : cell_of b p = Some ci).
    { unfold cell_of, cell_at, p. simpl. rewrite Hix. exact Hi. }
    destruct (Hcases p ci Hii Hcp) as (ci' & E' & _ & _ & M').
    exists ci'. split.
    - rewrite (same_fields_cell_of b b' p SFb) in E'. unfold p in E'. simpl in E'.
      rewrite Hix in E'. exact E'.
    - rewrite M'. destruct (pos_eq_dec p (cx, cy)) as [E0|N0], (Z.eq_dec i pos) as [E1|N1];
        try reflexivity.
      + exfalso. apply N1. rewrite <- Hix, <- Hidx. unfold p in E0.
        injection E0 as -> ->. reflexivity.
      + exfalso. apply N0. unfold p, cx, cy. rewrite E1. reflexivity. }
  split; [|split].
  - intros i ci Hi Mi. destruct (Hlk i ci Hi) as (ci' & E' & M').
    exists ci'. split; [exact E'|]. rewrite M', Mi. destruct (Z.eq_dec i pos); reflexivity.
  - intros i ci Hne Hi. destruct (Hlk i ci Hi) as (ci' & E' & M').
    exists ci'. split; [exact E'|]. rewrite M'. destruct (Z.eq_dec i pos); [contradiction|reflexivity].
  - intros p cp Hp Hcp. destruct (Hcases p cp Hp Hcp) as (cp' & E' & R' & F' & _).
    exists cp'. auto.
Qed.

(** ** The loop of init_board *)

Lemma same_marks_refl (b : Board) : same_marks b b.
Proof. intros p c _ H. exists c. auto. Qed.

Lemma same_marks_trans (b1 b2 b3 : Board) :
  same_fields b1 b2 -> same_marks b1 b2 -> same_marks b2 b3 -> same_marks b1 b3.
Proof.
  intros SF H12 H23 p c Hp Hc.
  destruct (H12 p c Hp Hc) as (c2 & E2 & R2 & F2).
  apply (same_fields_inbp b1 b2 p SF) in Hp.
  destruct (H23 p c2 Hp E2) as (c3 & E3 & R3 & F3).
  exists c3. repeat split; congruence.
Qed.

Lemma mines_kept_trans (b1 b2 b3 : Board) :
  mines_kept b1 b2 -> mines_kept b2 b3 -> mines_kept b1 b3.
Proof.
  intros H12 H23 i c Hc Hm. destruct (H12 i c Hc Hm) as (c2 & E2 & M2).
  apply (H23 i c2 E2 M2).
Qed.

Lemma placed_post_done (b : Board) (blocked placed : Z) :
  wf b -> safe_spot b blocked -> num_mines b <= placed ->
  placed_post b blocked placed b.
Proof.
  intros Hwf Hs Hle. split; [apply same_fields_refl|]. split; [exact Hwf|].
  split; [auto|]. split; [apply same_marks_refl|]. split; [exact Hs|].
  split; [intros i c Hc Hm; eauto|]. lia.
Qed.

Lemma safe_spot_kept (b b' : Board) (pos i : Z) :
  wf b -> wf b' -> same_fields b b' -> i <> pos ->
  (forall j cj, j <> pos -> lookup_cell b j = Some cj ->
     exists cj', lookup_cell b' j = Some cj' /\ is_mine cj' = is_mine cj) ->
  safe_spot b i -> safe_spot b' i.
Proof.
  intros Hwf Hwf' (Hw & Hh & _) Hne Hoth Hs c' Hc'.
  destruct (lookup_cell_some b' i c' Hc') as [Hr _].
  destruct (lookup_cell_in_range b i) as [c0 H0].
  { unfold wf in *. rewrite Hwf. rewrite Hwf', Hw, Hh in Hr. exact Hr. }
  destruct (Hoth i c0 Hne H0) as (ci' & E & M).
  rewrite E in Hc'. injection Hc' as <-. rewrite M. apply (Hs c0 H0).
Qed.

Section Placement.
Variable dist : Z -> Z -> nat -> Z.
Variables hi blocked : Z.

Lemma init_board_loop_post (fuel : nat) :
  forall k placed b b',
    wf b -> 0 < width b -> safe_spot b blocked ->
    init_board_loop dist fuel hi blocked k placed b = Ok b' ->
    placed_post b blocked placed b'.
Proof.
  induction fuel as [|fuel IH]; intros k placed b b' Hwf Hw0 Hs;
    simpl; [discriminate|].
  destruct (Z.ltb_spec placed (num_mines b)) as [Hlt|Hge];
    [|intros [= <-]; apply placed_post_done; assumption].
  set (pos := dist (seed b) hi k).
  destruct (Z.eqb_spec pos blocked) as [Heq|Hne]; [apply IH; assumption|].
  destruct (get_cell b pos) as [c|e] eqn:Ec; simpl; [|discriminate].
  apply get_cell_ok in Ec.
  destruct (is_mine c) eqn:Mc; [apply IH; assumption|].
  destruct (Z.eqb_spec (width b) 0) as [Hz|_]; [lia|].
  destruct (lookup_cell_some b pos c Ec) as [Hr _]. rewrite Hwf in Hr.
  destruct (place_one b pos c Hwf Hw0 Hr Ec Mc)
    as (b2 & E & SF & Hwf2 & Hcnt & Hmines & Hkept & Hoth & Hmarks).
  fold (arm_cell c).
  change (width (put_cell b pos (arm_cell c))) with (width b).
  rewrite E. simpl. intros Hloop.
  pose proof SF as (Hw & Hh & Hn & Hsd & _).
  apply IH in Hloop; [|assumption|lia
                      |apply (safe_spot_kept b b2 pos blocked); auto].
  destruct Hloop as (SF' & Hwf' & Hcnt' & Hmarks' & Hs' & Hkept' & Hmines').
  split; [apply (same_fields_trans b b2 b'); assumption|].
  split; [exact Hwf'|]. split; [auto|].
  split; [apply (same_marks_trans b b2 b'); assumption|].
  split; [exact Hs'|].
  split; [apply (mines_kept_trans b b2 b'); assumption|].
  rewrite Hmines', Hmines, Hn. lia.
Qed.

Lemma init_board_loop_more_fuel (fuel : nat) :
  forall k placed b b' extra,
    init_board_loop dist fuel hi blocked k placed b = Ok b' ->
    init_board_loop dist (fuel + extra) hi blocked k placed b = Ok b'.
Proof.
  induction fuel as [|fuel IH]; intros k placed b b' extra; simpl;
    [discriminate|].
  destruct (placed <? num_mines b); [|auto].
  destruct (dist (seed b) hi k =? blocked); [apply IH|].
  destruct (get_cell b (dist (seed b) hi k)) as [c|e]; simpl; [|auto].
  destruct (is_mine c); [apply IH|].
  destruct (width _ =? 0); [auto|].
  destruct (for_each_neighbour _ _ _ _); simpl; [apply IH|auto].
Qed.
End Placement.

(** ** Termination of init_board under a fair generator *)

Lemma one_free (pr : Cell -> bool) (l : list Cell) :
  (length (List.filter pr l) + 1 <= length l)%nat ->
  exists i c, l !! i = Some c /\ pr c = false.
Proof.
  induction l as [|a l IH]; simpl; [lia|]. intros H.
  destruct (pr a) eqn:E.
  - simpl in H. destruct IH as (i & c & Hi & Hc); [lia|].
    exists (S i), c. auto.
  - exists 0%nat, a. auto.
Qed.

Lemma free_slot (pr : Cell -> bool) (l : list Cell) (blk : nat) :
  (length (List.filter pr l) + 2 <= length l)%nat ->
  exists i c, i <> blk /\ l !! i = Some c /\ pr c = false.
Proof.
  revert blk. induction l as [|a l IH]; intros blk; simpl; [lia|]. intros H.
  destruct (pr a) eqn:E.
  - simpl in H. destruct (IH (Nat.pred blk)) as (i & c & Hne & Hi & Hc); [lia|].
    exists (S i), c. split; [lia|auto].
  - destruct blk as [|blk].
    + destruct (one_free pr l) as (i & c & Hi & Hc); [lia|].
      exists (S i), c. auto.
    + exists 0%nat, a. auto.
Qed.

Lemma free_cell (b : Board) (blocked : Z) :
  wf b -> count_mines b + 2 <= width b * height b ->
  exists p c, 0 <= p < width b * height b /\ p <> blocked /\
              lookup_cell b p = Some c /\ is_mine c = false.
Proof.
  intros Hwf H. unfold count_mines, count_cells in H. rewrite <- Hwf in H.
  destruct (free_slot is_mine (cells b) (Z.to_nat blocked))
    as (i & c & Hne & Hi & Hc); [lia|].
  exists (Z.of_nat i), c. pose proof (lookup_lt_Some _ _ _ Hi).
  split; [rewrite <- Hwf; lia|]. split; [lia|]. split; [|exact Hc].
  unfold lookup_cell. destruct (Z.ltb_spec (Z.of_nat i) 0); [lia|].
  rewrite Nat2Z.id. exact Hi.
Qed.

Section Termination.
Variable dist : Z -> Z -> nat -> Z.
Variables hi blocked : Z.

Lemma loop_skip_blocked (fuel k : nat) (placed : Z) (b : Board) :
  placed < num_mines b -> dist (seed b) hi k = blocked ->
  init_board_loop dist (S fuel) hi blocked k placed b
  = init_board_loop dist fuel hi blocked (S k) placed b.
Proof.
  intros Hlt He. simpl.
  destruct (Z.ltb_spec placed (num_mines b)); [|lia].
  rewrite He, Z.eqb_refl. reflexivity.
Qed.

Lemma loop_skip_mine (fuel k : nat) (placed : Z) (b : Board) (c : Cell) :
  placed < num_mines b -> dist (seed b) hi k <> blocked ->
  lookup_cell b (dist (seed b) hi k) = Some c -> is_mine c = true ->
  init_board_loop dist (S fuel) hi blocked k placed b
  = init_board_loop dist fuel hi blocked (S k) placed b.
Proof.
  intros Hlt Hne Hc Hm. simpl.
  destruct (Z.ltb_spec placed (num_mines b)); [|lia].
  destruct (Z.eqb_spec (dist (seed b) hi k) blocked); [contradiction|].
  unfold get_cell. rewrite Hc. simpl. rewrite Hm. reflexivity.
Qed.

Lemma loop_place (fuel k : nat) (placed : Z) (b b2 : Board) (c : Cell) :
  placed < num_mines b -> dist (seed b) hi k <> blocked ->
  lookup_cell b (dist (seed b) hi k) = Some c -> is_mine c = false ->
  0 < width b ->
  for_each_neighbour (Z.rem (dist (seed b) hi k) (width b))
    (Z.quot (dist (seed b) hi k) (width b)) bump_neighbour
    (put_cell b (dist (seed b) hi k) (arm_cell c), tt) = Ok (b2, tt) ->
  init_board_loop dist (S fuel) hi blocked k placed b
  = init_board_loop dist fuel hi blocked (S k) (placed + 1) b2.
Proof.
  intros Hlt Hne Hc Hm Hw E. simpl.
  destruct (Z.ltb_spec placed (num_mines b)); [|lia].
  destruct (Z.eqb_spec (dist (seed b) hi k) blocked); [contradiction|].
  unfold get_cell. rewrite Hc. simpl. rewrite Hm.
  destruct (Z.eqb_spec (width b) 0); [lia|].
  fold (arm_cell c).
  change (width (put_cell b (dist (seed b) hi k) (arm_cell c))) with (width b).
  rewrite E. reflexivity.
Qed.

Lemma init_board_loop_terminates (m : nat) :
  forall k placed b,
    Z.to_nat (num_mines b - placed) = m ->
    wf b -> 0 < width b -> hi = width b * height b - 1 ->
    in_range dist (seed b) hi -> fair dist (seed b) hi ->
    safe_spot b blocked ->
    count_mines b + (num_mines b - placed) < width b * height b ->
    exists fuel b', init_board_loop dist fuel hi blocked k placed b = Ok b'.
Proof.
  induction m as [|m IHm]; intros k placed b Hm Hwf Hw0 Hhi Hrng Hfair Hs Hroom.
  - exists 1%nat, b. simpl.
    destruct (Z.ltb_spec placed (num_mines b)); [lia|reflexivity].
  - assert (Hlt : placed < num_mines b) by lia.
    destruct (free_cell b blocked Hwf) as (p & c & Hp & Hpb & Hc & Hcm); [lia|].
    destruct (Hfair k p) as (k' & Hk' & Hd); [lia|].
    assert (Hplace : forall k0 c0,
              dist (seed b) hi k0 <> blocked ->
              lookup_cell b (dist (seed b) hi k0) = Some c0 ->
              is_mine c0 = false ->
              exists fuel b', init_board_loop dist fuel hi blocked k0 placed b = Ok b').
    { intros k0 c0 Hb Hc0 M0.
      destruct (lookup_cell_some b _ c0 Hc0) as [Hr0 _]. rewrite Hwf in Hr0.
      destruct (place_one b _ c0 Hwf Hw0 Hr0 Hc0 M0)
        as (b2 & E & SF & Hwf2 & _ & Hmines & _ & Hoth & _).
      pose proof SF as (Hw & Hh & Hn & Hsd & _).
      destruct (IHm (S k0) (placed + 1) b2) as (fuel & b' & Hl);
        try rewrite Hw; try rewrite Hh; try rewrite Hn; try rewrite Hsd;
        try assumption; try lia.
      { apply (safe_spot_kept b b2 (dist (seed b) hi k0) blocked); auto. }
      exists (S fuel), b'.
      rewrite (loop_place fuel k0 placed b b2 c0); assumption. }
    assert (Hgoal : forall d k0, dist (seed b) hi (k0 + d) = p ->
              exists fuel b', init_board_loop dist fuel hi blocked k0 placed b = Ok b').
    { induction d as [|d IHd]; intros k0 Hk0.
      - rewrite Nat.add_0_r in Hk0. apply (Hplace k0 c); congruence.
      - destruct (Z.eq_dec (dist (seed b) hi k0) blocked) as [Hb|Hb].
        + destruct (IHd (S k0)) as (fuel & b' & Hl).
          { rewrite <- Hk0. f_equal. lia. }
          exists (S fuel), b'. rewrite loop_skip_blocked; assumption.
        + destruct (lookup_cell_in_range b (dist (seed b) hi k0)) as [c0 Hc0].
          { pose proof (Hrng k0). rewrite Hwf. lia. }
          destruct (is_mine c0) eqn:M0; [|apply (Hplace k0 c0); assumption].
          destruct (IHd (S k0)) as (fuel & b' & Hl).
          { rewrite <- Hk0. f_equal. lia. }
          exists (S fuel), b'.
          rewrite (loop_skip_mine fuel k0 placed b c0); assumption. }
    apply (Hgoal (k' - k)%nat k). rewrite <- Hd. f_equal. lia.
Qed.
End Termination.

(** ** The round-robin generator is in range and fair *)

Lemma round_robin_in_range (sd hi : Z) : 0 <= hi -> in_range round_robin sd hi.
Proof.
  intros H k. unfold round_robin.
  pose proof (Z.mod_pos_bound (sd + Z.of_nat k) (hi + 1) ltac:(lia)). lia.
Qed.

Lemma round_robin_fair (sd hi : Z) : 0 <= hi -> fair round_robin sd hi.
Proof.
  intros H k p Hp. unfold round_robin.
  pose proof (Z.mod_pos_bound (p - sd - Z.of_nat k) (hi + 1) ltac:(lia)) as Hb.
  exists (k + Z.to_nat ((p - sd - Z.of_nat k) mod (hi + 1)))%nat.
  split; [lia|].
  rewrite Nat2Z.inj_add, Z2Nat.id by lia.
  rewrite Z.add_assoc, Z.add_mod_idemp_r by lia.
  replace (sd + Z.of_nat k + (p - sd - Z.of_nat k)) with p by lia.
  apply Z.mod_small. lia.
Qed.

(** ** The first reveal *)

Lemma fresh_count_mines (b : Board) : fresh b -> count_mines b = 0.
Proof.
  unfold fresh, count_mines, count_cells. induction 1 as [|c l (M & _) _ IH];
    simpl; [reflexivity|]. rewrite M. exact IH.
Qed.

Lemma fresh_safe_spot (b : Board) (i : Z) : fresh b -> safe_spot b i.
Proof.
  intros Hf c Hc. apply lookup_cell_some in Hc. destruct Hc as [_ Hc].
  unfold fresh in Hf. rewrite List.Forall_forall in Hf.
  apply (Hf c). apply list_elem_of_In. apply (list_elem_of_lookup_2 _ _ _ Hc).
Qed.

Lemma fresh_unrevealed (b : Board) (p : Z * Z) (c : Cell) :
  fresh b -> cell_of b p = Some c -> is_revealed c = false /\ is_flagged c = false.
Proof.
  intros Hf Hc. apply lookup_cell_some in Hc. destruct Hc as [_ Hc].
  unfold fresh in Hf. rewrite List.Forall_forall in Hf.
  apply (Hf c). apply list_elem_of_In. apply (list_elem_of_lookup_2 _ _ _ Hc).
Qed.

Lemma unrevealed_count_le (b : Board) :
  (unrevealed_count b <= length (cells b))%nat.
Proof. apply List.filter_length_le. Qed.

(** C2: on the first turn of a game with fewer mines than cells, with a
    generator that stays in range and keeps producing every position,
    [init_board] returns, and the cell (x, y) passed to it holds no mine
    on the board it returns; exactly [num_mines] mines are placed.  The
    [Reveal] command that triggered the placement then reveals (x, y)
    without ending the game. *)
Theorem first_reveal_is_safe (dist : Z -> Z -> nat -> Z) (b : Board) (x y : Z) :
  fresh b -> wf b -> 0 <= num_mines b < width b * height b ->
  inb b x y -> time b = 1 ->
  in_range dist (seed b) (width b * height b - 1) ->
  fair dist (seed b) (width b * height b - 1) ->
  exists n b1,
    (forall fuel, (n <= fuel)%nat -> init_board dist fuel b x y = Ok b1) /\
    (exists c, cell_at b1 x y = Some c /\ is_mine c = false) /\
    count_mines b1 = num_mines b /\
    (forall fuel, (n <= fuel)%nat ->
       exists b2, do_reveal dist fuel b x y = Ok (b2, []) /\
                  game_over b2 = game_over b /\
                  exists c, cell_at b2 x y = Some c /\
                            is_mine c = false /\ is_revealed c = true).
Proof.
  intros Hfresh Hwf Hmines Hxy Htime Hrng Hfair.
  assert (Hw0 : 0 < width b) by (destruct Hxy; lia).
  pose proof (fresh_count_mines b Hfresh) as Hcm.
  pose proof (fresh_safe_spot b (y * width b + x) Hfresh) as Hsafe.
  destruct (init_board_loop_terminates dist (width b * height b - 1)
              (y * width b + x) (Z.to_nat (num_mines b - 0)) 0%nat 0 b eq_refl
              Hwf Hw0 eq_refl Hrng Hfair Hsafe ltac:(lia))
    as (fuel0 & b1 & Hloop).
  pose proof (init_board_loop_post dist _ _ fuel0 0%nat 0 b b1 Hwf Hw0
                Hsafe Hloop)
    as (SF & Hwf1 & _ & Hmarks & Hsafe1 & _ & Hcount).
  exists (Nat.max fuel0 (S (length (cells b)))), b1.
  assert (Hinit : forall fuel, (fuel0 <= fuel)%nat ->
            init_board dist fuel b x y = Ok b1).
  { intros fuel Hle. unfold init_board.
    replace fuel with (fuel0 + (fuel - fuel0))%nat by lia.
    apply init_board_loop_more_fuel. exact Hloop. }
  assert (Hxy1 : inb b1 x y) by (apply (same_fields_inbp b b1 (x, y) SF); exact Hxy).
  destruct (cell_at_inb b1 x y Hwf1 Hxy1) as [c1 Hc1].
  assert (Hm1 : is_mine c1 = false).
  { apply Hsafe1. unfold cell_at, idx in Hc1.
    destruct SF as (Hw & _). rewrite Hw in Hc1. exact Hc1. }
  split; [intros fuel Hle; apply Hinit; lia|].
  split; [exists c1; auto|]. split; [rewrite Hcount, Hcm; lia|].
  intros fuel Hle. unfold do_reveal. rewrite Htime. simpl.
  rewrite (Hinit fuel) by lia. cbn [bind].
  rewrite (proj2 (get_cell_ok b1 (y * width b1 + x) c1) Hc1). cbn [bind].
  destruct (cell_at_inb b x y Hwf Hxy) as [c0 Hc0].
  destruct (Hmarks (x, y) c0 Hxy Hc0) as (c1' & Hc1' & Hr1 & _).
  change (cell_of b1 (x, y)) with (cell_at b1 x y) in Hc1'.
  rewrite Hc1 in Hc1'. injection Hc1' as <-.
  destruct (fresh_unrevealed b (x, y) c0 Hfresh Hc0) as [Hr0 _].
  rewrite Hr0 in Hr1. rewrite Hr1. cbn [andb negb].
  destruct (reveal_spec fuel b1 x y Hwf1 Hxy1) as (b2 & new & E & _ & T & R & _).
  { pose proof (unrevealed_count_le b1).
    assert (length (cells b1) = length (cells b)).
    { unfold wf in *. destruct SF as (Hw & Hh & _). rewrite Hw, Hh in Hwf1. lia. }
    lia. }
  rewrite E. cbn [bind].
  pose proof T as (SF2 & _).
  destruct (traced_cases b1 b2 new (x, y) T Hxy1) as [Es|(_ & c' & E1 & _ & E2)].
  - destruct R as (c2 & Ec2 & Rc2). rewrite Es in Ec2.
    change (cell_of b1 (x, y)) with (cell_at b1 x y) in Ec2. congruence.
  - change (cell_of b1 (x, y)) with (cell_at b1 x y) in E1.
    rewrite Hc1 in E1. injection E1 as <-.
    change (cell_of b2 (x, y)) with (cell_at b2 x y) in E2.
    rewrite (proj2 (get_cell_ok b2 (y * width b2 + x) (reveal_cell c1)) E2).
    cbn [bind]. replace (is_mine (reveal_cell c1)) with false by (symmetry; exact Hm1).
    exists b2. split; [reflexivity|]. split.
    + destruct SF2 as (_ & _ & _ & _ & G & _). destruct SF as (_ & _ & _ & _ & G' & _).
      congruence.
    + exists (reveal_cell c1). auto.
Qed.

Lemma first_reveal_is_safe_witness :
  exists n b1,
    (forall fuel, (n <= fuel)%nat ->
       init_board round_robin fuel first_turn_board 0 0 = Ok b1) /\
    (exists c, cell_at b1 0 0 = Some c /\ is_mine c = false).
Proof.
  destruct (first_reveal_is_safe round_robin first_turn_board 0 0)
    as (n & b1 & H1 & H2 & _).
  - repeat constructor.
  - reflexivity.
  - simpl. lia.
  - unfold inb. simpl. lia.
  - reflexivity.
  - apply round_robin_in_range. simpl. lia.
  - apply round_robin_fair. simpl. lia.
  - exists n, b1. auto.
Defined.

(** ** More fuel never changes a settled result *)

Section Extension.
Context {S : Type} (f f' : visitor S).
Hypothesis Hff : extends f f'.

Lemma extends_call (x y : Z) : extends_step (call f x y) (call f' x y).
Proof. intros st H. unfold call in *. apply Hff. exact H. Qed.

Lemma extends_guard (c : Board -> bool)
  (k k' : Board * S -> res (Board * S)) :
  extends_step k k' -> extends_step (guard c k) (guard c k').
Proof.
  intros Hk st H. unfold guard in *.
  destruct (c (fst st)); [apply Hk; exact H|reflexivity].
Qed.

Lemma extends_and_then (k1 k2 k1' k2' : Board * S -> res (Board * S)) :
  extends_step k1 k1' -> extends_step k2 k2' ->
  extends_step (k1 >>> k2) (k1' >>> k2').
Proof.
  intros H1 H2 st H. unfold and_then in *.
  destruct (k1 st) as [st1|e] eqn:E; simpl in H.
  - rewrite (H1 st) by (rewrite E; discriminate). rewrite E. simpl.
    apply H2. exact H.
  - rewrite (H1 st) by (rewrite E; exact H). rewrite E. reflexivity.
Qed.

Lemma extends_for_each_neighbour (x y : Z) :
  extends_step (for_each_neighbour x y f) (for_each_neighbour x y f').
Proof.
  unfold for_each_neighbour.
  repeat first [apply extends_and_then | apply extends_guard | apply extends_call].
Qed.
End Extension.

Lemma reveal_more_fuel (fuel extra : nat) (b : Board) (x y : Z) :
  settled (reveal fuel b x y) ->
  reveal (fuel + extra) b x y = reveal fuel b x y.
Proof.
  revert b x y. induction fuel as [|fuel IH]; intros b x y H; simpl in *.
  { exfalso. apply H. reflexivity. }
  destruct (get_cell b (y * width b + x)) as [c|e]; simpl in *; [|reflexivity].
  destruct (is_revealed c); [reflexivity|]. simpl in *.
  destruct (is_mine c); [reflexivity|].
  destruct (neighbor_mines c >? 0); [reflexivity|].
  assert (Hext : extends (plain (reveal fuel)) (plain (reveal (fuel + extra)))).
  { intros b0 x0 y0 s0 H0. unfold plain in *. rewrite IH; [reflexivity|].
    intros E0. apply H0. rewrite E0. reflexivity. }
  rewrite (extends_for_each_neighbour _ _ Hext x y); [reflexivity|].
  intros E0. apply H. rewrite E0. reflexivity.
Qed.

Lemma reveal_ok_more_fuel (fuel extra : nat) (b b' : Board) (x y : Z) :
  reveal fuel b x y = Ok b' -> reveal (fuel + extra) b x y = Ok b'.
Proof.
  intros H. rewrite reveal_more_fuel; [exact H|]. rewrite H. discriminate.
Qed.

(** On a well-formed board [reveal] at a grid position never accesses a
    cell outside the vector: it returns or runs out of fuel. *)
Lemma reveal_in_bounds (fuel : nat) (b : Board) (x y : Z) :
  wf b -> inb b x y ->
  (exists b' new, reveal fuel b x y = Ok b' /\ reveal_post b (x, y) b' new) \/
  reveal fuel b x y = Err OutOfFuel.
Proof.
  intros Hwf Hxy.
  destruct (reveal_spec (fuel + S (unrevealed_count b)) b x y Hwf Hxy ltac:(lia))
    as (b' & new & E & _ & P).
  destruct (reveal fuel b x y) as [b0|e] eqn:E0.
  - left. exists b', new. split; [|exact P].
    rewrite (reveal_ok_more_fuel _ (S (unrevealed_count b)) _ _ _ _ E0) in E.
    exact E.
  - destruct e; try (right; reflexivity).
    all: rewrite reveal_more_fuel in E by (rewrite E0; discriminate);
      rewrite E0 in E; discriminate.
Qed.

(** ** The two passes of a chord *)

Lemma filter_length_perm {A : Type} (f : A -> bool) (l l' : list A) :
  Permutation l l' -> length (List.filter f l) = length (List.filter f l').
Proof.
  induction 1 as [|a l l' _ IH|a a' l|l1 l2 l3 _ IH1 _ IH2]; simpl.
  - reflexivity.
  - destruct (f a); simpl; congruence.
  - destruct (f a), (f a'); reflexivity.
  - congruence.
Qed.

Lemma neighbours_filter_length (b : Board) (x y : Z) (f : Z * Z -> bool) :
  inb b x y ->
  length (List.filter f (neighbours (width b) (height b) x y))
  = length (List.filter f (grid_adjacent b x y)).
Proof.
  intros H. apply filter_length_perm. apply NoDup_Permutation.
  - apply NoDup_ListNoDup. apply neighbours_nodup.
  - apply NoDup_ListNoDup. apply grid_adjacent_nodup.
  - intros p. rewrite !list_elem_of_In. apply neighbours_grid_adjacent. exact H.
Qed.

Lemma count_flag_size : keeps_size count_flag.
Proof.
  intros b x y s b' s'. unfold count_flag.
  destruct (get_cell b (y * width b + x)); simpl; [|discriminate].
  intros [= <- _]. apply same_size_refl.
Qed.

Lemma count_flag_visit (l : list (Z * Z)) (b : Board) (n : Z) :
  wf b -> Forall (inbp b) l ->
  visit_all count_flag l (b, n)
  = Ok (b, n + Z.of_nat (length (List.filter (flag_at b) l))).
Proof.
  intros Hwf. revert n. induction l as [|[x y] l IH]; intros n Hl; simpl.
  - rewrite Z.add_0_r. reflexivity.
  - apply List.Forall_cons_iff in Hl. destruct Hl as [Hxy Hl].
    destruct (cell_at_inb b x y Hwf Hxy) as [c Hc].
    unfold count_flag at 1. fold (idx b x y).
    rewrite (proj2 (get_cell_ok b (idx b x y) c) Hc). simpl.
    rewrite (IH _ Hl). f_equal. f_equal.
    unfold flag_at at 2. unfold cell_of. simpl. rewrite Hc.
    destruct (is_flagged c); simpl; lia.
Qed.

(** The first pass leaves the board alone and counts the flagged
    neighbours. *)
Lemma count_flags_spec (b : Board) (x y : Z) :
  wf b -> inb b x y ->
  for_each_neighbour x y count_flag (b, 0) = Ok (b, flagged_neighbours b x y).
Proof.
  intros Hwf Hxy. rewrite (for_each_neighbour_visit _ _ _ _ _ count_flag_size).
  rewrite (count_flag_visit _ b 0 Hwf (neighbours_inb b x y Hxy)).
  unfold flagged_neighbours. rewrite (neighbours_filter_length b x y _ Hxy).
  reflexivity.
Qed.

Lemma reveal_size (fuel : nat) (b b' : Board) (x y : Z) :
  reveal fuel b x y = Ok b' -> same_size b b'.
Proof.
  intros H. pose proof (reveal_erase fuel b x y tt []) as E.
  unfold plain in E. rewrite H in E. simpl in E.
  destruct (reveal_traced fuel b x y []) as [[b1 tr]|e] eqn:E1; [|contradiction].
  simpl in E. subst b1. apply (reveal_traced_size fuel _ _ _ _ _ _ E1).
Qed.

Lemma reveal_safe_size (fuel : nat) : keeps_size (reveal_safe fuel).
Proof.
  intros b x y s b' s'. unfold reveal_safe.
  destruct (get_cell b (y * width b + x)) as [c|e]; simpl; [|discriminate].
  destruct (is_mine c); simpl.
  - intros [= <- _]. apply same_size_refl.
  - destruct (reveal fuel b x y) as [b1|e] eqn:E; simpl; [|discriminate].
    intros [= <- _]. apply (reveal_size fuel _ _ _ _ E).
Qed.

Lemma traced_mine_at (b b' : Board) (new : list (Z * Z)) (p : Z * Z) :
  traced b new b' -> inbp b p -> mine_at b' p = mine_at b p.
Proof.
  intros T Hp. unfold mine_at. fold (cell_of b' p). fold (cell_of b p).
  destruct (traced_cases b b' new p T Hp) as [E|(_ & c & E1 & _ & E2)].
  - rewrite E. reflexivity.
  - rewrite E1, E2. reflexivity.
Qed.

Lemma visit_reveal_safe (fuel : nat) (l : list (Z * Z)) :
  forall b, wf b -> Forall (inbp b) l -> (unrevealed_count b < fuel)%nat ->
    exists b' new, visit_all (reveal_safe fuel) l (b, tt) = Ok (b', tt) /\
                   chord_post b l b' new.
Proof.
  induction l as [|[x y] l IHl]; intros b Hwf Hl Hlt.
  - exists b, []. split; [reflexivity|]. split; [apply traced_refl|].
    split; [intros r []|]. split; intros q [].
  - apply List.Forall_cons_iff in Hl. destruct Hl as [Hxy Hl].
    destruct (cell_at_inb b x y Hwf Hxy) as [c Hc].
    assert (Hfirst : exists b1 n1,
              reveal_safe fuel b x y tt = Ok (b1, tt) /\ traced b n1 b1 /\
              (is_mine c = false -> revealed_at b1 (x, y)) /\
              (forall q, In q n1 -> is_mine c = false /\ flood b (x, y) q) /\
              closed_new b1 n1).
    { unfold reveal_safe. fold (idx b x y).
      rewrite (proj2 (get_cell_ok b (idx b x y) c) Hc). simpl.
      destruct (is_mine c) eqn:M; simpl.
      - exists b, []. split; [reflexivity|]. split; [apply traced_refl|].
        split; [discriminate|]. split; intros q [].
      - destruct (reveal_spec fuel b x y Hwf Hxy Hlt)
          as (b1 & n1 & E & _ & T & R & Fl & Cn).
        exists b1, n1. rewrite E. simpl. split; [reflexivity|].
        split; [exact T|]. split; [auto|]. split; [auto|exact Cn]. }
    destruct Hfirst as (b1 & n1 & E1 & T1 & R1 & F1 & C1).
    pose proof T1 as (SF1 & _ & Cnt1 & _ & I1 & _).
    assert (Hl1 : Forall (inbp b1) l).
    { eapply List.Forall_impl; [|exact Hl]. intros p Hp.
      apply (same_fields_inbp b b1); assumption. }
    destruct (IHl b1 (traced_wf _ _ _ T1 Hwf) Hl1 ltac:(lia))
      as (b2 & n2 & E2 & T2 & R2 & F2 & C2).
    exists b2, (n1 ++ n2). simpl. rewrite E1. simpl. rewrite E2.
    split; [reflexivity|].
    split; [eapply traced_trans; eauto|]. split; [|split].
    + intros r [<-|Hr] Hm.
      * apply (traced_revealed b1 b2 n2 _ T2).
        -- apply (same_fields_inbp b b1); assumption.
        -- apply R1. rewrite <- (mine_at_cell b (x, y) c Hc). exact Hm.
      * apply R2; [exact Hr|].
        rewrite (traced_mine_at b b1 n1 r T1); [exact Hm|].
        rewrite List.Forall_forall in Hl. apply Hl. exact Hr.
    + intros q Hq. apply in_app_iff in Hq. destruct Hq as [Hq|Hq].
      * destruct (F1 q Hq) as [Hm Hf]. exists (x, y).
        split; [left; reflexivity|]. split; [|exact Hf].
        rewrite (mine_at_cell b (x, y) c Hc). exact Hm.
      * destruct (F2 q Hq) as (r & Hr & Hm & Hf). exists r.
        assert (Hri : inbp b r).
        { rewrite List.Forall_forall in Hl. apply Hl. exact Hr. }
        split; [right; exact Hr|]. split.
        -- rewrite <- (traced_mine_at b b1 n1 r T1 Hri). exact Hm.
        -- apply (traced_flood b b1 n1 r q T1 Hri). exact Hf.
    + intros q Hq. apply in_app_iff in Hq. destruct Hq as [Hq|Hq].
      * apply (closed_new_mono b1 b2 n1 n2 T2); [|exact C1|exact Hq].
        intros q' Hq'. apply (same_fields_inbp b b1); [assumption|].
        apply (I1 q' Hq').
      * apply C2. exact Hq.
Qed.

(** ** case Reveal *)

Lemma do_reveal_dispatch (dist : Z -> Z -> nat -> Z) (fuel : nat)
  (b : Board) (x y : Z) :
  do_reveal dist fuel b x y
  = do b1 <- (if time b =? 1 then init_board dist fuel b x y else Ok b);
    dispatch fuel b1 x y.
Proof. reflexivity. Qed.

Lemma reveal_safe_more_fuel (fuel extra : nat) :
  extends (reveal_safe fuel) (reveal_safe (fuel + extra)).
Proof.
  intros b x y s H. unfold reveal_safe in *.
  destruct (get_cell b (y * width b + x)) as [c|e]; simpl in *; [|reflexivity].
  destruct (is_mine c); simpl in *; [reflexivity|].
  rewrite reveal_more_fuel; [reflexivity|].
  intros E. apply H. rewrite E. reflexivity.
Qed.

(** The second pass of a chord, for any fuel. *)
Lemma chord_pass (fuel : nat) (b : Board) (x y : Z) :
  wf b -> inb b x y ->
  (exists b' new,
     for_each_neighbour x y (reveal_safe fuel) (b, tt) = Ok (b', tt) /\
     chord_post b (neighbours (width b) (height b) x y) b' new) \/
  for_each_neighbour x y (reveal_safe fuel) (b, tt) = Err OutOfFuel.
Proof.
  intros Hwf Hxy.
  set (big := (fuel + S (unrevealed_count b))%nat).
  destruct (visit_reveal_safe big (neighbours (width b) (height b) x y) b Hwf
              (neighbours_inb b x y Hxy) ltac:(unfold big; lia))
    as (b' & new & E & P).
  rewrite <- (for_each_neighbour_visit _ _ _ _ _ (reveal_safe_size big)) in E.
  destruct (for_each_neighbour x y (reveal_safe fuel) (b, tt)) as [st|e] eqn:E0.
  - left. exists b', new. split; [|exact P].
    rewrite <- E. symmetry. rewrite <- E0.
    apply (extends_for_each_neighbour _ _ (reveal_safe_more_fuel fuel _) x y).
    rewrite E0. discriminate.
  - destruct e; try (right; reflexivity).
    all: exfalso;
      pose proof (extends_for_each_neighbour _ _
                    (reveal_safe_more_fuel fuel (S (unrevealed_count b))) x y (b, tt)) as Hx;
      fold big in Hx; rewrite E0, E in Hx;
      specialize (Hx ltac:(discriminate)); discriminate.
Qed.

Lemma chord_pass_enough_fuel (fuel : nat) (b : Board) (x y : Z) :
  wf b -> inb b x y -> (unrevealed_count b < fuel)%nat ->
  exists b' new,
    for_each_neighbour x y (reveal_safe fuel) (b, tt) = Ok (b', tt) /\
    chord_post b (neighbours (width b) (height b) x y) b' new.
Proof.
  intros Hwf Hxy Hlt.
  destruct (visit_reveal_safe fuel (neighbours (width b) (height b) x y) b Hwf
              (neighbours_inb b x y Hxy) Hlt) as (b' & new & E & P).
  exists b', new. split; [|exact P].
  rewrite (for_each_neighbour_visit _ _ _ _ _ (reveal_safe_size fuel)). exact E.
Qed.

Lemma dispatch_rejects (fuel : nat) (b : Board) (x y : Z) (c : Cell) :
  wf b -> inb b x y -> cell_at b x y = Some c ->
  is_revealed c = true -> neighbor_mines c > 0 ->
  flagged_neighbours b x y <> neighbor_mines c ->
  dispatch fuel b x y = Ok (b, [IncorrectFlags]).
Proof.
  intros Hwf Hxy Hc Hr Hn Hf. unfold dispatch.
  rewrite (proj2 (get_cell_ok b (y * width b + x) c) Hc). cbn [bind].
  rewrite Hr. destruct (Z.gtb_spec (neighbor_mines c) 0) as [_|]; [|lia].
  cbn [andb]. rewrite (count_flags_spec b x y Hwf Hxy). cbn [bind fst snd].
  destruct (Z.eqb_spec (flagged_neighbours b x y) (neighbor_mines c));
    [contradiction|reflexivity].
Qed.

Lemma dispatch_chords (fuel : nat) (b : Board) (x y : Z) (c : Cell) :
  wf b -> inb b x y -> cell_at b x y = Some c ->
  is_revealed c = true -> neighbor_mines c > 0 ->
  flagged_neighbours b x y = neighbor_mines c ->
  dispatch fuel b x y
  = do st <- for_each_neighbour x y (reveal_safe fuel) (b, tt); Ok (fst st, []).
Proof.
  intros Hwf Hxy Hc Hr Hn Hf. unfold dispatch.
  rewrite (proj2 (get_cell_ok b (y * width b + x) c) Hc). cbn [bind].
  rewrite Hr. destruct (Z.gtb_spec (neighbor_mines c) 0) as [_|]; [|lia].
  cbn [andb]. rewrite (count_flags_spec b x y Hwf Hxy). cbn [bind fst snd].
  rewrite Hf, Z.eqb_refl. reflexivity.
Qed.

Lemma dispatch_idle (fuel : nat) (b : Board) (x y : Z) (c : Cell) :
  cell_at b x y = Some c -> is_revealed c = true -> neighbor_mines c <= 0 ->
  dispatch fuel b x y = Ok (b, []).
Proof.
  intros Hc Hr Hn. unfold dispatch.
  rewrite (proj2 (get_cell_ok b (y * width b + x) c) Hc). cbn [bind].
  rewrite Hr. destruct (Z.gtb_spec (neighbor_mines c) 0) as [|_]; [lia|].
  reflexivity.
Qed.

Lemma dispatch_reveals (fuel : nat) (b : Board) (x y : Z) (c : Cell) :
  wf b -> inb b x y -> cell_at b x y = Some c -> is_revealed c = false ->
  (exists b' new,
     reveal fuel b x y = Ok b' /\ reveal_post b (x, y) b' new /\
     dispatch fuel b x y
     = Ok (if is_mine c then set_game_over b' true else b', [])) \/
  dispatch fuel b x y = Err OutOfFuel.
Proof.
  intros Hwf Hxy Hc Hr. unfold dispatch.
  rewrite (proj2 (get_cell_ok b (y * width b + x) c) Hc). cbn [bind].
  rewrite Hr. cbn [andb negb].
  destruct (reveal_in_bounds fuel b x y Hwf Hxy) as [(b' & new & E & P)|E];
    rewrite E; cbn [bind]; [|right; reflexivity].
  left. exists b', new. split; [reflexivity|]. split; [exact P|].
  destruct P as (T & _).
  destruct (traced_cases b b' new (x, y) T Hxy) as [Es|(_ & c' & E1 & _ & E2)].
  - change (cell_of b' (x, y)) with (cell_at b' x y) in Es.
    change (cell_of b (x, y)) with (cell_at b x y) in Es. rewrite Hc in Es.
    rewrite (proj2 (get_cell_ok b' (y * width b' + x) c) Es). reflexivity.
  - change (cell_of b (x, y)) with (cell_at b x y) in E1. rewrite Hc in E1.
    injection E1 as <-.
    change (cell_of b' (x, y)) with (cell_at b' x y) in E2.
    rewrite (proj2 (get_cell_ok b' (y * width b' + x) _) E2). reflexivity.
Qed.

(** ** Invariants of the game loop *)

Lemma all_blank_lookup (b : Board) (i : Z) (c : Cell) :
  all_blank b -> lookup_cell b i = Some c -> c = blank.
Proof.
  intros Hb Hc. apply lookup_cell_some in Hc. destruct Hc as [_ Hc].
  unfold all_blank in Hb. rewrite List.Forall_forall in Hb.
  apply (Hb c). apply list_elem_of_In. apply (list_elem_of_lookup_2 _ _ _ Hc).
Qed.

Lemma all_blank_fresh (b : Board) : all_blank b -> fresh b.
Proof.
  unfold all_blank, fresh. intros H. eapply List.Forall_impl; [|exact H].
  intros c ->. repeat split.
Qed.

Lemma no_mine_adjacent (b : Board) (x y : Z) :
  (forall p, mine_at b p = false) -> adjacent_mines b x y = 0.
Proof.
  intros H. unfold adjacent_mines.
  induction (grid_adjacent b x y) as [|p l IH]; simpl; [reflexivity|].
  rewrite H. exact IH.
Qed.

Lemma all_blank_sound (b : Board) :
  wf b -> 0 < width b -> 0 < height b -> all_blank b -> sound b.
Proof.
  intros Hwf Hw Hh Hb. split; [exact Hwf|]. split; [exact Hw|].
  split; [exact Hh|]. split.
  - intros x y c _ Hc. rewrite (all_blank_lookup b _ c Hb Hc). simpl.
    rewrite no_mine_adjacent; [reflexivity|].
    intros p. unfold mine_at. destruct (cell_at b (fst p) (snd p)) as [cp|] eqn:E;
      [|reflexivity].
    rewrite (all_blank_lookup b _ cp Hb E). reflexivity.
  - split.
    + intros q _ (c & Hc & Hr). rewrite (all_blank_lookup b _ c Hb Hc) in Hr.
      discriminate.
    + intros p c _ Hc Hr. rewrite (all_blank_lookup b _ c Hb Hc) in Hr.
      discriminate.
Qed.

Lemma same_static_counts (b b' : Board) :
  wf b -> same_static b b' -> counts_ok b -> counts_ok b'.
Proof.
  intros Hwf (SF & Hst) Hc x y c' Hxy Hc'.
  apply (same_fields_inbp b b' (x, y) SF) in Hxy.
  destruct (cell_at_inb b x y Hwf Hxy) as [c Hc0].
  destruct (Hst (x, y) c Hxy Hc0) as (c'' & E & M & N).
  change (cell_of b' (x, y)) with (cell_at b' x y) in E.
  rewrite Hc' in E. injection E as <-.
  rewrite M, N, (Hc x y c Hxy Hc0).
  replace (adjacent_mines b' x y) with (adjacent_mines b x y); [reflexivity|].
  unfold adjacent_mines. rewrite (grid_adjacent_same b b' x y SF).
  f_equal. f_equal. apply List.filter_ext_in. intros r Hr.
  pose proof (grid_adjacent_inbp b (x, y) r Hr) as Hri.
  destruct (cell_at_inb b (fst r) (snd r) Hwf Hri) as [cr Hcr].
  destruct (Hst r cr Hri Hcr) as (cr' & Er & Mr & _).
  rewrite (mine_at_cell b r cr Hcr), (mine_at_cell b' r cr' Er). auto.
Qed.

Lemma same_but_flags_closed (b b' : Board) :
  wf b -> same_but_flags b b' -> closed b -> closed b'.
Proof.
  intros Hwf (SF & Hst) Hc q Hq (c' & Hc' & Hr') (c2 & Hc2 & Hm2 & Hn2) r Hin.
  pose proof SF as (Hw & Hh & _). rewrite Hw, Hh in Hin.
  apply (same_fields_inbp b b' q SF) in Hq.
  destruct (cell_at_inb b (fst q) (snd q) Hwf Hq) as [c Hc0].
  destruct (Hst q c Hq Hc0) as (c'' & E & M & N & R).
  rewrite Hc' in E. injection E as <-. rewrite Hc' in Hc2. injection Hc2 as <-.
  assert (Hrr : revealed_at b r).
  { apply (Hc q Hq); [exists c; split; [exact Hc0|congruence]| |exact Hin].
    exists c. repeat split; [exact Hc0|congruence|lia]. }
  destruct Hrr as (cr & Ecr & Rcr).
  pose proof (neighbours_inb b (fst q) (snd q) Hq) as Hall.
  rewrite List.Forall_forall in Hall.
  destruct (Hst r cr (Hall r Hin) Ecr) as (cr' & Er' & _ & _ & Rr').
  exists cr'. split; [exact Er'|congruence].
Qed.

Lemma same_but_flags_static (b b' : Board) :
  same_but_flags b b' -> same_static b b'.
Proof.
  intros (SF & H). split; [exact SF|]. intros p c Hp Hc.
  destruct (H p c Hp Hc) as (c' & E & M & N & _). exists c'. auto.
Qed.

Lemma traced_static (b b' : Board) (new : list (Z * Z)) :
  traced b new b' -> same_static b b'.
Proof.
  intros T. pose proof T as (SF & _). split; [exact SF|]. intros p c Hp Hc.
  destruct (traced_cases b b' new p T Hp) as [E|(_ & c0 & E1 & _ & E2)].
  - exists c. rewrite E. auto.
  - rewrite Hc in E1. injection E1 as <-. exists (reveal_cell c). auto.
Qed.

Lemma sound_traced (b b' : Board) (new : list (Z * Z)) :
  sound b -> traced b new b' -> closed_new b' new -> sound b'.
Proof.
  intros (Hwf & Hw & Hh & Hc & Hcl & Ht) T Cn.
  pose proof T as ((Ew & Eh & _) & _).
  split; [apply (traced_wf b b' new T Hwf)|]. split; [lia|]. split; [lia|].
  split; [|split].
  - apply (same_static_counts b b' Hwf (traced_static b b' new T) Hc).
  - apply (closed_after_reveal b b' new Hcl T Cn).
  - intros p c' Hp Hc' Hr'.
    apply (same_fields_inbp b b' p (proj1 T)) in Hp.
    destruct (traced_cases b b' new p T Hp) as [E|(_ & c0 & _ & _ & E2)].
    + rewrite E in Hc'. apply (Ht p c' Hp Hc' Hr').
    + rewrite E2 in Hc'. injection Hc' as <-. reflexivity.
Qed.

Lemma sound_set_game_over (b : Board) (g : bool) : sound b -> sound (set_game_over b g).
Proof. intros H. exact H. Qed.

Lemma sound_tick (b : Board) : sound b -> sound (tick b).
Proof. intros H. exact H. Qed.

Lemma dispatch_sound (fuel : nat) (b : Board) (x y : Z) (r : Board * list Msg) :
  sound b -> inb b x y -> dispatch fuel b x y = Ok r ->
  sound (fst r) /\ time (fst r) = time b.
Proof.
  intros Hs Hxy Hd. pose proof Hs as (Hwf & _).
  destruct (cell_at_inb b x y Hwf Hxy) as [c Hc].
  destruct (is_revealed c) eqn:Rc.
  - destruct (Z.le_gt_cases (neighbor_mines c) 0) as [Hn|Hn].
    { rewrite (dispatch_idle fuel b x y c Hc Rc Hn) in Hd.
      injection Hd as <-. auto. }
    destruct (Z.eq_dec (flagged_neighbours b x y) (neighbor_mines c)) as [Hf|Hf].
    + rewrite (dispatch_chords fuel b x y c Hwf Hxy Hc Rc ltac:(lia) Hf) in Hd.
      destruct (chord_pass fuel b x y Hwf Hxy) as [(b' & new & E & P)|E];
        rewrite E in Hd; [|discriminate].
      simpl in Hd. injection Hd as <-. simpl.
      destruct P as (T & _ & _ & Cn). split; [apply (sound_traced b b' new Hs T Cn)|].
      destruct T as ((_ & _ & _ & _ & _ & Ht) & _). exact Ht.
    + rewrite (dispatch_rejects fuel b x y c Hwf Hxy Hc Rc ltac:(lia) Hf) in Hd.
      injection Hd as <-. auto.
  - destruct (dispatch_reveals fuel b x y c Hwf Hxy Hc Rc)
      as [(b' & new & _ & (T & _ & _ & Cn) & E)|E]; rewrite E in Hd;
      [|discriminate].
    injection Hd as <-. simpl.
    pose proof (sound_traced b b' new Hs T Cn) as Hs'.
    destruct T as ((_ & _ & _ & _ & _ & Ht) & _).
    destruct (is_mine c); auto.
Qed.

Lemma init_board_sound (dist : Z -> Z -> nat -> Z) (fuel : nat)
  (b b1 : Board) (x y : Z) :
  wf b -> 0 < width b -> 0 < height b -> all_blank b ->
  init_board dist fuel b x y = Ok b1 ->
  sound b1 /\ same_fields b b1.
Proof.
  intros Hwf Hw Hh Hb Hi. unfold init_board in Hi.
  pose proof (all_blank_sound b Hwf Hw Hh Hb) as (_ & _ & _ & Hc & _).
  apply init_board_loop_post in Hi;
    [|assumption|assumption|apply fresh_safe_spot; apply all_blank_fresh; exact Hb].
  destruct Hi as (SF & Hwf1 & Hc1 & Hm & _).
  split; [|exact SF]. pose proof SF as (Ew & Eh & _).
  assert (Hnone : forall q c, inbp b1 q -> cell_of b1 q = Some c ->
                              is_revealed c = true -> False).
  { intros q c Hq Ec Rc.
    apply (same_fields_inbp b b1 q SF) in Hq.
    destruct (cell_at_inb b (fst q) (snd q) Hwf Hq) as [c0 Hc0].
    destruct (Hm q c0 Hq Hc0) as (c' & E' & R' & _).
    rewrite Ec in E'. injection E' as <-.
    rewrite (all_blank_lookup b _ c0 Hb Hc0) in R'. simpl in R'. congruence. }
  split; [exact Hwf1|]. split; [lia|]. split; [lia|]. split; [auto|]. split.
  - intros q Hq (c & Ec & Rc). destruct (Hnone q c Hq Ec Rc).
  - intros q c Hq Ec Rc. destruct (Hnone q c Hq Ec Rc).
Qed.

Lemma do_flag_sound (b : Board) (x y : Z) (r : Board * list Msg) :
  sound b -> inb b x y -> do_flag b x y = Ok r ->
  sound (fst r) /\ time (fst r) = time b /\ game_over (fst r) = game_over b.
Proof.
  intros Hs Hxy Hd. pose proof Hs as (Hwf & Hw & Hh & Hc & Hcl & Htd).
  destruct (cell_at_inb b x y Hwf Hxy) as [c Hc0]. unfold do_flag in Hd.
  rewrite (proj2 (get_cell_ok b (y * width b + x) c) Hc0) in Hd. cbn [bind] in Hd.
  destruct (is_revealed c) eqn:Rc; injection Hd as <-; [auto|].
  simpl. split; [|auto]. fold (idx b x y).
  set (b' := put_cell b (idx b x y) (set_flagged c (negb (is_flagged c)))).
  assert (SBF : same_but_flags b b').
  { split; [repeat split|]. intros [x' y'] c' Hp Hc'.
    destruct (pos_eq_dec (x', y') (x, y)) as [E|Hne].
    - injection E as -> ->. unfold cell_of, cell_at in *. simpl in *.
      rewrite Hc0 in Hc'. injection Hc' as <-.
      exists (set_flagged c (negb (is_flagged c))).
      split; [|auto]. change (idx b' x y) with (idx b x y).
      apply (lookup_put_eq b _ c _ Hc0).
    - exists c'. split; [|auto]. unfold cell_of, cell_at in *. simpl in *.
      change (idx b' x' y') with (idx b x' y'). unfold b'.
      rewrite lookup_put_ne; [exact Hc'|apply (idx_range b x y Hwf Hxy)|].
      intros E. apply idx_inj in E; auto. apply Hne.
      destruct E as [-> ->]. reflexivity. }
  split; [apply put_cell_wf; exact Hwf|]. split; [exact Hw|]. split; [exact Hh|].
  split; [|split].
  - apply (same_static_counts b b' Hwf (same_but_flags_static b b' SBF) Hc).
  - apply (same_but_flags_closed b b' Hwf SBF Hcl).
  - intros [x' y'] c' Hp Hc' Hr'.
    destruct (pos_eq_dec (x', y') (x, y)) as [E|Hne].
    + injection E as -> ->. unfold cell_of, cell_at in Hc'. simpl in Hc'.
      change (idx b' x y) with (idx b x y) in Hc'. unfold b' in Hc'.
      rewrite (lookup_put_eq b _ c _ Hc0) in Hc'. injection Hc' as <-.
      simpl in Hr'. congruence.
    + apply (Htd (x', y') c' Hp); [|exact Hr'].
      unfold cell_of, cell_at in *. simpl in *.
      change (idx b' x' y') with (idx b x' y') in Hc'. unfold b' in Hc'.
      rewrite lookup_put_ne in Hc'; [exact Hc'|apply (idx_range b x y Hwf Hxy)|].
      intros E. apply idx_inj in E; auto. apply Hne.
      destruct E as [-> ->]. reflexivity.
Qed.

Lemma replicate_all_blank (n : nat) : Forall (fun c => c = blank) (replicate n blank).
Proof. induction n; simpl; constructor; auto. Qed.

Lemma do_new_sound (b : Board) (x y fresh : Z) (r : Board * list Msg) :
  0 < width b -> 0 < height b -> do_new b x y fresh = Ok r ->
  wf (fst r) /\ 0 < width (fst r) /\ 0 < height (fst r) /\
  all_blank (fst r) /\ time (fst r) = 0 /\ game_over (fst r) = false.
Proof.
  intros Hw Hh. unfold do_new, resize.
  destruct ((x >? 0) && (y >? 0)) eqn:E; simpl.
  - apply andb_true_iff in E. destruct E as [Ex Ey].
    apply Z.gtb_lt in Ex, Ey.
    destruct (Z.ltb_spec (x * y) 0); [nia|]. simpl. intros [= <-]. simpl.
    unfold wf, all_blank. simpl. rewrite length_replicate.
    repeat split; try lia. apply replicate_all_blank.
  - destruct (Z.ltb_spec (width b * height b) 0); [nia|]. simpl.
    intros [= <-]. simpl. unfold wf, all_blank. simpl. rewrite length_replicate.
    repeat split; try lia. apply replicate_all_blank.
Qed.

Lemma check_board_no_win (b : Board) :
  game_over (fst (check_board b)) = false -> check_board b = (b, []).
Proof.
  unfold check_board.
  destruct (_ =? num_mines b); simpl; [discriminate|reflexivity].
Qed.

Lemma loop_head_no_win (b : Board) :
  game_over (fst (loop_head b)) = false ->
  fst (loop_head b) = tick b /\ game_over b = false.
Proof.
  intros H. unfold loop_head in *.
  pose proof (check_board_no_win _ H) as E. rewrite E in H. rewrite E.
  split; [reflexivity|exact H].
Qed.

(** Every board on which a command is dispatched satisfies the game
    invariant. *)
Lemma playing_inv (dist : Z -> Z -> nat -> Z) (b : Board) :
  playing dist b -> game_inv b.
Proof.
  induction 1 as [w h mines sd b Hw Hh Hs Hg
                 |b cmd fresh fuel r Hp IH Hq Hpre Hc Ht Hg].
  - destruct (loop_head_no_win b Hg) as [-> Hgo].
    unfold start, resize in Hs. destruct (Z.ltb_spec (w * h) 0); [nia|].
    simpl in Hs. injection Hs as <-.
    assert (Hb : all_blank (tick (mkBoard w h mines (replicate (Z.to_nat (w * h)) blank) sd false 0))).
    { apply replicate_all_blank. }
    split; [|split; [split; [vm_compute; discriminate|reflexivity]
                    |split; [auto|reflexivity]]].
    apply all_blank_sound; simpl; auto.
    unfold wf. simpl. rewrite length_replicate. lia.
  - destruct (loop_head_no_win (fst r) Hg) as [-> Hgo].
    destruct IH as (Hs & Htime & Hblank & Hgo0).
    assert (Hres : sound (fst r) /\
                   (time (fst r) = time b \/
                    time (fst r) = 0 /\ all_blank (fst r))).
    { unfold do_command in Hc. destruct (verb cmd) eqn:V.
      - rewrite do_reveal_dispatch in Hc. apply bind_ok in Hc.
        destruct Hc as (b1 & Hi & Hd).
        specialize (Hpre (or_introl eq_refl)).
        destruct (Z.eqb_spec (time b) 1) as [T1|T1].
        + destruct Hs as (Hwf & Hw & Hh & _).
          destruct (init_board_sound dist fuel b b1 _ _ Hwf Hw Hh (Hblank T1) Hi)
            as (Hs1 & SF).
          apply (same_fields_inbp b b1 (_, _) SF) in Hpre.
          destruct (dispatch_sound fuel b1 _ _ r Hs1 Hpre Hd) as [Hs2 Ht2].
          split; [exact Hs2|]. left. destruct SF as (_ & _ & _ & _ & _ & E).
          congruence.
        + injection Hi as <-.
          destruct (dispatch_sound fuel b _ _ r Hs Hpre Hd) as [Hs2 Ht2].
          auto.
      - specialize (Hpre (or_intror eq_refl)).
        destruct (do_flag_sound b _ _ r Hs Hpre Hc) as (Hs2 & Ht2 & _). auto.
      - destruct Hs as (_ & Hw & Hh & _).
        destruct (do_new_sound b _ _ fresh r Hw Hh Hc)
          as (Hwf' & Hw' & Hh' & Hb' & Ht' & _).
        split; [apply all_blank_sound; assumption|]. right. auto.
      - contradiction. }
    destruct Hres as (Hs' & Htm).
    split; [exact Hs'|].
    assert (Hrange : 0 <= time (fst r)) by (destruct Htm as [E|[E _]]; lia).
    unfold tick. simpl. rewrite Z.mod_small by lia.
    split; [lia|]. split; [|exact Hgo].
    intros E1. destruct Htm as [E|[_ Hb]]; [lia|exact Hb].
Qed.

(** ** Chord rejection *)

Lemma playing_not_first_turn (dist : Z -> Z -> nat -> Z) (b : Board)
  (x y : Z) (c : Cell) :
  playing dist b -> cell_at b x y = Some c -> is_revealed c = true ->
  time b <> 1.
Proof.
  intros Hp Hc Hr T1. destruct (playing_inv dist b Hp) as (_ & _ & Hb & _).
  rewrite (all_blank_lookup b _ c (Hb T1) Hc) in Hr. discriminate.
Qed.

Lemma do_reveal_later (dist : Z -> Z -> nat -> Z) (fuel : nat) (b : Board)
  (x y : Z) :
  time b <> 1 -> do_reveal dist fuel b x y = dispatch fuel b x y.
Proof.
  intros T. rewrite do_reveal_dispatch.
  destruct (Z.eqb_spec (time b) 1); [contradiction|reflexivity].
Qed.

(** C7: in every state of a game, a [Reveal] on a revealed cell whose
    count is positive and differs from the number of flagged neighbours
    prints "Incorrect number of flags" and returns the board it was
    given: no cell changes and [game_over] is not set. *)
Theorem chord_mismatch_is_rejected (dist : Z -> Z -> nat -> Z) (fuel : nat)
  (b : Board) (x y : Z) (c : Cell) :
  playing dist b -> inb b x y -> cell_at b x y = Some c ->
  is_revealed c = true -> neighbor_mines c > 0 ->
  flagged_neighbours b x y <> neighbor_mines c ->
  do_reveal dist fuel b x y = Ok (b, [IncorrectFlags]) /\ game_over b = false.
Proof.
  intros Hp Hxy Hc Hr Hn Hf.
  destruct (playing_inv dist b Hp) as ((Hwf & _) & _ & _ & Hgo).
  split; [|exact Hgo].
  rewrite (do_reveal_later dist fuel b x y
             (playing_not_first_turn dist b x y c Hp Hc Hr)).
  apply (dispatch_rejects fuel b x y c); assumption.
Qed.

Lemma mid_game_playing : playing round_robin mid_game_board.
Proof.
  assert (P0 : playing round_robin
                 (fst (loop_head (mkBoard 3 1 1 (replicate 3 blank) 1 false 0)))).
  { apply (playing_start round_robin 3 1 1 1); [lia|lia|reflexivity|reflexivity]. }
  pose proof (playing_next round_robin _ (mkCommand Reveal 0 0) 0 10
                (mkBoard 3 1 1
                   [mkCell false true false 1; mkCell true false false 0;
                    mkCell false false false 1] 1 false 1, []) P0) as P1.
  apply P1.
  - discriminate.
  - intros _. vm_compute. repeat split; discriminate.
  - vm_compute. reflexivity.
  - vm_compute. reflexivity.
  - vm_compute. reflexivity.
Qed.

Lemma chord_mismatch_is_rejected_witness :
  do_reveal round_robin 10 mid_game_board 0 0
  = Ok (mid_game_board, [IncorrectFlags]) /\ game_over mid_game_board = false.
Proof.
  apply (chord_mismatch_is_rejected round_robin 10 mid_game_board 0 0
           (mkCell false true false 1)).
  - exact mid_game_playing.
  - unfold inb. simpl. lia.
  - reflexivity.
  - reflexivity.
  - simpl. lia.
  - vm_compute. discriminate.
Defined.

(** ** Access safety *)

Lemma init_board_loop_in_bounds (dist : Z -> Z -> nat -> Z) (hi blocked : Z)
  (fuel : nat) :
  forall k placed b,
    wf b -> 0 < width b -> hi = width b * height b - 1 ->
    in_range dist (seed b) hi ->
    (exists b', init_board_loop dist fuel hi blocked k placed b = Ok b' /\
                wf b' /\ same_fields b b') \/
    init_board_loop dist fuel hi blocked k placed b = Err OutOfFuel.
Proof.
  induction fuel as [|fuel IH]; intros k placed b Hwf Hw0 Hhi Hrng; simpl;
    [right; reflexivity|].
  destruct (placed <? num_mines b);
    [|left; exists b; auto using same_fields_refl].
  destruct (dist (seed b) hi k =? blocked); [apply IH; assumption|].
  destruct (lookup_cell_in_range b (dist (seed b) hi k)) as [c Hc].
  { pose proof (Hrng k). rewrite Hwf. lia. }
  rewrite (proj2 (get_cell_ok b _ c) Hc). cbn [bind].
  destruct (is_mine c) eqn:M; [apply IH; assumption|].
  destruct (Z.eqb_spec (width b) 0); [lia|].
  destruct (lookup_cell_some b _ c Hc) as [Hr _]. rewrite Hwf in Hr.
  destruct (place_one b _ c Hwf Hw0 Hr Hc M) as (b2 & E & SF & Hwf2 & _).
  fold (arm_cell c).
  change (width (put_cell b (dist (seed b) hi k) (arm_cell c))) with (width b).
  rewrite E. cbn [bind fst].
  pose proof SF as (Ew & Eh & _ & Es & _).
  destruct (IH (S k) (placed + 1) b2 Hwf2) as [(b' & E' & Hwf' & SF')|E'];
    try lia; try (rewrite Ew, Eh; exact Hhi); try (rewrite Es; exact Hrng).
  - left. exists b'. split; [exact E'|]. split; [exact Hwf'|].
    apply (same_fields_trans b b2 b'); assumption.
  - right. exact E'.
Qed.

Lemma dispatch_in_bounds (fuel : nat) (b : Board) (x y : Z) :
  wf b -> inb b x y -> in_bounds_run (dispatch fuel b x y).
Proof.
  intros Hwf Hxy. destruct (cell_at_inb b x y Hwf Hxy) as [c Hc].
  destruct (is_revealed c) eqn:Rc.
  - destruct (Z.le_gt_cases (neighbor_mines c) 0) as [Hn|Hn].
    { rewrite (dispatch_idle fuel b x y c Hc Rc Hn). left. eauto. }
    destruct (Z.eq_dec (flagged_neighbours b x y) (neighbor_mines c)) as [Hf|Hf].
    + rewrite (dispatch_chords fuel b x y c Hwf Hxy Hc Rc ltac:(lia) Hf).
      destruct (chord_pass fuel b x y Hwf Hxy) as [(b' & new & E & _)|E];
        rewrite E; [left; simpl; eauto|right; reflexivity].
    + rewrite (dispatch_rejects fuel b x y c Hwf Hxy Hc Rc ltac:(lia) Hf).
      left. eauto.
  - destruct (dispatch_reveals fuel b x y c Hwf Hxy Hc Rc)
      as [(b' & new & _ & _ & E)|E]; rewrite E; [left; eauto|right; reflexivity].
Qed.

Lemma in_bounds_run_not_out_of_range {A : Type} (r : res A) :
  in_bounds_run r -> r <> Err OutOfRange.
Proof. intros [[a ->]| ->]; discriminate. Qed.

(** C9: on a board whose cell vector has width * height entries, a
    [Reveal] (with the placement it may trigger, the chord and every
    recursive call of the flood fill) or a [Flag] at a grid position
    never reads or writes outside the vector: the command returns, or
    the model only ran out of fuel; the fault of an out-of-range access
    cannot occur. *)
Theorem commands_stay_in_bounds (dist : Z -> Z -> nat -> Z) (fuel : nat)
  (b : Board) (x y : Z) :
  wf b -> inb b x y ->
  in_range dist (seed b) (width b * height b - 1) ->
  in_bounds_run (do_reveal dist fuel b x y) /\
  do_reveal dist fuel b x y <> Err OutOfRange /\
  (exists r, do_flag b x y = Ok r) /\
  (forall fuel', (unrevealed_count b < fuel')%nat ->
     exists b', reveal fuel' b x y = Ok b').
Proof.
  intros Hwf Hxy Hrng.
  assert (Hrun : in_bounds_run (do_reveal dist fuel b x y)).
  { rewrite do_reveal_dispatch. destruct (Z.eqb_spec (time b) 1) as [T|T].
    - unfold init_board.
      destruct (init_board_loop_in_bounds dist (width b * height b - 1)
                  (y * width b + x) fuel 0%nat 0 b Hwf ltac:(destruct Hxy; lia)
                  eq_refl Hrng) as [(b1 & E & Hwf1 & SF)|E]; rewrite E; cbn [bind].
      + apply dispatch_in_bounds; [exact Hwf1|].
        apply (same_fields_inbp b b1 (x, y) SF). exact Hxy.
      + right. reflexivity.
    - cbn [bind]. apply dispatch_in_bounds; assumption. }
  split; [exact Hrun|]. split; [apply in_bounds_run_not_out_of_range; exact Hrun|].
  split.
  - destruct (cell_at_inb b x y Hwf Hxy) as [c Hc]. unfold do_flag.
    rewrite (proj2 (get_cell_ok b (y * width b + x) c) Hc). cbn [bind].
    destruct (is_revealed c); eauto.
  - intros fuel' Hlt.
    destruct (reveal_spec fuel' b x y Hwf Hxy Hlt) as (b' & new & E & _).
    eauto.
Qed.

Lemma commands_stay_in_bounds_witness :
  in_bounds_run (do_reveal round_robin 10 mid_game_board 2 0) /\
  do_reveal round_robin 10 mid_game_board 2 0 <> Err OutOfRange.
Proof.
  destruct (commands_stay_in_bounds round_robin 10 mid_game_board 2 0)
    as (H1 & H2 & _).
  - reflexivity.
  - unfold inb. simpl. lia.
  - apply round_robin_in_range. simpl. lia.
  - split; assumption.
Defined.

(** ** The accepted chord *)

Lemma flood_stuck (b : Board) (p q : Z * Z) :
  ~ spreads b p -> flood b p q -> q = p.
Proof.
  intros Hn. induction 1 as [|q r _ IH Hs _]; [reflexivity|].
  subst q. contradiction.
Qed.

(** The flood fill started on a cell without a mine that has a neighbour
    without a mine reaches no mine. *)
Lemma flood_from_safe_avoids_mines (b : Board) (p n q : Z * Z) (cp cn : Cell) :
  wf b -> counts_ok b ->
  inbp b p -> cell_of b p = Some cp -> is_mine cp = false ->
  In n (grid_adjacent b (fst p) (snd p)) ->
  cell_of b n = Some cn -> is_mine cn = false ->
  flood b n q -> mine_at b q = false.
Proof.
  intros Hwf Hc Hp Hcp Hmp Hn Hcn Hmn Hf.
  pose proof (grid_adjacent_inbp b p n Hn) as Hni.
  assert (Hge : 0 <= neighbor_mines cn).
  { apply (count_next_to_safe b Hc p n cn Hni Hcn Hmn).
    - apply (grid_adjacent_sym b p n Hp Hn).
    - rewrite (mine_at_cell b p cp Hcp). exact Hmp. }
  destruct (Z.eq_dec (neighbor_mines cn) 0) as [Hz|Hnz].
  - destruct (flood_region b Hwf Hc n q) as (_ & _ & cq & Hcq & Hmq & _).
    + split; [exact Hni|]. exists cn. auto.
    + exact Hf.
    + rewrite (mine_at_cell b q cq Hcq). exact Hmq.
  - rewrite (flood_stuck b n q); [| |exact Hf].
    + rewrite (mine_at_cell b n cn Hcn). exact Hmn.
    + intros (c' & Hc' & _ & Hle). rewrite Hcn in Hc'. injection Hc' as <-. lia.
Qed.

(** C6, as the engine has it: in every state of a game, a [Reveal] on a
    revealed cell whose positive count equals the number of flagged
    neighbours reveals every neighbour without a mine by the flood-fill
    rule, whether it carried a flag or not, and clears the flag of every
    cell it reveals; the cells revealed afterwards are those revealed
    before and those the flood fill reaches from a neighbour without a
    mine.  Every cell with a mine is left as it was, and no field of the
    board other than the cells changes: [game_over] stays false. *)
Theorem chord_reveals_safe_neighbours (dist : Z -> Z -> nat -> Z) (fuel : nat)
  (b : Board) (x y : Z) (c : Cell) :
  playing dist b -> inb b x y -> cell_at b x y = Some c ->
  is_revealed c = true -> neighbor_mines c > 0 ->
  flagged_neighbours b x y = neighbor_mines c ->
  (unrevealed_count b < fuel)%nat ->
  exists b',
    do_reveal dist fuel b x y = Ok (b', []) /\
    same_fields b b' /\ game_over b' = false /\
    (forall q cq, In q (grid_adjacent b x y) -> cell_of b q = Some cq ->
       is_mine cq = false ->
       exists cq', cell_of b' q = Some cq' /\ is_revealed cq' = true /\
                   (is_revealed cq = false -> is_flagged cq' = false)) /\
    (forall q, inbp b q ->
       (revealed_at b' q <->
        revealed_at b q \/
        exists r, In r (grid_adjacent b x y) /\ mine_at b r = false /\
                  flood b r q)) /\
    (forall q cq, inbp b q -> cell_of b q = Some cq -> is_mine cq = true ->
       cell_of b' q = Some cq) /\
    (forall q cq, inbp b q -> cell_of b q = Some cq ->
       cell_of b' q = Some cq \/
       is_revealed cq = false /\ cell_of b' q = Some (reveal_cell cq)).
Proof.
  intros Hp Hxy Hc Hr Hn Hf Hfuel.
  destruct (playing_inv dist b Hp)
    as ((Hwf & _ & _ & Hcnt & Hcl & _) & _ & _ & Hgo).
  rewrite (do_reveal_later dist fuel b x y
             (playing_not_first_turn dist b x y c Hp Hc Hr)).
  rewrite (dispatch_chords fuel b x y c Hwf Hxy Hc Hr Hn Hf).
  destruct (chord_pass_enough_fuel fuel b x y Hwf Hxy Hfuel)
    as (b' & new & E & T & R & Fl & Cn).
  rewrite E. cbn [bind fst]. exists b'. split; [reflexivity|].
  pose proof T as (SF & _ & _ & _ & I & O).
  split; [exact SF|].
  split; [destruct SF as (_ & _ & _ & _ & G & _); congruence|].
  assert (Hmc : is_mine c = false).
  { pose proof (Hcnt x y c Hxy Hc) as Hk. destruct (is_mine c); [lia|reflexivity]. }
  assert (Hnew : forall q, In q new -> mine_at b q = false).
  { intros q Hq. destruct (Fl q Hq) as (r & Hr' & Hmr & Hfl).
    apply (neighbours_grid_adjacent b x y r Hxy) in Hr'.
    pose proof (grid_adjacent_inbp b (x, y) r Hr') as Hri.
    destruct (cell_at_inb b (fst r) (snd r) Hwf Hri) as [cr Hcr].
    apply (flood_from_safe_avoids_mines b (x, y) r q c cr); auto.
    rewrite <- (mine_at_cell b r cr Hcr). exact Hmr. }
  assert (Hcl' : closed b') by (apply (closed_after_reveal b b' new); assumption).
  split; [|split; [|split]].
  - intros q cq Hq Hcq Hmq.
    pose proof (grid_adjacent_inbp b (x, y) q Hq) as Hqi.
    apply (neighbours_grid_adjacent b x y q Hxy) in Hq.
    assert (Hrq : revealed_at b' q).
    { apply (R q Hq). rewrite (mine_at_cell b q cq Hcq). exact Hmq. }
    destruct Hrq as (cq' & Ecq' & Rcq'). exists cq'.
    split; [exact Ecq'|]. split; [exact Rcq'|]. intros Hu.
    destruct (traced_cases b b' new q T Hqi) as [Es|(_ & c0 & E1 & _ & E2)].
    + rewrite Es, Hcq in Ecq'. injection Ecq' as <-. congruence.
    + rewrite E2 in Ecq'. injection Ecq' as <-. reflexivity.
  - intros q Hqi. split.
    + intros (cq & Ecq & Rcq).
      destruct (traced_cases b b' new q T Hqi) as [Es|(Hq & _)].
      * left. exists cq. rewrite <- Es. auto.
      * right. destruct (Fl q Hq) as (r & Hr' & Hmr & Hfl). exists r.
        split; [|auto]. apply (neighbours_grid_adjacent b x y r Hxy). exact Hr'.
    + intros [Hq|(r & Hr' & Hmr & Hfl)].
      * apply (traced_revealed b b' new q T Hqi Hq).
      * pose proof (grid_adjacent_inbp b (x, y) r Hr') as Hri.
        apply (neighbours_grid_adjacent b x y r Hxy) in Hr'.
        apply (flood_revealed b' r q Hcl').
        -- apply (same_fields_inbp b b' r SF). exact Hri.
        -- apply (R r Hr' Hmr).
        -- apply (traced_flood b b' new r q T Hri). exact Hfl.
  - intros q cq Hqi Hcq Hmq.
    destruct (traced_cases b b' new q T Hqi) as [Es|(Hq & _)].
    + rewrite Es. exact Hcq.
    + pose proof (Hnew q Hq) as Hm'. rewrite (mine_at_cell b q cq Hcq) in Hm'.
      congruence.
  - intros q cq Hqi Hcq.
    destruct (traced_cases b b' new q T Hqi) as [Es|(_ & c0 & E1 & R1 & E2)].
    + left. rewrite Es. exact Hcq.
    + right. rewrite Hcq in E1. injection E1 as <-. auto.
Qed.

Lemma wrong_flag_playing : playing round_robin wrong_flag_board.
Proof.
  assert (P0 : playing round_robin
                 (fst (loop_head (mkBoard 4 1 1 (replicate 4 blank) 0 false 0)))).
  { apply (playing_start round_robin 4 1 1 0); [lia|lia|reflexivity|reflexivity]. }
  set (r1 := (mkBoard 4 1 1
                [mkCell true false false 0; mkCell false true false 1;
                 mkCell false false false 0; mkCell false false false 0]
                0 false 1, @nil Msg)).
  assert (P1 : playing round_robin (fst (loop_head (fst r1)))).
  { apply (playing_next round_robin _ (mkCommand Reveal 1 0) 0 10 r1 P0).
    - discriminate.
    - intros _. vm_compute. repeat split; discriminate.
    - vm_compute. reflexivity.
    - vm_compute. reflexivity.
    - vm_compute. reflexivity. }
  set (r2 := (mkBoard 4 1 1
                [mkCell true false false 0; mkCell false true false 1;
                 mkCell false false true 0; mkCell false false false 0]
                0 false 2, @nil Msg)).
  change (playing round_robin (fst (loop_head (fst r2)))).
  apply (playing_next round_robin _ (mkCommand Flag 2 0) 0 10 r2 P1).
  - discriminate.
  - intros _. vm_compute. repeat split; discriminate.
  - vm_compute. reflexivity.
  - vm_compute. reflexivity.
  - vm_compute. reflexivity.
Qed.

Lemma chord_reveals_safe_neighbours_witness :
  exists b',
    do_reveal round_robin 10 wrong_flag_board 1 0 = Ok (b', []) /\
    same_fields wrong_flag_board b' /\ game_over b' = false.
Proof.
  destruct (chord_reveals_safe_neighbours round_robin 10 wrong_flag_board 1 0
              (mkCell false true false 1)) as (b' & H1 & H2 & H3 & _).
  - exact wrong_flag_playing.
  - unfold inb. simpl. lia.
  - reflexivity.
  - reflexivity.
  - simpl. lia.
  - reflexivity.
  - unfold unrevealed_count. simpl. lia.
  - exists b'. auto.
Defined.

(** C6 as the spec words it fails: the chord on the second cell of
    [wrong_flag_board] reveals the flagged third cell and removes its
    flag. *)
Lemma chord_reveals_flagged_neighbour :
  ~ chord_spares_flagged_and_mined round_robin.
Proof.
  intros H.
  specialize (H 10%nat wrong_flag_board 1 0 (mkCell false true false 1)
                (mkBoard 4 1 1
                   [mkCell true false false 0; mkCell false true false 1;
                    mkCell false true false 0; mkCell false true false 0]
                   0 false 3) []
                wrong_flag_playing).
  specialize (H ltac:(unfold inb; simpl; lia) eq_refl eq_refl
                ltac:(simpl; lia) eq_refl eq_refl
                (2, 0) (mkCell false false true 0)).
  specialize (H ltac:(vm_compute; auto) eq_refl (or_introl eq_refl)).
  vm_compute in H. discriminate H.
Qed.

(** ** What the invariant gives in every state of a game *)

Lemma playing_sound (dist : Z -> Z -> nat -> Z) (b : Board) :
  playing dist b -> wf b /\ counts_ok b /\ closed b.
Proof.
  intros H. destruct (playing_inv dist b H) as ((Hwf & _ & _ & Hc & Hcl & _) & _).
  auto.
Qed.

(** While a game is in progress no revealed cell carries a flag. *)
Lemma playing_tidy (dist : Z -> Z -> nat -> Z) (b : Board) :
  playing dist b -> tidy b.
Proof.
  intros H. destruct (playing_inv dist b H) as ((_ & _ & _ & _ & _ & Ht) & _).
  exact Ht.
Qed.

(** ** A count of eight *)

Lemma two_free (pr : Cell -> bool) (l : list Cell) :
  forall i j c c',
    i <> j -> l !! i = Some c -> pr c = false ->
    l !! j = Some c' -> pr c' = false ->
    (length (List.filter pr l) + 2 <= length l)%nat.
Proof.
  induction l as [|a l IH]; intros i j c c' Hne Hi Hc Hj Hc'; [discriminate|].
  assert (Hone : forall k ck, l !! k = Some ck -> pr ck = false ->
                   (length (List.filter pr l) + 1 <= length l)%nat).
  { intros k ck Hk Hck.
    pose proof (filter_length_lt pr l ck) as Hlt.
    assert (In ck l).
    { apply list_elem_of_In. apply (list_elem_of_lookup_2 _ _ _ Hk). }
    specialize (Hlt H Hck). lia. }
  destruct i as [|i], j as [|j]; simpl in *; try congruence.
  - injection Hi as ->. rewrite Hc. specialize (Hone j c' Hj Hc'). simpl. lia.
  - injection Hj as ->. rewrite Hc'. specialize (Hone i c Hi Hc). simpl. lia.
  - assert (i <> j) by congruence.
    specialize (IH i j c c' H Hi Hc Hj Hc'). destruct (pr a); simpl; lia.
Qed.

Lemma filter_all {A : Type} (f : A -> bool) (l : list A) :
  (forall a, In a l -> f a = true) -> List.filter f l = l.
Proof.
  induction l as [|a l IH]; intros H; simpl; [reflexivity|].
  rewrite (H a (or_introl eq_refl)), IH; [reflexivity|].
  intros a' Ha'. apply H. right. exact Ha'.
Qed.

(** C4: on a 3x3 board with 8 mines, whatever the generator draws, the
    placement triggered by a first reveal at the centre mines all 8
    cells around it; the eighth increment overflows the 4-bit signed
    field, and the count stored in the centre cell is -8. *)
Theorem eight_neighbours_store_minus_eight (dist : Z -> Z -> nat -> Z)
  (fuel : nat) (sd : Z) (b b' : Board) :
  start 3 3 8 sd = Ok b -> init_board dist fuel b 1 1 = Ok b' ->
  count_mines b' = 8 /\ adjacent_mines b' 1 1 = 8 /\
  exists c, cell_at b' 1 1 = Some c /\ is_mine c = false /\
            neighbor_mines c = -8.
Proof.
  intros Hs Hi. injection Hs as <-.
  pose (b := mkBoard 3 3 8 (replicate 9 blank) sd false 0).
  change (init_board dist fuel b 1 1 = Ok b') in Hi.
  assert (Hwf : wf b) by reflexivity.
  assert (Hb : all_blank b) by (apply replicate_all_blank).
  pose proof (all_blank_sound b Hwf ltac:(simpl; lia) ltac:(simpl; lia) Hb)
    as (_ & _ & _ & Hc & _).
  unfold init_board in Hi.
  apply init_board_loop_post in Hi;
    [|exact Hwf|simpl; lia|apply fresh_safe_spot; apply all_blank_fresh; exact Hb].
  destruct Hi as (SF & Hwf' & Hc' & _ & Hsafe & _ & Hcount).
  specialize (Hc' Hc). pose proof SF as (Hw & Hh & _).
  rewrite (fresh_count_mines b (all_blank_fresh b Hb)) in Hcount.
  change (num_mines b) with 8 in Hcount. change (width b) with 3 in *.
  change (height b) with 3 in *.
  split; [rewrite Hcount; reflexivity|].
  assert (Hin : inb b' 1 1) by (unfold inb; lia).
  destruct (cell_at_inb b' 1 1 Hwf' Hin) as [c Ec].
  assert (Mc : is_mine c = false).
  { apply Hsafe. unfold cell_at, idx in Ec. rewrite Hw in Ec. exact Ec. }
  assert (Hmines : forall p, In p (grid_adjacent b 1 1) -> mine_at b' p = true).
  { intros p Hp. pose proof (grid_adjacent_inbp b (1, 1) p Hp) as Hpi.
    apply (same_fields_inbp b b' p SF) in Hpi.
    destruct (cell_at_inb b' (fst p) (snd p) Hwf' Hpi) as [cp Ecp].
    rewrite (mine_at_cell b' p cp Ecp).
    destruct (is_mine cp) eqn:Mp; [reflexivity|exfalso].
    destruct (lookup_cell_some b' _ cp Ecp) as [_ Lp].
    destruct (lookup_cell_some b' _ c Ec) as [_ Lc].
    assert (Hne : Z.to_nat (idx b' (fst p) (snd p)) <> Z.to_nat (idx b' 1 1)).
    { intros E. destruct p as [px py]. simpl in E.
      apply (grid_adjacent_spec b 1 1 px py) in Hp. destruct Hp as (_ & Hnp & _).
      pose proof (idx_range b' px py Hwf' Hpi). pose proof (idx_range b' 1 1 Hwf' Hin).
      assert (E' : idx b' px py = idx b' 1 1) by lia.
      apply idx_inj in E'; [|exact Hpi|exact Hin].
      apply Hnp. destruct E' as [-> ->]. reflexivity. }
    pose proof (two_free is_mine (cells b') _ _ cp c Hne Lp Mp Lc Mc) as H2.
    unfold count_mines, count_cells in Hcount. unfold wf in Hwf'.
    rewrite Hw, Hh in Hwf'. lia. }
  assert (Hadj : adjacent_mines b' 1 1 = 8).
  { unfold adjacent_mines. rewrite (grid_adjacent_same b b' 1 1 SF).
    rewrite (filter_all _ _ Hmines). reflexivity. }
  split; [exact Hadj|]. exists c. split; [exact Ec|]. split; [exact Mc|].
  rewrite (Hc' 1 1 c Hin Ec), Mc, Hadj. reflexivity.
Qed.

Lemma eight_neighbours_store_minus_eight_witness :
  exists b',
    init_board round_robin 20 (mkBoard 3 3 8 (replicate 9 blank) 0 false 0) 1 1
    = Ok b' /\
    adjacent_mines b' 1 1 = 8 /\
    exists c, cell_at b' 1 1 = Some c /\ is_mine c = false /\
              neighbor_mines c = -8.
Proof.
  eexists. split; [vm_compute; reflexivity|].
  apply (eight_neighbours_store_minus_eight round_robin 20 0
           (mkBoard 3 3 8 (replicate 9 blank) 0 false 0)).
  - reflexivity.
  - vm_compute. reflexivity.
Defined.

(** On that board the centre cell does not pass the test
    [neighbor_mines > 0], so revealing it goes on to its neighbours and
    reveals all 8 mines; main looks for a mine at the centre only and
    the game is not over. *)
Lemma eight_neighbours_reveal_every_mine :
  exists b,
    main round_robin 20 3 3 8 0 [(mkCommand Reveal 1 1, 0)] = Ok (b, []) /\
    game_over b = false /\ unrevealed_count b = 0%nat /\ count_mines b = 8.
Proof.
  eexists. split; [vm_compute; reflexivity|]. repeat split.
Qed.

(** * Further properties of the engine *)

(** ** for_each_neighbour *)

Lemma neighbours_length_interior (w h x y : Z) :
  0 < x < w - 1 -> 0 < y < h - 1 -> length (neighbours w h x y) = 8%nat.
Proof.
  intros Hx Hy. unfold neighbours. rewrite !Z.gtb_ltb.
  destruct (Z.ltb_spec 0 x), (Z.ltb_spec x (w - 1)), (Z.ltb_spec 0 y),
    (Z.ltb_spec y (h - 1)); try lia. reflexivity.
Qed.

Lemma neighbours_length_corner (w h : Z) :
  1 < w -> 1 < h -> length (neighbours w h 0 0) = 3%nat.
Proof.
  intros Hw Hh. unfold neighbours. rewrite !Z.gtb_ltb.
  destruct (Z.ltb_spec 0 0), (Z.ltb_spec 0 (w - 1)), (Z.ltb_spec 0 (h - 1));
    try lia. reflexivity.
Qed.

Lemma neighbours_length_le (w h x y : Z) :
  (length (neighbours w h x y) <= 8)%nat.
Proof.
  unfold neighbours.
  destruct (x >? 0), (x <? w - 1), (y >? 0), (y <? h - 1); simpl; lia.
Qed.

(** X1: called at a grid position with a callback that leaves the
    board's size alone, [for_each_neighbour] runs the callback on a list
    of positions without repetition whose members are exactly the grid
    positions one step away (row, column or diagonal): at most 8, all 8
    in the interior, 3 in a corner of a board with at least two rows and
    two columns.  It never calls the callback off the grid or on (x, y)
    itself. *)
Theorem for_each_neighbour_calls {S : Type} (f : visitor S) (b : Board)
  (s : S) (x y : Z) :
  keeps_size f -> inb b x y ->
  exists l,
    for_each_neighbour x y f (b, s) = visit_all f l (b, s) /\
    List.NoDup l /\
    (forall x' y', In (x', y') l <-> inb b x' y' /\ near x y x' y') /\
    ~ In (x, y) l /\
    (length l <= 8)%nat /\
    (0 < x < width b - 1 -> 0 < y < height b - 1 -> length l = 8%nat) /\
    (x = 0 -> y = 0 -> 1 < width b -> 1 < height b -> length l = 3%nat).
Proof.
  intros Hf Hxy. exists (neighbours (width b) (height b) x y).
  split; [apply for_each_neighbour_visit; exact Hf|].
  split; [apply neighbours_nodup|].
  split; [intros x' y'; apply neighbours_spec; exact Hxy|].
  split.
  { intros H. apply (neighbours_spec b x y x y Hxy) in H.
    destruct H as (_ & Hne & _). apply Hne. reflexivity. }
  split; [apply neighbours_length_le|].
  split; [apply neighbours_length_interior|].
  intros -> ->. apply neighbours_length_corner.
Qed.

Lemma for_each_neighbour_calls_witness :
  exists l,
    for_each_neighbour 1 0 count_flag (mid_game_board, 0)
    = visit_all count_flag l (mid_game_board, 0) /\
    List.NoDup l /\
    (forall x' y', In (x', y') l <-> inb mid_game_board x' y' /\ near 1 0 x' y').
Proof.
  destruct (for_each_neighbour_calls count_flag mid_game_board 0 1 0)
    as (l & H1 & H2 & H3 & _).
  - exact count_flag_size.
  - unfold inb. simpl. lia.
  - exists l. auto.
Defined.

(** ** init_board *)

Lemma count_mines_has_room (b : Board) (i : Z) (c : Cell) :
  wf b -> lookup_cell b i = Some c -> is_mine c = false ->
  count_mines b < width b * height b.
Proof.
  intros Hwf Hc Hm. apply lookup_cell_some in Hc. destruct Hc as [_ Hc].
  assert (Hin : In c (cells b)).
  { apply list_elem_of_In. apply (list_elem_of_lookup_2 _ _ _ Hc). }
  pose proof (filter_length_lt is_mine (cells b) c Hin Hm).
  unfold count_mines, count_cells. rewrite <- Hwf. lia.
Qed.

(** X2: whatever the generator draws, when [init_board] returns on a
    board fresh from [resize] it has placed exactly [num_mines] mines,
    none of them on the excluded cell, and has revealed or flagged
    nothing.  A mine stores the count 0; a cell without a mine stores
    the number of its mined neighbours as the 4-bit field holds it,
    which is that number itself whenever it is at most 7. *)
Theorem init_board_result (dist : Z -> Z -> nat -> Z) (fuel : nat)
  (b b' : Board) (x y : Z) :
  all_blank b -> wf b -> 0 < width b -> 0 <= num_mines b ->
  init_board dist fuel b x y = Ok b' ->
  same_fields b b' /\ wf b' /\
  count_mines b' = num_mines b /\
  safe_spot b' (y * width b + x) /\
  (forall x' y' c, inb b x' y' -> cell_at b' x' y' = Some c ->
     is_revealed c = false /\ is_flagged c = false /\
     (is_mine c = true -> neighbor_mines c = 0) /\
     (is_mine c = false ->
        neighbor_mines c = wrap4 (adjacent_mines b' x' y') /\
        (adjacent_mines b' x' y' <= 7 ->
           neighbor_mines c = adjacent_mines b' x' y'))).
Proof.
  intros Hb Hwf Hw Hn Hi. unfold init_board in Hi.
  assert (Hh : 0 <= width b * height b).
  { unfold wf in Hwf. lia. }
  assert (Hc : counts_ok b).
  { intros x0 y0 c _ Hc. rewrite (all_blank_lookup b _ c Hb Hc). simpl.
    rewrite no_mine_adjacent; [reflexivity|].
    intros p. unfold mine_at.
    destruct (cell_at b (fst p) (snd p)) as [cp|] eqn:E; [|reflexivity].
    rewrite (all_blank_lookup b _ cp Hb E). reflexivity. }
  apply init_board_loop_post in Hi;
    [|exact Hwf|exact Hw|apply fresh_safe_spot; apply all_blank_fresh; exact Hb].
  destruct Hi as (SF & Hwf' & Hc' & Hm & Hs & _ & Hcount).
  specialize (Hc' Hc).
  split; [exact SF|]. split; [exact Hwf'|].
  split.
  { rewrite Hcount, (fresh_count_mines b (all_blank_fresh b Hb)). lia. }
  split; [exact Hs|].
  intros x' y' c Hxy Hcell.
  destruct (cell_at_inb b x' y' Hwf Hxy) as [c0 Hc0].
  destruct (Hm (x', y') c0 Hxy Hc0) as (c1 & E1 & R1 & F1).
  change (cell_of b' (x', y')) with (cell_at b' x' y') in E1.
  rewrite Hcell in E1. injection E1 as <-.
  rewrite (all_blank_lookup b _ c0 Hb Hc0) in R1, F1. simpl in R1, F1.
  split; [exact R1|]. split; [exact F1|].
  assert (Hxy' : inb b' x' y') by (apply (same_fields_inbp b b' (x', y') SF); exact Hxy).
  pose proof (Hc' x' y' c Hxy' Hcell) as Hk.
  split; [intros M; rewrite M in Hk; exact Hk|].
  intros M. rewrite M in Hk. split; [exact Hk|].
  intros Hle. rewrite Hk. apply wrap4_small.
  pose proof (adjacent_mines_range b' x' y'). lia.
Qed.

Lemma init_board_result_witness :
  let b' := mkBoard 3 1 1
              [mkCell false false false 1; mkCell true false false 0;
               mkCell false false false 1] 1 false 1 in
  init_board round_robin 5 first_turn_board 0 0 = Ok b' /\
  count_mines b' = 1 /\ safe_spot b' 0.
Proof.
  intros b'.
  assert (E : init_board round_robin 5 first_turn_board 0 0 = Ok b')
    by (vm_compute; reflexivity).
  split; [exact E|].
  destruct (init_board_result round_robin 5 first_turn_board b' 0 0)
    as (_ & _ & H1 & H2 & _).
  - apply replicate_all_blank.
  - reflexivity.
  - simpl. lia.
  - simpl. lia.
  - exact E.
  - split; [exact H1|exact H2].
Defined.

(** X3: [init_board] cannot return when [num_mines] is not below the
    number of cells: the excluded cell never takes a mine, so the loop
    never counts enough mines and goes on drawing for ever. *)
Theorem init_board_needs_room (dist : Z -> Z -> nat -> Z) (fuel : nat)
  (b : Board) (x y : Z) :
  all_blank b -> wf b -> inb b x y ->
  in_range dist (seed b) (width b * height b - 1) ->
  width b * height b <= num_mines b ->
  init_board dist fuel b x y = Err OutOfFuel.
Proof.
  intros Hb Hwf Hxy Hrng Hfull.
  assert (Hw : 0 < width b) by (destruct Hxy; lia).
  unfold init_board.
  destruct (init_board_loop_in_bounds dist (width b * height b - 1)
              (y * width b + x) fuel 0%nat 0 b Hwf Hw eq_refl Hrng)
    as [(b' & E & Hwf' & SF)|E]; [exfalso|exact E].
  apply init_board_loop_post in E;
    [|exact Hwf|exact Hw|apply fresh_safe_spot; apply all_blank_fresh; exact Hb].
  destruct E as (_ & _ & _ & _ & Hs & _ & Hcount).
  rewrite (fresh_count_mines b (all_blank_fresh b Hb)) in Hcount.
  pose proof SF as (Ew & Eh & _).
  assert (Hxy' : inb b' x y) by (apply (same_fields_inbp b b' (x, y) SF); exact Hxy).
  destruct (cell_at_inb b' x y Hwf' Hxy') as [c Hc].
  unfold cell_at, idx in Hc. rewrite Ew in Hc.
  pose proof (count_mines_has_room b' _ c Hwf' Hc (Hs c Hc)) as Hroom.
  rewrite Ew, Eh in Hroom. lia.
Qed.

Lemma init_board_needs_room_witness :
  init_board round_robin 50 (mkBoard 2 1 2 (replicate 2 blank) 0 false 1) 0 0
  = Err OutOfFuel.
Proof.
  apply (init_board_needs_room round_robin 50
           (mkBoard 2 1 2 (replicate 2 blank) 0 false 1) 0 0).
  - apply replicate_all_blank.
  - reflexivity.
  - unfold inb. simpl. lia.
  - apply round_robin_in_range. simpl. lia.
  - simpl. lia.
Defined.

(** ** The Flag command *)

Lemma put_cell_put_back (b : Board) (i : Z) (c c1 : Cell) :
  lookup_cell b i = Some c -> put_cell (put_cell b i c1) i c = b.
Proof.
  intros H. apply lookup_cell_some in H. destruct H as [_ H].
  unfold put_cell, set_cells. simpl.
  rewrite list_insert_insert_eq, (list_insert_id _ _ _ H).
  destruct b; reflexivity.
Qed.

Lemma set_flagged_twice (c : Cell) :
  set_flagged (set_flagged c (negb (is_flagged c)))
    (negb (is_flagged (set_flagged c (negb (is_flagged c))))) = c.
Proof. destruct c as [m r f n]. simpl. rewrite negb_involutive. reflexivity. Qed.

(** X4: a [Flag] command at a grid position always succeeds.  On a
    revealed cell it changes nothing; on an unrevealed cell it flips the
    flag of that cell and touches no other cell or field.  Two [Flag]
    commands at the same position give back the board one started
    from. *)
Theorem flag_twice_restores (b : Board) (x y : Z) :
  wf b -> inb b x y ->
  exists b1 c,
    cell_at b x y = Some c /\
    do_flag b x y = Ok (b1, []) /\
    do_flag b1 x y = Ok (b, []) /\
    (is_revealed c = true -> b1 = b) /\
    (is_revealed c = false ->
       cell_at b1 x y = Some (set_flagged c (negb (is_flagged c)))) /\
    (forall x' y', inb b x' y' -> (x', y') <> (x, y) ->
       cell_at b1 x' y' = cell_at b x' y') /\
    same_fields b b1.
Proof.
  intros Hwf Hxy. destruct (cell_at_inb b x y Hwf Hxy) as [c Hc].
  unfold do_flag at 1.
  rewrite (proj2 (get_cell_ok b (y * width b + x) c) Hc). cbn [bind].
  destruct (is_revealed c) eqn:Rc.
  - exists b, c. split; [exact Hc|]. split; [reflexivity|].
    split.
    { unfold do_flag. rewrite (proj2 (get_cell_ok b (y * width b + x) c) Hc).
      cbn [bind]. rewrite Rc. reflexivity. }
    split; [reflexivity|]. split; [intros H; congruence|].
    split; [reflexivity|apply same_fields_refl].
  - set (c1 := set_flagged c (negb (is_flagged c))).
    set (b1 := put_cell b (y * width b + x) c1).
    assert (Hc1 : cell_at b1 x y = Some c1).
    { unfold cell_at. change (idx b1 x y) with (idx b x y).
      apply (lookup_put_eq b _ c _ Hc). }
    exists b1, c. split; [exact Hc|]. split; [reflexivity|].
    split.
    { unfold do_flag.
      rewrite (proj2 (get_cell_ok b1 (y * width b1 + x) c1) Hc1). cbn [bind].
      change (is_revealed c1) with (is_revealed c). rewrite Rc.
      unfold c1 at 1 2. rewrite set_flagged_twice.
      change (y * width b1 + x) with (y * width b + x). unfold b1.
      rewrite (put_cell_put_back b (y * width b + x) c c1 Hc). reflexivity. }
    split; [intros H; congruence|]. split; [intros _; exact Hc1|].
    split; [|repeat split].
    intros x' y' Hp Hne. unfold cell_at.
    change (idx b1 x' y') with (idx b x' y'). unfold b1.
    apply lookup_put_ne; [apply (idx_range b x y Hwf Hxy)|].
    fold (idx b x y). intros E. apply idx_inj in E; auto. apply Hne.
    destruct E as [-> ->]. reflexivity.
Qed.

Lemma flag_twice_restores_witness :
  exists b1,
    do_flag mid_game_board 2 0 = Ok (b1, []) /\
    do_flag b1 2 0 = Ok (mid_game_board, []).
Proof.
  destruct (flag_twice_restores mid_game_board 2 0) as (b1 & c & _ & H1 & H2 & _).
  - reflexivity.
  - unfold inb. simpl. lia.
  - exists b1. auto.
Defined.

(** ** The Reveal command after placement *)

(** What [dispatch] does to the board: a run of reveals, and
    [game_over] when the target was an unrevealed mine. *)
Lemma dispatch_effect (fuel : nat) (b : Board) (x y : Z) (c : Cell)
  (r : Board * list Msg) :
  wf b -> inb b x y -> cell_at b x y = Some c ->
  dispatch fuel b x y = Ok r ->
  exists b' new,
    traced b new b' /\ closed_new b' new /\
    fst r = (if negb (is_revealed c) && is_mine c
             then set_game_over b' true else b').
Proof.
  intros Hwf Hxy Hc Hd.
  assert (Hnone : closed_new b []) by (intros q []).
  destruct (is_revealed c) eqn:Rc; cbn [negb andb].
  - destruct (Z.le_gt_cases (neighbor_mines c) 0) as [Hn|Hn].
    { rewrite (dispatch_idle fuel b x y c Hc Rc Hn) in Hd.
      injection Hd as <-. exists b, []. auto using traced_refl. }
    destruct (Z.eq_dec (flagged_neighbours b x y) (neighbor_mines c)) as [Hf|Hf].
    + rewrite (dispatch_chords fuel b x y c Hwf Hxy Hc Rc ltac:(lia) Hf) in Hd.
      destruct (chord_pass fuel b x y Hwf Hxy) as [(b' & new & E & P)|E];
        rewrite E in Hd; [|discriminate].
      simpl in Hd. injection Hd as <-. exists b', new.
      destruct P as (T & _ & _ & Cn). auto.
    + rewrite (dispatch_rejects fuel b x y c Hwf Hxy Hc Rc ltac:(lia) Hf) in Hd.
      injection Hd as <-. exists b, []. auto using traced_refl.
  - destruct (dispatch_reveals fuel b x y c Hwf Hxy Hc Rc)
      as [(b' & new & _ & (T & _ & _ & Cn) & E)|E]; rewrite E in Hd;
      [|discriminate].
    injection Hd as <-. exists b', new. auto.
Qed.

(** X6: a [Reveal] command after the first turn never moves a mine,
    never changes a stored count, never hides a revealed cell and never
    sets a flag: every cell is left as it was, or was unrevealed and is
    now revealed with its flag cleared.  The size of the board, the mine
    total, the seed and the turn counter are unchanged, and a game that
    was over stays over. *)
Theorem reveal_command_frame (dist : Z -> Z -> nat -> Z) (fuel : nat)
  (b b' : Board) (x y : Z) (out : list Msg) :
  wf b -> inb b x y -> time b <> 1 ->
  do_reveal dist fuel b x y = Ok (b', out) ->
  width b' = width b /\ height b' = height b /\
  num_mines b' = num_mines b /\ seed b' = seed b /\ time b' = time b /\
  length (cells b') = length (cells b) /\
  (game_over b = true -> game_over b' = true) /\
  forall x' y' c, inb b x' y' -> cell_at b x' y' = Some c ->
    cell_at b' x' y' = Some c \/
    is_revealed c = false /\ cell_at b' x' y' = Some (reveal_cell c).
Proof.
  intros Hwf Hxy Ht Hd. rewrite (do_reveal_later dist fuel b x y Ht) in Hd.
  destruct (cell_at_inb b x y Hwf Hxy) as [c0 Hc0].
  destruct (dispatch_effect fuel b x y c0 (b', out) Hwf Hxy Hc0 Hd)
    as (b1 & new & T & _ & E).
  cbn [fst] in E.
  assert (Hb : (width b' = width b1 /\ height b' = height b1 /\
                num_mines b' = num_mines b1 /\ seed b' = seed b1 /\
                time b' = time b1 /\ cells b' = cells b1) /\
               (game_over b1 = true -> game_over b' = true)).
  { rewrite E. destruct (negb (is_revealed c0) && is_mine c0); simpl; auto 10. }
  destruct Hb as ((Ew & Eh & En & Es & Et & Ec) & Eg).
  pose proof T as ((Fw & Fh & Fn & Fs & Fg & Ft) & Fl & _).
  repeat split; try congruence.
  - intros G. apply Eg. congruence.
  - intros x' y' c Hp Hc.
    assert (Hsame : cell_at b' x' y' = cell_at b1 x' y').
    { unfold cell_at, lookup_cell, idx. rewrite Ew, Ec. reflexivity. }
    rewrite Hsame.
    destruct (traced_cases b b1 new (x', y') T Hp) as [Es'|(_ & c1 & E1 & R1 & E2)].
    + left. change (cell_of b1 (x', y')) with (cell_at b1 x' y') in Es'.
      rewrite Es'. exact Hc.
    + right. change (cell_of b (x', y')) with (cell_at b x' y') in E1.
      rewrite Hc in E1. injection E1 as <-. auto.
Qed.

Lemma reveal_command_frame_witness :
  exists b' out,
    do_reveal round_robin 10 mid_game_board 2 0 = Ok (b', out) /\
    num_mines b' = num_mines mid_game_board /\
    length (cells b') = length (cells mid_game_board).
Proof.
  exists (mkBoard 3 1 1
            [mkCell false true false 1; mkCell true false false 0;
             mkCell false true false 1] 1 false 2), [].
  assert (E : do_reveal round_robin 10 mid_game_board 2 0
              = Ok (mkBoard 3 1 1
                      [mkCell false true false 1; mkCell true false false 0;
                       mkCell false true false 1] 1 false 2, []))
    by (vm_compute; reflexivity).
  split; [exact E|].
  destruct (reveal_command_frame round_robin 10 mid_game_board _ 2 0 _
              ltac:(reflexivity) ltac:(unfold inb; simpl; lia)
              ltac:(simpl; lia) E)
    as (_ & _ & H1 & _ & _ & H2 & _).
  split; assumption.
Defined.





(** ** The number of mines on the board *)

Lemma filter_length_pointwise (pr : Cell -> bool) (l : list Cell) :
  forall l', length l' = length l ->
    (forall i c c', l !! i = Some c -> l' !! i = Some c' -> pr c' = pr c) ->
    length (List.filter pr l') = length (List.filter pr l).
Proof.
  induction l as [|c l IH]; intros [|c' l'] Hlen H; simpl in *; try discriminate.
  - reflexivity.
  - rewrite (H 0%nat c c' eq_refl eq_refl).
    assert (E : length (List.filter pr l') = length (List.filter pr l)).
    { apply IH; [lia|].
      intros i d d' Hd Hd'. apply (H (S i) d d'); assumption. }
    destruct (pr c); simpl; rewrite E; reflexivity.
Qed.

(** Boards with the same mines hold the same number of them. *)
Lemma same_static_count_mines (b b' : Board) :
  wf b -> 0 < width b -> length (cells b') = length (cells b) ->
  same_static b b' -> count_mines b' = count_mines b.
Proof.
  intros Hwf Hw Hlen (SF & H). unfold count_mines, count_cells. f_equal.
  apply filter_length_pointwise; [exact Hlen|].
  intros i c c' Hc Hc'.
  assert (Hi : 0 <= Z.of_nat i < width b * height b).
  { apply lookup_lt_Some in Hc. unfold wf in Hwf. lia. }
  destruct (rem_quot_inb b (Z.of_nat i) Hw Hi) as [Hin Hidx].
  set (p := (Z.rem (Z.of_nat i) (width b), Z.quot (Z.of_nat i) (width b))).
  assert (Hp : cell_of b p = Some c).
  { unfold cell_of, cell_at, p. cbn [fst snd]. rewrite Hidx.
    unfold lookup_cell. destruct (Z.ltb_spec (Z.of_nat i) 0); [lia|].
    rewrite Nat2Z.id. exact Hc. }
  destruct (H p c Hin Hp) as (c1 & E1 & M1 & _).
  destruct SF as (Ew & _).
  unfold cell_of, cell_at, idx, p in E1. cbn [fst snd] in E1.
  rewrite Ew in E1. fold (idx b (Z.rem (Z.of_nat i) (width b))
                               (Z.quot (Z.of_nat i) (width b))) in E1.
  rewrite Hidx in E1. unfold lookup_cell in E1.
  destruct (Z.ltb_spec (Z.of_nat i) 0); [lia|].
  rewrite Nat2Z.id, Hc' in E1. injection E1 as <-. exact M1.
Qed.

(** [init_board] on a blank board places [num_mines] mines, none when
    [num_mines] is negative. *)
Lemma init_board_count (dist : Z -> Z -> nat -> Z) (fuel : nat)
  (b b' : Board) (x y : Z) :
  all_blank b -> wf b -> 0 < width b ->
  init_board dist fuel b x y = Ok b' ->
  same_fields b b' /\ wf b' /\ count_mines b' = Z.max 0 (num_mines b).
Proof.
  intros Hb Hwf Hw Hi. unfold init_board in Hi.
  apply init_board_loop_post in Hi;
    [|exact Hwf|exact Hw|apply fresh_safe_spot; apply all_blank_fresh; exact Hb].
  destruct Hi as (SF & Hwf' & _ & _ & _ & _ & Hcount).
  split; [exact SF|]. split; [exact Hwf'|].
  rewrite Hcount, (fresh_count_mines b (all_blank_fresh b Hb)).
  rewrite Z.sub_0_r. reflexivity.
Qed.

(** One command keeps the number of mines, or brings it to 0 ([New]) or
    to [num_mines] (the placement of the first turn). *)
Lemma do_command_count_mines (dist : Z -> Z -> nat -> Z) (fuel : nat)
  (b : Board) (cmd : Command) (fresh : Z) (r : Board * list Msg) :
  game_inv b ->
  (verb cmd = Reveal \/ verb cmd = Flag -> inb b (cmd_x cmd) (cmd_y cmd)) ->
  do_command dist fuel b cmd fresh = Ok r ->
  num_mines (fst r) = num_mines b /\
  (count_mines (fst r) = count_mines b \/ count_mines (fst r) = 0 \/
   count_mines (fst r) = num_mines b).
Proof.
  intros ((Hwf & Hw & Hh & Hrest) & Ht & Hblank & Hgo) Hin Hd.
  unfold do_command in Hd. destruct (verb cmd) eqn:V.
  - (* Reveal *)
    specialize (Hin (or_introl eq_refl)).
    rewrite do_reveal_dispatch in Hd.
    destruct (time b =? 1) eqn:T1.
    + apply Z.eqb_eq in T1. specialize (Hblank T1).
      destruct (init_board dist fuel b (cmd_x cmd) (cmd_y cmd)) as [b1|e] eqn:I;
        [|discriminate].
      cbn [bind] in Hd.
      destruct (init_board_count dist fuel b b1 _ _ Hblank Hwf Hw I)
        as (SF & Hwf1 & Hcnt).
      pose proof SF as (Ew & Eh & En & _).
      assert (Hin1 : inb b1 (cmd_x cmd) (cmd_y cmd)).
      { unfold inb in *. rewrite Ew, Eh. exact Hin. }
      destruct (cell_at_inb b1 _ _ Hwf1 Hin1) as [c Hc].
      destruct (dispatch_effect fuel b1 _ _ c r Hwf1 Hin1 Hc Hd)
        as (b2 & new & T & _ & E).
      pose proof T as ((_ & _ & Fn & _) & Fl & _).
      assert (Hcm : count_mines b2 = count_mines b1).
      { apply same_static_count_mines;
          [exact Hwf1|lia|exact Fl|apply (traced_static b1 b2 new T)]. }
      assert (Hr : num_mines (fst r) = num_mines b2 /\
                   count_mines (fst r) = count_mines b2).
      { rewrite E. destruct (negb (is_revealed c) && is_mine c); auto. }
      destruct Hr as [Hr1 Hr2]. split; [congruence|].
      rewrite Hr2, Hcm, Hcnt.
      destruct (Z.max_spec 0 (num_mines b)) as [[_ ->]|[_ ->]]; auto.
    + cbn [bind] in Hd.
      destruct (cell_at_inb b _ _ Hwf Hin) as [c Hc].
      destruct (dispatch_effect fuel b _ _ c r Hwf Hin Hc Hd)
        as (b2 & new & T & _ & E).
      pose proof T as ((_ & _ & Fn & _) & Fl & _).
      assert (Hcm : count_mines b2 = count_mines b).
      { apply same_static_count_mines;
          [exact Hwf|exact Hw|exact Fl|apply (traced_static b b2 new T)]. }
      assert (Hr : num_mines (fst r) = num_mines b2 /\
                   count_mines (fst r) = count_mines b2).
      { rewrite E. destruct (negb (is_revealed c) && is_mine c); auto. }
      destruct Hr as [Hr1 Hr2]. split; [congruence|]. left. congruence.
  - (* Flag *)
    specialize (Hin (or_intror eq_refl)).
    destruct (cell_at_inb b _ _ Hwf Hin) as [c Hc]. unfold do_flag in Hd.
    rewrite (proj2 (get_cell_ok b (cmd_y cmd * width b + cmd_x cmd) c) Hc) in Hd.
    cbn [bind] in Hd.
    destruct (is_revealed c); injection Hd as <-; cbn [fst]; [auto|].
    split; [reflexivity|]. left.
    pose proof (count_cells_put is_mine b (cmd_y cmd * width b + cmd_x cmd) c
                  (set_flagged c (negb (is_flagged c))) Hc) as Hp.
    change (is_mine (set_flagged c (negb (is_flagged c)))) with (is_mine c) in Hp.
    unfold count_mines. lia.
  - (* New *)
    destruct (do_new_sound b _ _ fresh r Hw Hh Hd) as (_ & _ & _ & Hb & _).
    split.
    + unfold do_new in Hd.
      destruct (resize _) as [cs|e]; [|discriminate].
      cbn [bind] in Hd. injection Hd as <-. cbn [fst].
      destruct ((cmd_x cmd >? 0) && (cmd_y cmd >? 0)); reflexivity.
    + right. left. apply fresh_count_mines, all_blank_fresh, Hb.
  - injection Hd as <-. auto.
Qed.

(** X5: whenever main dispatches a command, the board holds either no
    mine at all (nothing was placed yet, or the game began with a flag)
    or exactly [num_mines] mines; its cell vector has width times height
    entries, every stored count is the 4-bit wrap of the number of
    adjacent mines (0 on a mine), no revealed cell carries a flag, and
    the turn counter is at least 1 with the game not over. *)
Theorem dispatched_board_invariant (dist : Z -> Z -> nat -> Z) (b : Board) :
  playing dist b ->
  (count_mines b = 0 \/ count_mines b = num_mines b) /\
  wf b /\ counts_ok b /\ tidy b /\ 1 <= time b /\ game_over b = false.
Proof.
  intros Hp. split.
  - induction Hp as [w h mines sd b Hw Hh Hs Hgo|b cmd fresh fuel r Hp IH Hv Hin Hd Ht Hgo].
    + left. destruct (loop_head_no_win b Hgo) as [-> _].
      unfold start in Hs. destruct (resize (w * h)) as [cs|e] eqn:R; [|discriminate].
      injection Hs as <-. unfold resize in R.
      destruct (w * h <? 0); [discriminate|]. injection R as <-.
      apply fresh_count_mines, all_blank_fresh. apply replicate_all_blank.
    + destruct (loop_head_no_win (fst r) Hgo) as [-> _].
      destruct (do_command_count_mines dist fuel b cmd fresh r
                  (playing_inv dist b Hp) Hin Hd) as (En & Hc).
      change (count_mines (tick (fst r))) with (count_mines (fst r)).
      change (num_mines (tick (fst r))) with (num_mines (fst r)).
      rewrite En. destruct Hc as [-> | [-> | ->] ]; auto.
  - destruct (playing_inv dist b Hp) as ((Hwf & _ & _ & Hc & _ & Htd) & Ht & _ & Hgo).
    repeat split; try assumption. lia.
Qed.

Lemma dispatched_board_invariant_witness :
  (count_mines mid_game_board = 0 \/
   count_mines mid_game_board = num_mines mid_game_board) /\
  wf mid_game_board /\ counts_ok mid_game_board /\ tidy mid_game_board /\
  1 <= time mid_game_board /\ game_over mid_game_board = false.
Proof.
  apply (dispatched_board_invariant round_robin mid_game_board).
  exact mid_game_playing.
Defined.


(** ** More on [reveal] and [check_board] *)

(** X8: [reveal] on a cell it has just revealed changes nothing: a
    second call at the same position returns the same board, with any
    fuel that lets it start. *)
Theorem reveal_twice_is_reveal_once (fuel fuel' : nat) (b b' : Board) (x y : Z) :
  wf b -> inb b x y -> reveal fuel b x y = Ok b' ->
  reveal (S fuel') b' x y = Ok b'.
Proof.
  intros Hwf Hxy Hr.
  destruct (reveal_in_bounds fuel b x y Hwf Hxy) as [(b1 & new & E & P)|E];
    [|congruence].
  rewrite Hr in E. injection E as <-.
  destruct P as (_ & (c & Hc & Rc) & _).
  unfold cell_of, cell_at, idx in Hc. cbn [fst snd] in Hc.
  cbn [reveal]. rewrite (proj2 (get_cell_ok b' (y * width b' + x) c) Hc).
  cbn [bind]. rewrite Rc. reflexivity.
Qed.

Lemma reveal_twice_is_reveal_once_witness :
  exists b',
    reveal 5 mid_game_board 2 0 = Ok b' /\ reveal 1 b' 2 0 = Ok b'.
Proof.
  exists (mkBoard 3 1 1
            [mkCell false true false 1; mkCell true false false 0;
             mkCell false true false 1] 1 false 2).
  assert (E : reveal 5 mid_game_board 2 0
              = Ok (mkBoard 3 1 1
                      [mkCell false true false 1; mkCell true false false 0;
                       mkCell false true false 1] 1 false 2))
    by (vm_compute; reflexivity).
  split; [exact E|].
  apply (reveal_twice_is_reveal_once 5 0 mid_game_board _ 2 0
           ltac:(reflexivity) ltac:(unfold inb; simpl; lia) E).
Defined.

(** The two counters of [check_board] on cells whose mines are all
    flagged or unrevealed: their sum is the number of mines plus the
    number of cells without a mine that are neither revealed nor
    flagged. *)
Lemma tally_covered (l : list Cell) :
  (forall c, In c l -> is_mine c = true ->
     is_revealed c = false \/ is_flagged c = true) ->
  (length (List.filter (fun c => is_flagged c && is_mine c) l)
   + length (List.filter (fun c => negb (is_flagged c) && negb (is_revealed c)) l)
   = length (List.filter is_mine l)
     + length (List.filter
                 (fun c => negb (is_mine c) && negb (is_flagged c)
                           && negb (is_revealed c)) l))%nat.
Proof.
  induction l as [|c l IH]; intros H; [reflexivity|].
  assert (IH' := IH (fun d Hd => H d (or_intror Hd))).
  pose proof (H c (or_introl eq_refl)) as Hc.
  cbn [List.filter].
  destruct (is_mine c), (is_flagged c), (is_revealed c); cbn [negb andb length];
    lia.
Qed.

(** X9: on a board that holds [num_mines] mines, each of them flagged or
    unrevealed, [check_board] declares the win exactly when no cell
    without a mine is left both unrevealed and unflagged: then it flags
    every mine, prints "You win!" and sets [game_over]; while such a
    cell is left it changes nothing.  (So flagging a safe cell counts
    like revealing it.) *)
Theorem check_board_wins_when_cleared (b : Board) :
  count_mines b = num_mines b ->
  (forall c, In c (cells b) -> is_mine c = true ->
     is_revealed c = false \/ is_flagged c = true) ->
  ((forall c, In c (cells b) -> is_mine c = false ->
      is_revealed c = true \/ is_flagged c = true) ->
   check_board b
   = (set_game_over (set_cells b (map flag_if_mine (cells b))) true, [YouWin])) /\
  ((exists c, In c (cells b) /\ is_mine c = false /\
              is_revealed c = false /\ is_flagged c = false) ->
   check_board b = (b, [])).
Proof.
  intros Hn Hm.
  assert (Hsum : fst (fold_left tally (cells b) (0, 0))
                 + snd (fold_left tally (cells b) (0, 0))
                 = num_mines b
                   + Z.of_nat (length (List.filter
                       (fun c => negb (is_mine c) && negb (is_flagged c)
                                 && negb (is_revealed c)) (cells b)))).
  { rewrite tally_fold. cbn [fst snd].
    pose proof (tally_covered (cells b) Hm) as E.
    rewrite <- Hn. unfold count_mines, count_cells. lia. }
  split.
  - intros Hall. unfold check_board. rewrite Hsum.
    assert (E : List.filter
                  (fun c => negb (is_mine c) && negb (is_flagged c)
                            && negb (is_revealed c)) (cells b) = []).
    { destruct (List.filter _ (cells b)) as [|c l] eqn:F; [reflexivity|].
      assert (Hin : In c (List.filter
                  (fun c => negb (is_mine c) && negb (is_flagged c)
                            && negb (is_revealed c)) (cells b)))
        by (rewrite F; left; reflexivity).
      apply filter_In in Hin. destruct Hin as [Hin Hp].
      destruct (is_mine c) eqn:M; [discriminate|].
      destruct (Hall c Hin M) as [R|Fl]; rewrite ?R, ?Fl in Hp;
        destruct (is_flagged c); discriminate. }
    rewrite E. cbn [length]. rewrite Z.add_0_r, Z.eqb_refl. reflexivity.
  - intros (c & Hin & M & R & Fl). unfold check_board. rewrite Hsum.
    assert (Hin' : In c (List.filter
                  (fun c => negb (is_mine c) && negb (is_flagged c)
                            && negb (is_revealed c)) (cells b))).
    { apply filter_In. split; [exact Hin|]. rewrite M, R, Fl. reflexivity. }
    destruct (List.filter _ (cells b)) as [|c0 l]; [destruct Hin'|].
    destruct (Z.eqb_spec (num_mines b + Z.of_nat (length (c0 :: l))) (num_mines b))
      as [E|_]; [|reflexivity].
    cbn [length] in E. lia.
Qed.

Lemma check_board_wins_when_cleared_witness :
  check_board mid_game_board = (mid_game_board, []).
Proof.
  destruct (check_board_wins_when_cleared mid_game_board) as [_ H].
  - reflexivity.
  - intros c Hin M. simpl in Hin.
    destruct Hin as [<- | [<- | [<- | [] ] ] ]; try discriminate. left. reflexivity.
  - apply H. exists (mkCell false false false 1). simpl. auto 10.
Defined.

(** ** The New command *)

Lemma tally_blank (n : nat) (acc : Z * Z) :
  fold_left tally (replicate n blank) acc = (fst acc, snd acc + Z.of_nat n).
Proof.
  revert acc. induction n as [|n IH]; intros [a u].
  - simpl. f_equal. lia.
  - cbn [replicate fold_left]. rewrite IH. cbn. f_equal. lia.
Qed.

Lemma flag_if_mine_blank (n : nat) :
  map flag_if_mine (replicate n blank) = replicate n blank.
Proof.
  induction n as [|n IH]; [reflexivity|]. cbn [replicate map]. rewrite IH.
  reflexivity.
Qed.

(** X10: a [New] command that returns leaves a board of blank cells,
    one per grid position, with the given random-device value as seed
    and the mine total unchanged; the size changes only when both
    numbers of the command are positive.  The next loop head sets the
    turn counter to 1, so that the next [Reveal] places the mines
    afresh, unless the grid has exactly [num_mines] cells: then the new
    game is won at once. *)
Theorem new_game_starts_blank (b b' : Board) (x y fresh : Z) (out : list Msg) :
  do_new b x y fresh = Ok (b', out) ->
  out = [] /\
  (width b', height b') = (if (x >? 0) && (y >? 0) then (x, y)
                           else (width b, height b)) /\
  0 <= width b' * height b' /\
  cells b' = replicate (Z.to_nat (width b' * height b')) blank /\
  wf b' /\ num_mines b' = num_mines b /\ seed b' = fresh /\
  time b' = 0 /\ game_over b' = false /\
  loop_head b' = (if width b' * height b' =? num_mines b
                  then (set_game_over (tick b') true, [YouWin])
                  else (tick b', [])) /\
  time (tick b') = 1.
Proof.
  intros Hd. unfold do_new in Hd.
  set (b0 := if (x >? 0) && (y >? 0) then set_size (set_cells b []) x y
             else set_cells b []) in Hd.
  unfold resize in Hd.
  destruct (Z.ltb_spec (width b0 * height b0) 0) as [|Hpos]; [discriminate|].
  cbn [bind] in Hd. injection Hd as <- <-.
  assert (Hdim : (width b0, height b0)
                 = (if (x >? 0) && (y >? 0) then (x, y) else (width b, height b))).
  { unfold b0. destruct ((x >? 0) && (y >? 0)); reflexivity. }
  assert (Hn : num_mines b0 = num_mines b).
  { unfold b0. destruct ((x >? 0) && (y >? 0)); reflexivity. }
  cbn [width height cells num_mines seed time game_over set_time set_game_over
       set_seed set_cells].
  split; [reflexivity|]. split; [exact Hdim|]. split; [exact Hpos|].
  split; [reflexivity|].
  split; [unfold wf; cbn; rewrite length_replicate; lia|].
  split; [exact Hn|]. split; [reflexivity|]. split; [reflexivity|].
  split; [reflexivity|]. split; [|reflexivity].
  unfold loop_head, check_board.
  cbn [tick width height cells num_mines seed time game_over set_time
       set_game_over set_seed set_cells].
  rewrite tally_blank. cbn [fst snd]. rewrite Z.add_0_l, Z.add_0_l.
  rewrite Z2Nat.id by exact Hpos. rewrite Hn.
  destruct (width b0 * height b0 =? num_mines b); [|reflexivity].
  rewrite flag_if_mine_blank. reflexivity.
Qed.

Lemma new_game_starts_blank_witness :
  exists b',
    do_new mid_game_board 0 0 7 = Ok (b', []) /\
    cells b' = replicate 3 blank /\ seed b' = 7.
Proof.
  exists (mkBoard 3 1 1 (replicate 3 blank) 7 false 0).
  assert (E : do_new mid_game_board 0 0 7
              = Ok (mkBoard 3 1 1 (replicate 3 blank) 7 false 0, []))
    by reflexivity.
  split; [exact E|].
  destruct (new_game_starts_blank mid_game_board _ 0 0 7 [] E)
    as (_ & _ & _ & H1 & _ & _ & H2 & _).
  split; [exact H1|exact H2].
Defined.


(** ** A flood fill with nothing in its way *)

(** Every entry of the cell vector is the cell of a grid position. *)
Lemma lookup_position (b : Board) (i : nat) (c : Cell) :
  wf b -> 0 < width b -> cells b !! i = Some c ->
  exists p, inbp b p /\ idx b (fst p) (snd p) = Z.of_nat i /\
            cell_of b p = Some c.
Proof.
  intros Hwf Hw Hc.
  assert (Hi : 0 <= Z.of_nat i < width b * height b).
  { apply lookup_lt_Some in Hc. unfold wf in Hwf. lia. }
  destruct (rem_quot_inb b (Z.of_nat i) Hw Hi) as [Hin Hidx].
  exists (Z.rem (Z.of_nat i) (width b), Z.quot (Z.of_nat i) (width b)).
  split; [exact Hin|]. split; [exact Hidx|].
  unfold cell_of, cell_at. cbn [fst snd]. rewrite Hidx.
  unfold lookup_cell. destruct (Z.ltb_spec (Z.of_nat i) 0); [lia|].
  rewrite Nat2Z.id. exact Hc.
Qed.

(** The grid is connected by the steps of [for_each_neighbour]: a set of
    positions that holds one position of the grid and, with a position,
    all those [for_each_neighbour] visits from it, holds the whole
    grid. *)
Lemma grid_connected (b : Board) (R : Z * Z -> Prop) (p : Z * Z) :
  inbp b p -> R p ->
  (forall q, inbp b q -> R q ->
     forall r, In r (neighbours (width b) (height b) (fst q) (snd q)) -> R r) ->
  forall q, inbp b q -> R q.
Proof.
  destruct p as [x y]. intros Hp Rp Hstep.
  assert (Hrow : forall n x1, Z.abs (x1 - x) = Z.of_nat n ->
                   0 <= x1 < width b -> R (x1, y)).
  { induction n as [|n IH]; intros x1 Hd Hx1.
    - replace x1 with x by lia. exact Rp.
    - set (x2 := if x1 >? x then x1 - 1 else x1 + 1).
      assert (H2 : Z.abs (x2 - x) = Z.of_nat n /\ 0 <= x2 < width b /\
                   x1 - 1 <= x2 <= x1 + 1 /\ x2 <> x1).
      { unfold x2. destruct Hp as [Hx _]. cbn [fst] in Hx.
        destruct (Z.gtb_spec x1 x); lia. }
      destruct H2 as (Hd2 & Hx2 & Hnear & Hne).
      assert (Hin2 : inb b x2 y) by (split; [exact Hx2|apply Hp]).
      apply (Hstep (x2, y) Hin2 (IH x2 Hd2 Hx2)). cbn [fst snd].
      apply (neighbours_spec b x2 y x1 y Hin2). split.
      + split; [exact Hx1|apply Hp].
      + split; [intros [=]; lia|]. lia. }
  intros [x' y'] [Hx' Hy']. cbn [fst snd] in Hx', Hy'.
  assert (Hcol : forall n y1, Z.abs (y1 - y) = Z.of_nat n ->
                   0 <= y1 < height b -> R (x', y1)).
  { induction n as [|n IH]; intros y1 Hd Hy1.
    - replace y1 with y by lia. apply (Hrow (Z.abs_nat (x' - x))); [lia|exact Hx'].
    - set (y2 := if y1 >? y then y1 - 1 else y1 + 1).
      assert (H2 : Z.abs (y2 - y) = Z.of_nat n /\ 0 <= y2 < height b /\
                   y1 - 1 <= y2 <= y1 + 1 /\ y2 <> y1).
      { unfold y2. destruct Hp as [_ Hy]. cbn [snd] in Hy.
        destruct (Z.gtb_spec y1 y); lia. }
      destruct H2 as (Hd2 & Hy2 & Hnear & Hne).
      assert (Hin2 : inb b x' y2) by (split; assumption).
      apply (Hstep (x', y2) Hin2 (IH y2 Hd2 Hy2)). cbn [fst snd].
      apply (neighbours_spec b x' y2 x' y1 Hin2). split.
      + split; assumption.
      + split; [intros [=]; lia|]. lia. }
  apply (Hcol (Z.abs_nat (y' - y))); [lia|exact Hy'].
Qed.

(** X11: on a board where nothing is revealed and every cell is without
    a mine and with a count that is not positive, one [reveal] at any
    position of the grid reveals every cell of the board and clears
    every flag, given fuel for one call per cell. *)
Theorem reveal_uncovers_open_board (fuel : nat) (b : Board) (x y : Z) :
  wf b -> inb b x y ->
  (forall c, In c (cells b) ->
     is_mine c = false /\ neighbor_mines c <= 0 /\ is_revealed c = false) ->
  (length (cells b) < fuel)%nat ->
  exists b', reveal fuel b x y = Ok b' /\ same_fields b b' /\
             cells b' = map reveal_cell (cells b).
Proof.
  intros Hwf Hxy Hall Hfuel.
  assert (Hw : 0 < width b) by (destruct Hxy; lia).
  pose proof (unrevealed_count_le b) as Hle.
  destruct (reveal_spec fuel b x y Hwf Hxy ltac:(lia))
    as (b' & new & Hr & _ & T & Rp & _ & Hcl).
  exists b'. split; [exact Hr|].
  pose proof T as (SF & Hlen & _). split; [exact SF|].
  pose proof SF as (Ew & Eh & _).
  assert (Hcell : forall q c, cell_of b q = Some c ->
            is_mine c = false /\ neighbor_mines c <= 0 /\ is_revealed c = false).
  { intros q c Hc. apply Hall. apply lookup_cell_some in Hc.
    apply list_elem_of_In, (list_elem_of_lookup_2 _ (Z.to_nat (idx b (fst q) (snd q)))).
    apply Hc. }
  assert (Hnew : forall q, inbp b q -> revealed_at b' q ->
            In q new /\ exists c, cell_of b q = Some c /\
                                  cell_of b' q = Some (reveal_cell c)).
  { intros q Hq (c' & Hc' & Rc').
    destruct (traced_cases b b' new q T Hq) as [E|(Hin & c & Hc & _ & E)].
    - rewrite E in Hc'. destruct (Hcell q c' Hc') as (_ & _ & U). congruence.
    - split; [exact Hin|]. exists c. auto. }
  assert (Hevery : forall q, inbp b q -> revealed_at b' q).
  { apply (grid_connected b (revealed_at b') (x, y) Hxy Rp).
    intros q Hq Rq r Hr'.
    destruct (Hnew q Hq Rq) as (Hin & c & Hc & Hc').
    apply (Hcl q Hin).
    - exists (reveal_cell c). split; [exact Hc'|].
      destruct (Hcell q c Hc) as (M & N & _). split; assumption.
    - rewrite Ew, Eh. exact Hr'. }
  apply list_eq. intros i. rewrite list_lookup_fmap.
  destruct (cells b !! i) as [c|] eqn:Hc.
  - destruct (lookup_position b i c Hwf Hw Hc) as (q & Hq & Hidx & Hcq).
    destruct (Hnew q Hq (Hevery q Hq)) as (_ & c1 & Hc1 & Hc1').
    rewrite Hcq in Hc1. injection Hc1 as <-.
    unfold cell_of, cell_at, idx in Hc1'. rewrite Ew in Hc1'.
    fold (idx b (fst q) (snd q)) in Hc1'. rewrite Hidx in Hc1'.
    unfold lookup_cell in Hc1'. destruct (Z.ltb_spec (Z.of_nat i) 0); [lia|].
    rewrite Nat2Z.id in Hc1'. exact Hc1'.
  - cbn. apply lookup_ge_None. apply lookup_ge_None in Hc. lia.
Qed.

Lemma reveal_uncovers_open_board_witness :
  exists b',
    reveal 7 (mkBoard 3 2 0 (replicate 6 blank) 0 false 1) 1 1 = Ok b' /\
    cells b' = replicate 6 (mkCell false true false 0).
Proof.
  destruct (reveal_uncovers_open_board 7
              (mkBoard 3 2 0 (replicate 6 blank) 0 false 1) 1 1)
    as (b' & H1 & _ & H2).
  - reflexivity.
  - unfold inb. simpl. lia.
  - intros c Hin. simpl in Hin.
    repeat (destruct Hin as [<- | Hin]; [repeat split; simpl; lia|]).
    destruct Hin.
  - simpl. lia.
  - exists b'. split; [exact H1|exact H2].
Defined.


(** * The text interface *)

(** ** print_board *)

Lemma for_loop_ext {S : Type} (body body' : Z -> S -> res S) (n : nat) :
  (forall i s, body i s = body' i s) ->
  forall i s, for_loop n i body s = for_loop n i body' s.
Proof.
  intros H. induction n as [|n IH]; intros i s; [reflexivity|].
  cbn [for_loop]. rewrite H. destruct (body' i s) as [s'|e]; [|reflexivity].
  cbn [bind]. apply IH.
Qed.

Lemma print_cell_view (b b' : Board) (c c' : Cell) (flagged : Z) :
  game_over b = false -> game_over b' = false -> view c = view c' ->
  print_cell b false c flagged = print_cell b' false c' flagged.
Proof.
  intros G G' V. unfold print_cell. rewrite G, G'. cbn [andb orb].
  unfold view in V.
  destruct (is_flagged c) eqn:F, (is_flagged c') eqn:F'.
  - reflexivity.
  - destruct (is_revealed c'); [rewrite <- V in F'|]; discriminate.
  - destruct (is_revealed c); [rewrite V in F|]; discriminate.
  - destruct (is_revealed c) eqn:R, (is_revealed c') eqn:R'.
    + rewrite V. reflexivity.
    + rewrite V in R. discriminate.
    + rewrite <- V in R'. discriminate.
    + reflexivity.
Qed.

(** X12: while the game is not over, [print_board] without its reveal
    option shows of a cell only its flag or, for a revealed cell
    without a flag, its content: two boards that agree on what the
    player has been shown are printed alike, wherever their hidden
    mines are (a fault of the printing included). *)
Theorem print_board_hides_unrevealed (b b' : Board) :
  game_over b = false -> same_fields b b' ->
  map view (cells b) = map view (cells b') ->
  print_board b false = print_board b' false.
Proof.
  intros G (Ew & Eh & En & Es & Eg & Et) V.
  assert (G' : game_over b' = false) by congruence.
  assert (Hcell : forall i (st : string * Z),
            (do cell <- get_cell b i;
             let r := print_cell b false cell (snd st) in
             Ok (fst st +:+ fst r, snd r))
            = (do cell <- get_cell b' i;
               let r := print_cell b' false cell (snd st) in
               Ok (fst st +:+ fst r, snd r))).
  { intros i st. unfold get_cell, lookup_cell.
    destruct (i <? 0); [reflexivity|].
    assert (E : map view (cells b) !! Z.to_nat i
                = map view (cells b') !! Z.to_nat i) by (rewrite V; reflexivity).
    rewrite !list_lookup_fmap in E.
    destruct (cells b !! Z.to_nat i) as [c|], (cells b' !! Z.to_nat i) as [c'|];
      try discriminate; [|reflexivity].
    cbn in E. injection E as E. cbn [bind].
    rewrite (print_cell_view b b' c c' (snd st) G G' E). reflexivity. }
  assert (Hrow : forall y st, print_row b false y st = print_row b' false y st).
  { intros y st. unfold print_row. rewrite Ew.
    rewrite (for_loop_ext _ (fun x st0 =>
               do cell <- get_cell b' (y * width b + x);
               let r := print_cell b' false cell (snd st0) in
               Ok (fst st0 +:+ fst r, snd r))); [reflexivity|].
    intros x st0. rewrite <- Ew. apply Hcell. }
  unfold print_board, print_header, print_footer.
  rewrite Ew, Eh, En, Es, Et.
  destruct (for_loop (Z.to_nat (width b)) 0 _ _) as [l1|e]; [|reflexivity].
  cbn [bind].
  destruct (for_loop (Z.to_nat (width b)) 0 _ _) as [l2|e]; [|reflexivity].
  cbn [bind].
  rewrite (for_loop_ext _ _ (Z.to_nat (height b)) Hrow). reflexivity.
Qed.

Lemma print_board_hides_unrevealed_witness :
  print_board mid_game_board false
  = print_board (mkBoard 3 1 1
                   [mkCell false true false 1; mkCell false false false 0;
                    mkCell true false false 1] 1 false 2) false.
Proof.
  apply (print_board_hides_unrevealed mid_game_board).
  - reflexivity.
  - repeat split.
  - reflexivity.
Defined.


Lemma for_loop_total {S : Type} (body : Z -> S -> res S) (n : nat) :
  (forall i s, exists s', body i s = Ok s') ->
  forall i s, exists s', for_loop n i body s = Ok s'.
Proof.
  intros H. induction n as [|n IH]; intros i s; [exists s; reflexivity|].
  cbn [for_loop]. destruct (H i s) as [s' ->]. cbn [bind]. apply IH.
Qed.

Lemma print_header_ok (b : Board) : exists text, print_header b = Ok text.
Proof.
  unfold print_header.
  destruct (for_loop_total (fun x out => Ok (out +:+ " " +:+ setw 3 (dec x)))
              (Z.to_nat (width b)) (fun i s => ex_intro _ _ eq_refl) 0
              ("Seed: " +:+ hex (seed b) +:+ nl +:+ "     ")) as [l1 ->].
  cbn [bind].
  apply (for_loop_total (fun x out => Ok (out +:+ "----"))
           (Z.to_nat (width b)) (fun i s => ex_intro _ _ eq_refl)).
Qed.

Lemma print_cell_count (b : Board) (show_all : bool) (c : Cell) (flagged : Z) :
  snd (print_cell b show_all c flagged)
  = flagged + (if shown_flagged b c then 1 else 0).
Proof.
  unfold print_cell, shown_flagged.
  destruct (game_over b), (is_mine c), (is_flagged c), show_all, (is_revealed c);
    cbn; lia.
Qed.

(** The inner loop of [print_board] on a stretch of the cell vector. *)
Lemma print_row_cells (b : Board) (show_all : bool) (base : Z) (n : nat) :
  forall x st,
    0 <= base + x ->
    (Z.to_nat (base + x) + n <= length (cells b))%nat ->
    exists out,
      for_loop n x
        (fun x st =>
           do cell <- get_cell b (base + x);
           let r := print_cell b show_all cell (snd st) in
           Ok (fst st +:+ fst r, snd r)) st
      = Ok (out, snd st
                 + Z.of_nat (length (List.filter (shown_flagged b)
                      (take n (drop (Z.to_nat (base + x)) (cells b)))))).
Proof.
  induction n as [|n IH]; intros x [out f] Hx Hlen.
  - exists out. rewrite take_0. cbn. f_equal. f_equal. lia.
  - cbn [for_loop].
    destruct (lookup_lt_is_Some_2 (cells b) (Z.to_nat (base + x)) ltac:(lia))
      as [c Hc].
    assert (Hg : get_cell b (base + x) = Ok c).
    { apply get_cell_ok. unfold lookup_cell.
      destruct (Z.ltb_spec (base + x) 0); [lia|exact Hc]. }
    rewrite Hg. cbn [bind fst snd].
    destruct (IH (x + 1) (out +:+ fst (print_cell b show_all c f),
                          snd (print_cell b show_all c f))
                ltac:(lia) ltac:(lia)) as [out' E].
    exists out'. etransitivity; [exact E|]. f_equal. f_equal. cbn [snd].
    rewrite print_cell_count, (drop_S _ _ _ Hc).
    replace (Z.to_nat (base + (x + 1))) with (S (Z.to_nat (base + x))) by lia.
    rewrite firstn_cons. cbn [List.filter].
    destruct (shown_flagged b c); cbn [length]; lia.
Qed.

(** The loop over the rows, from row [y] on. *)
Lemma print_rows_cells (b : Board) (show_all : bool) (n : nat) :
  forall y st,
    0 <= y -> 0 <= width b ->
    (Z.to_nat (y * width b) + n * Z.to_nat (width b) <= length (cells b))%nat ->
    exists out,
      for_loop n y (print_row b show_all) st
      = Ok (out, snd st
                 + Z.of_nat (length (List.filter (shown_flagged b)
                      (take (n * Z.to_nat (width b))
                         (drop (Z.to_nat (y * width b)) (cells b)))))).
Proof.
  induction n as [|n IH]; intros y [out f] Hy Hw Hlen.
  - exists out. change (0 * Z.to_nat (width b))%nat with 0%nat.
    rewrite take_0. cbn. f_equal. f_equal. lia.
  - cbn [for_loop]. unfold print_row at 1. cbn [fst snd].
    destruct (print_row_cells b show_all (y * width b) (Z.to_nat (width b)) 0
                (out +:+ setw 3 (dec y) +:+ "| ", f) ltac:(lia) ltac:(lia))
      as [out1 E1].
    cbv zeta in E1. rewrite E1. cbn [bind fst snd].
    destruct (IH (y + 1) (out1 +:+ nl,
                f + Z.of_nat (length (List.filter (shown_flagged b)
                       (take (Z.to_nat (width b))
                          (drop (Z.to_nat (y * width b + 0)) (cells b))))))
                ltac:(lia) Hw ltac:(nia)) as [out' E].
    exists out'. etransitivity; [exact E|]. f_equal. f_equal. cbn [snd].
    replace (S n * Z.to_nat (width b))%nat
      with (Z.to_nat (width b) + n * Z.to_nat (width b))%nat by lia.
    rewrite <- take_take_drop, List.filter_app, length_app, drop_drop.
    replace (Z.to_nat (y * width b + 0)) with (Z.to_nat (y * width b)) by lia.
    replace (Z.to_nat ((y + 1) * width b))
      with (Z.to_nat (y * width b) + Z.to_nat (width b))%nat by nia.
    lia.
Qed.

(** X13: on a board with one cell per grid position [print_board]
    reads no cell outside the vector, and the number in the first
    bracket of its last line is [num_mines] less the number of cells
    printed as a flag: the flagged cells, but for the mines once the
    game is over.  The second bracket holds the turn counter. *)
Theorem print_board_counts_flags (b : Board) (show_all : bool) :
  wf b -> 0 <= width b ->
  exists text,
    print_board b show_all
    = Ok (text +:+ print_footer b (count_cells (shown_flagged b) b)).
Proof.
  intros Hwf Hw. unfold print_board.
  destruct (print_header_ok b) as [hd ->]. cbn [bind].
  assert (Hlen : (Z.to_nat (height b) * Z.to_nat (width b) <= length (cells b))%nat
                 /\ (length (cells b) <= Z.to_nat (height b) * Z.to_nat (width b))%nat).
  { unfold wf in Hwf. destruct (Z.le_gt_cases 0 (height b)); nia. }
  destruct (print_rows_cells b show_all (Z.to_nat (height b)) 0 (hd +:+ nl, 0)
              ltac:(lia) Hw ltac:(cbn; lia)) as [out ->].
  cbn [bind fst snd]. exists out. do 3 f_equal.
  change (Z.to_nat (0 * width b)) with 0%nat. rewrite drop_0.
  rewrite take_ge by lia. reflexivity.
Qed.

Lemma print_board_counts_flags_witness :
  exists text,
    print_board wrong_flag_board false
    = Ok (text +:+ print_footer wrong_flag_board 1).
Proof.
  apply (print_board_counts_flags wrong_flag_board false).
  - reflexivity.
  - simpl. lia.
Defined.


(** ** read_command *)

(** What [read_command] returns: it uses up a first part of the lines,
    at least one line for a command other than [Quit], and [New] and
    [Quit] carry the numbers 0 and 0. *)
Lemma read_command_result (system : CoordinateSystem) (b : Board)
  (lines : list string) :
  forall cmd out rest,
    read_command system b lines = Ok (cmd, out, rest) ->
    (exists used, lines = used ++ rest) /\
    (verb cmd = New \/ verb cmd = Quit -> cmd_x cmd = 0 /\ cmd_y cmd = 0) /\
    (verb cmd <> Quit -> (length rest < length lines)%nat).
Proof.
  induction lines as [|line lines IH]; intros cmd out rest H.
  - injection H as <- _ <-. split; [exists []; reflexivity|].
    split; [auto|]. intros Hq. exfalso. apply Hq. reflexivity.
  - assert (Hagain : forall printed,
              (do r <- read_command system b lines;
               Ok (fst (fst r), " > " +:+ printed +:+ snd (fst r), snd r))
              = Ok (cmd, out, rest) ->
              (exists used, line :: lines = used ++ rest) /\
              (verb cmd = New \/ verb cmd = Quit ->
               cmd_x cmd = 0 /\ cmd_y cmd = 0) /\
              (verb cmd <> Quit -> (length rest < length (line :: lines))%nat)).
    { intros printed E.
      destruct (read_command system b lines) as [[[cmd1 out1] rest1]|e] eqn:R;
        [|discriminate].
      cbn in E. injection E as <- _ <-.
      destruct (IH cmd1 out1 rest1 eq_refl) as ([used ->] & Hz & Hl).
      split; [exists (line :: used); reflexivity|]. split; [exact Hz|].
      intros Hq. specialize (Hl Hq). cbn [length]. lia. }
    assert (Hone : forall c : Command,
              (verb c = New \/ verb c = Quit -> cmd_x c = 0 /\ cmd_y c = 0) ->
              (exists used, line :: lines = used ++ lines) /\
              (verb c = New \/ verb c = Quit -> cmd_x c = 0 /\ cmd_y c = 0) /\
              (verb c <> Quit -> (length lines < length (line :: lines))%nat)).
    { intros c Hc. split; [exists [line]; reflexivity|]. split; [exact Hc|].
      intros _. cbn [length]. lia. }
    cbn [read_command] in H.
    destruct (String.eqb (fst (extract line)) "r").
    { injection H as <- _ <-. apply Hone. intros [E|E]; discriminate. }
    destruct (String.eqb (fst (extract line)) "f"
              || String.eqb (fst (extract line)) "m").
    { injection H as <- _ <-. apply Hone. intros [E|E]; discriminate. }
    destruct (String.eqb (fst (extract line)) "q").
    { injection H as <- _ <-. apply Hone. auto. }
    destruct (String.eqb (fst (extract line)) "p").
    { destruct (print_board b false) as [text|e]; [|discriminate].
      apply (Hagain text H). }
    destruct (String.eqb (fst (extract line)) "P").
    { destruct (print_board b true) as [text|e]; [|discriminate].
      apply (Hagain text H). }
    destruct (String.eqb (fst (extract line)) "n").
    { injection H as <- _ <-. apply Hone. auto. }
    destruct ((atoi (fst (extract line)) >=? 0)
              && (atoi (fst (extract line)) <? width b)).
    { destruct system; injection H as <- _ <-; apply Hone;
        intros [E|E]; discriminate. }
    apply (Hagain unknown_command H).
Qed.

(** X14: [read_command] uses up a first part of the input lines, and a
    [New] or [Quit] command it returns carries the numbers 0 and 0,
    whatever the line held after the letter: so [case New] of main
    never takes its resizing branch, and a new game has the width and
    the height of the old one. *)
Theorem read_command_new_keeps_size (system : CoordinateSystem) (b : Board)
  (lines : list string) (cmd : Command) (out : string) (rest : list string) :
  read_command system b lines = Ok (cmd, out, rest) ->
  (exists used, lines = used ++ rest) /\
  (verb cmd = New \/ verb cmd = Quit -> cmd_x cmd = 0 /\ cmd_y cmd = 0) /\
  (verb cmd = New ->
   forall fresh b' msgs,
     do_new b (cmd_x cmd) (cmd_y cmd) fresh = Ok (b', msgs) ->
     width b' = width b /\ height b' = height b).
Proof.
  intros H.
  destruct (read_command_result system b lines cmd out rest H)
    as (Hused & Hz & _).
  split; [exact Hused|]. split; [exact Hz|].
  intros Hn fresh b' msgs Hd. destruct (Hz (or_introl Hn)) as [Ex Ey].
  rewrite Ex, Ey in Hd. unfold do_new in Hd. cbn [andb Z.gtb Z.compare] in Hd.
  destruct (resize _) as [cs|e]; [|discriminate].
  cbn in Hd. injection Hd as <- _. auto.
Qed.

Lemma read_command_new_keeps_size_witness :
  read_command Boris mid_game_board ["n 9 9"; "q"]
  = Ok (mkCommand New 0 0, " > ", ["q"]) /\
  (exists used, ["n 9 9"; "q"] = used ++ ["q"]) /\
  width (mkBoard 3 1 1 (replicate 3 blank) 7 false 0) = 3 /\
  height (mkBoard 3 1 1 (replicate 3 blank) 7 false 0) = 1.
Proof.
  assert (E : read_command Boris mid_game_board ["n 9 9"; "q"]
              = Ok (mkCommand New 0 0, " > ", ["q"])) by reflexivity.
  split; [exact E|].
  destruct (read_command_new_keeps_size Boris mid_game_board _ _ _ _ E)
    as (H1 & _ & H2).
  split; [exact H1|].
  exact (H2 eq_refl 7 (mkBoard 3 1 1 (replicate 3 blank) 7 false 0) []
           eq_refl).
Defined.

(** X15: when the board is at least one column wide, a line that is
    empty or holds white space only is not refused: [read_command]
    returns the command to reveal the cell at column 0 of row 0, in
    either coordinate system. *)
Theorem read_command_blank_line (system : CoordinateSystem) (b : Board)
  (line : string) (rest : list string) :
  skip_space line = "" -> 0 < width b ->
  read_command system b (line :: rest)
  = Ok (mkCommand Reveal 0 0, " > ", rest).
Proof.
  intros Hs Hw. cbn [read_command]. unfold extract. rewrite Hs.
  cbn [word fst snd skip_space String.eqb orb].
  change (atoi "") with 0.
  destruct (Z.ltb_spec 0 (width b)); [|lia].
  cbn. destruct system; reflexivity.
Qed.

Lemma read_command_blank_line_witness :
  read_command Boris mid_game_board ["   "; "q"]
  = Ok (mkCommand Reveal 0 0, " > ", ["q"]).
Proof.
  apply (read_command_blank_line Boris mid_game_board "   " ["q"]).
  - reflexivity.
  - simpl. lia.
Defined.


(** *** Numbers as they are typed *)























(** ** Commands outside the grid *)




(** ** The loop of main on lines of text *)

(** X19: a run of main's loop on lines of text is a run of the command
    loop: when it ends on a board, the command loop ends on the same
    board for some list of commands, at most one for each line, none of
    them a [Quit] and every [New] among them with the numbers 0 and
    0. *)
Theorem interact_runs_commands (dist : Z -> Z -> nat -> Z) (turns fuel : nat)
  (system : CoordinateSystem) (fresh : nat -> Z) :
  forall k lines b b' out,
    interact dist turns fuel system fresh k lines b = Ok (b', out) ->
    exists inputs msgs,
      main_loop dist fuel inputs b = Ok (b', msgs) /\
      (length inputs <= length lines)%nat /\
      Forall (fun i => verb (fst i) <> Quit /\
                       (verb (fst i) = New ->
                        cmd_x (fst i) = 0 /\ cmd_y (fst i) = 0)) inputs.
Proof.
  induction turns as [|turns IH]; intros k lines b b' out H; [discriminate|].
  cbn [interact] in H.
  destruct (print_board (fst (loop_head b)) false) as [shown|e]; [|discriminate].
  cbn [bind] in H.
  destruct (game_over (fst (loop_head b))) eqn:G.
  - injection H as <- _. exists [], (snd (loop_head b) ++ [GameOver]).
    split; [|split; [cbn; lia|constructor]].
    cbn [main_loop]. rewrite G. reflexivity.
  - destruct (read_command system (fst (loop_head b)) lines)
      as [[[cmd typed] rest]|e] eqn:R; [|discriminate].
    cbn [bind fst snd] in H.
    destruct (verb cmd) eqn:V.
    1-3: destruct (do_command dist fuel (fst (loop_head b)) cmd (fresh k))
           as [r|e] eqn:D; [|discriminate];
         cbn [bind] in H;
         destruct (interact dist turns fuel system fresh (S k) rest (fst r))
           as [[b1 out1]|e] eqn:I; [|discriminate];
         cbn [bind fst snd] in H; injection H as <- _;
         destruct (IH (S k) rest (fst r) b1 out1 I) as (inputs & msgs & M & L & F);
         exists ((cmd, fresh k) :: inputs),
                (snd (loop_head b) ++ snd r ++ msgs);
         (split; [|split]);
         [ cbn [main_loop]; rewrite G, V, D; cbn [bind]; rewrite M; reflexivity
         | pose proof (proj2 (proj2 (read_command_result system _ lines cmd
                                       typed rest R))
                         ltac:(rewrite V; discriminate));
           cbn [length]; lia
         | constructor; [|exact F]; cbn [fst]; split;
           [rewrite V; discriminate|] ].
    + rewrite V. discriminate.
    + rewrite V. discriminate.
    + intros _.
      destruct (read_command_result system _ lines cmd typed rest R)
        as (_ & Hz & _).
      apply Hz. left. exact V.
    + injection H as <- _. exists [], (snd (loop_head b)).
      split; [|split; [cbn; lia|constructor]].
      cbn [main_loop]. rewrite G. reflexivity.
Qed.

Lemma interact_runs_commands_witness :
  exists inputs msgs,
    main_loop round_robin 10 inputs (mkBoard 3 1 1 (replicate 3 blank) 1 false 0)
    = Ok (mid_game_board, msgs) /\
    (length inputs <= 2)%nat.
Proof.
  assert (E : exists out,
            interact round_robin 3 10 Boris (fun _ => 0) 0 ["r 0 0"; "q"]
              (mkBoard 3 1 1 (replicate 3 blank) 1 false 0)
            = Ok (mid_game_board, out))
    by (eexists; vm_compute; reflexivity).
  destruct E as [out E].
  destruct (interact_runs_commands round_robin 3 10 Boris (fun _ => 0) 0
              ["r 0 0"; "q"] _ _ _ E) as (inputs & msgs & M & L & _).
  exists inputs, msgs. split; [exact M|exact L].
Defined.


(** ** The end of a game *)

(** [check_board] never clears [game_over], and it keeps the mines and
    the revealed cells. *)
Lemma check_board_keeps (b : Board) :
  (game_over b = true -> game_over (fst (check_board b)) = true) /\
  width (fst (check_board b)) = width b /\
  forall i c, lookup_cell b i = Some c ->
    exists c', lookup_cell (fst (check_board b)) i = Some c' /\
               is_mine c' = is_mine c /\ is_revealed c' = is_revealed c.
Proof.
  unfold check_board.
  destruct (_ =? _); cbn [fst]; [|split; [auto|split; [reflexivity|eauto]]].
  split; [reflexivity|]. split; [reflexivity|].
  intros i c Hc. unfold lookup_cell in *. cbn [cells set_game_over set_cells].
  destruct (i <? 0); [discriminate|]. rewrite list_lookup_fmap, Hc.
  exists (flag_if_mine c). split; [reflexivity|].
  unfold flag_if_mine. destruct (is_mine c) eqn:M; auto.
Qed.

(** Once [game_over] is set when an iteration begins, main stops there
    and reads no command. *)
Lemma game_over_stops (dist : Z -> Z -> nat -> Z) (fuel : nat)
  (inputs : list (Command * Z)) (b : Board) :
  game_over b = true ->
  main_loop dist fuel inputs b
  = Ok (fst (loop_head b), snd (loop_head b) ++ [GameOver]).
Proof.
  intros G.
  assert (G' : game_over (fst (loop_head b)) = true).
  { unfold loop_head. apply check_board_keeps. exact G. }
  destruct inputs as [|[cmd fr] rest]; cbn [main_loop]; rewrite G'; reflexivity.
Qed.

(** X20: revealing an unrevealed mine after the first turn ends the
    run: the cell is revealed, [game_over] is set, and the next
    iteration prints "Game over!" and stops without reading any of the
    commands that follow (it may print "You win!" before that, when
    the win test of [check_board] holds on the lost board). *)
Theorem revealing_a_mine_ends_the_run (dist : Z -> Z -> nat -> Z) (fuel : nat)
  (b : Board) (x y : Z) (c : Cell) (fr : Z) (rest : list (Command * Z)) :
  game_over (fst (loop_head b)) = false -> time (tick b) <> 1 ->
  cell_at b x y = Some c -> is_mine c = true -> is_revealed c = false ->
  exists b' msgs,
    main_loop dist (S fuel) ((mkCommand Reveal x y, fr) :: rest) b
    = Ok (b', msgs ++ [GameOver]) /\
    (msgs = [] \/ msgs = [YouWin]) /\
    game_over b' = true /\
    exists c', cell_at b' x y = Some c' /\
               is_mine c' = true /\ is_revealed c' = true.
Proof.
  intros Hgo Ht Hc Hm Hr.
  destruct (loop_head_no_win b Hgo) as [Ehd _].
  assert (Ehd2 : snd (loop_head b) = []).
  { unfold loop_head in *. rewrite (check_board_no_win (tick b) Hgo).
    reflexivity. }
  assert (Hc' : get_cell (tick b) (y * width (tick b) + x) = Ok c).
  { apply get_cell_ok. exact Hc. }
  set (b1 := put_cell (tick b) (y * width (tick b) + x) (reveal_cell c)).
  assert (Hd : do_reveal dist (S fuel) (tick b) x y
               = Ok (set_game_over b1 true, [])).
  { rewrite (do_reveal_later dist (S fuel) (tick b) x y Ht).
    unfold dispatch. rewrite Hc'. cbn [bind]. rewrite Hr. cbn [andb negb].
    cbn [reveal]. rewrite Hc'. cbn [bind]. rewrite Hr.
    change (set_revealed (set_flagged c false) true) with (reveal_cell c).
    change (is_mine (reveal_cell c)) with (is_mine c). rewrite Hm.
    cbn [bind]. fold b1.
    assert (Hg : get_cell b1 (y * width b1 + x) = Ok (reveal_cell c)).
    { apply get_cell_ok. apply (lookup_put_eq (tick b) _ c _ Hc). }
    rewrite Hg. cbn [bind].
    change (is_mine (reveal_cell c)) with (is_mine c). rewrite Hm.
    reflexivity. }
  exists (fst (loop_head (set_game_over b1 true))),
         (snd (loop_head (set_game_over b1 true))).
  split; [|split; [|split]].
  - cbn [main_loop]. rewrite Hgo, Ehd, Ehd2. cbn [verb fst snd].
    unfold do_command. cbn [verb cmd_x cmd_y]. rewrite Hd. cbn [bind fst snd].
    rewrite (game_over_stops dist (S fuel) rest (set_game_over b1 true) eq_refl).
    reflexivity.
  - unfold loop_head, check_board. destruct (_ =? _); auto.
  - unfold loop_head. apply check_board_keeps. reflexivity.
  - assert (H1 : lookup_cell (tick (set_game_over b1 true)) (y * width b + x)
                 = Some (reveal_cell c)).
    { apply (lookup_put_eq (tick b) _ c _ Hc). }
    destruct (check_board_keeps (tick (set_game_over b1 true)))
      as (_ & Ew & Hk).
    destruct (Hk _ _ H1) as (c' & E' & M' & R').
    exists c'. split; [|split].
    + unfold cell_at, idx, loop_head. rewrite Ew. exact E'.
    + rewrite M'. exact Hm.
    + rewrite R'. reflexivity.
Qed.

Lemma revealing_a_mine_ends_the_run_witness :
  exists b' msgs,
    main_loop round_robin 1
      [(mkCommand Reveal 1 0, 0); (mkCommand Flag 9 9, 0)]
      (mkBoard 3 1 1
         [mkCell false true false 1; mkCell true false false 0;
          mkCell false false false 1] 1 false 1)
    = Ok (b', msgs ++ [GameOver]) /\ game_over b' = true.
Proof.
  destruct (revealing_a_mine_ends_the_run round_robin 0
              (mkBoard 3 1 1
                 [mkCell false true false 1; mkCell true false false 0;
                  mkCell false false false 1] 1 false 1)
              1 0 (mkCell true false false 0) 0 [(mkCommand Flag 9 9, 0)])
    as (b' & msgs & H1 & _ & H2 & _).
  - reflexivity.
  - vm_compute. discriminate.
  - reflexivity.
  - reflexivity.
  - reflexivity.
  - exists b', msgs. split; [exact H1|exact H2].
Defined.
